(** * Trading simulator core: trade engine, wallet valuation, market
      synchronisation, asset administration and the WebSocket
      broadcaster.

    Shallow embedding of
      - backend/app/api/services/trade_service.py
      - backend/app/api/services/market_service.py
      - backend/app/api/services/asset_service.py
      - backend/app/api/core/socket_manager.py
      - backend/app/api/clients/binance_client.py
      - backend/app/api/repositories/*.py
    together with the properties stated for them. *)

From Stdlib Require Import ZArith Lia Ascii String Sorting.Sorted.
From stdpp Require Import gmap strings list fin_maps.

Local Open Scope Z_scope.

(** ** Python's [decimal.Decimal] under the default context

    A finite Decimal is a signed coefficient and an exponent, standing
    for [coef * 10 ^ exp].  Every arithmetic operation computes the exact
    result and then rounds it to the context precision (28 significant
    digits, ROUND_HALF_EVEN).  The exponent limits of the context
    (Emax = 999999, Emin = -999999) and the special values (NaN,
    infinities, negative zero) are outside the model. *)
Module Decimal.

Record t : Type := mk { coef : Z; exp : Z }.

#[global] Instance t_eq_dec : EqDecision t.
Proof. solve_decision. Defined.

Definition prec : Z := 28.

(** [len(str(n))] for a non-negative [n]. *)
Fixpoint ndigits_aux (fuel : nat) (n : Z) : Z :=
  match fuel with
  | O => 1
  | S fuel' => if n <? 10 then 1 else 1 + ndigits_aux fuel' (n / 10)
  end.

Definition ndigits (n : Z) : Z :=
  ndigits_aux (Z.to_nat (Z.log2 (Z.abs n))) (Z.abs n).

(** ROUND_HALF_EVEN of [n / 10 ^ d] for non-negative [n] and [0 < d]. *)
Definition round_half_even (n d : Z) : Z :=
  let q := n / 10 ^ d in
  let r := n mod 10 ^ d in
  let half := 5 * 10 ^ (d - 1) in
  if (half <? r) || ((r =? half) && Z.odd q) then q + 1 else q.

(** [Decimal._fix]: round to at most [prec] digits. *)
Definition fix_ (x : t) : t :=
  let n := Z.abs (coef x) in
  let len := ndigits n in
  if len <=? prec then x
  else
    let d := len - prec in
    let q := round_half_even n d in
    if prec <? ndigits q
    then mk (Z.sgn (coef x) * (q / 10)) (exp x + d + 1)
    else mk (Z.sgn (coef x) * q) (exp x + d).

Definition of_Z (n : Z) : t := mk n 0.
Definition zero : t := of_Z 0.

(** [copy_negate]: sign flip without rounding. *)
Definition copy_negate (x : t) : t := mk (- coef x) (exp x).

(** Unary minus, [__neg__]: the flipped value goes through the context. *)
Definition neg (x : t) : t := fix_ (copy_negate x).

(** Coefficient of [x] rescaled to the exponent [e <= exp x]. *)
Definition scaled (e : Z) (x : t) : Z := coef x * 10 ^ (exp x - e).

Definition add (x y : t) : t :=
  let e := Z.min (exp x) (exp y) in
  fix_ (mk (scaled e x + scaled e y) e).

(** [__sub__] is [self + other.copy_negate()]. *)
Definition sub (x y : t) : t := add x (copy_negate y).

Definition mul (x y : t) : t :=
  fix_ (mk (coef x * coef y) (exp x + exp y)).

(** Strip trailing zeros of an exact quotient up to the ideal exponent. *)
Fixpoint strip_zeros (fuel : nat) (c e ideal : Z) : Z * Z :=
  match fuel with
  | O => (c, e)
  | S fuel' =>
      if (e <? ideal) && (c mod 10 =? 0)
      then strip_zeros fuel' (c / 10) (e + 1) ideal
      else (c, e)
  end.

(** [__truediv__]; [None] stands for the DivisionByZero /
    InvalidOperation signal raised on a zero divisor. *)
Definition div (x y : t) : option t :=
  if coef y =? 0 then None
  else
    let sign := Z.sgn (coef x) * Z.sgn (coef y) in
    if coef x =? 0 then Some (fix_ (mk 0 (exp x - exp y)))
    else
      let a := Z.abs (coef x) in
      let b := Z.abs (coef y) in
      let shift := ndigits b - ndigits a + prec + 1 in
      let e := exp x - exp y - shift in
      let num := if 0 <=? shift then a * 10 ^ shift else a in
      let den := if 0 <=? shift then b else b * 10 ^ (- shift) in
      let q := num / den in
      let r := num mod den in
      if r =? 0
      then
        let '(c, e') := strip_zeros (Z.to_nat (exp x - exp y - e)) q e
                          (exp x - exp y) in
        Some (fix_ (mk (sign * c) e'))
      else
        let q' := if q mod 5 =? 0 then q + 1 else q in
        Some (fix_ (mk (sign * q') e)).

(** Numeric comparison (independent of the representation). *)
Definition compare (x y : t) : comparison :=
  let e := Z.min (exp x) (exp y) in
  Z.compare (scaled e x) (scaled e y).

Definition ltb (x y : t) : bool :=
  match compare x y with Lt => true | _ => false end.
Definition leb (x y : t) : bool :=
  match compare x y with Gt => false | _ => true end.

(** Sign predicates: the sign of a Decimal is the sign of its
    coefficient. *)
Definition nonneg (x : t) : Prop := 0 <= coef x.
Definition pos (x : t) : Prop := 0 < coef x.

(** The value that a [NUMERIC(p, scale)] column holds for an assigned
    Decimal: the Decimal itself (the same number, whatever trailing zeros
    the column adds) when it has no more than [scale] decimals, and
    otherwise its rounding to [scale] decimals, ties away from zero (the
    rounding of PostgreSQL's [numeric]).  The overflow of the precision
    [p] is outside the model. *)
Definition to_numeric (scale : Z) (x : t) : t :=
  if - scale <=? exp x then x
  else
    let d := - scale - exp x in
    let n := Z.abs (coef x) in
    let q := n / 10 ^ d in
    let r := n mod 10 ^ d in
    mk (Z.sgn (coef x) * (if 5 * 10 ^ (d - 1) <=? r then q + 1 else q))
       (- scale).

End Decimal.

Declare Scope dec_scope.
Delimit Scope dec_scope with D.
Infix "+" := Decimal.add : dec_scope.
Infix "-" := Decimal.sub : dec_scope.
Infix "*" := Decimal.mul : dec_scope.
Notation "- x" := (Decimal.neg x) : dec_scope.
Infix "<?" := Decimal.ltb : dec_scope.
Infix "<=?" := Decimal.leb : dec_scope.

Definition D (c e : Z) : Decimal.t := Decimal.mk c e.


(** ** The relational store

    One record per table of [app/api/models].  The primary keys of
    [users] and [assets] and the declared unique constraint
    [uq_user_asset] of [portfolios] are the keys of the finite maps, so a
    row does not repeat its own id; columns that none of the embedded
    functions reads (email, hashed_password, role, the surrogate ids of
    portfolio, transaction and price-history rows) are left out.  The
    store keeps a Decimal as it was assigned (the column types
    Numeric(18, 8) and Numeric(18, 2) belong to the storage engine). *)

Record User : Type := mkUser {
  username : string;
  balance : Decimal.t;
}.

#[global] Instance User_eq_dec : EqDecision User.
Proof. solve_decision. Defined.

Record Asset : Type := mkAsset {
  ticker : string;
  name : string;
  binance_symbol : string;
  current_price : Decimal.t;
  is_active : bool;
}.

(** An asset object: the primary key and the columns of its row. *)
Definition asset_id (a : Z * Asset) : Z := a.1.

(** A row of [portfolios], as an ORM object. *)
Record Portfolio : Type := mkPortfolio {
  p_user_id : Z;
  p_asset_id : Z;
  quantity : Decimal.t;
}.

Record Transaction : Type := mkTransaction {
  tx_user_id : Z;
  tx_asset_id : Z;
  amount : Decimal.t;
  price_at_transaction : Decimal.t;
  type : string;
  timestamp : Z;
}.

Record PriceHistory : Type := mkPriceHistory {
  ph_asset_id : Z;
  price : Decimal.t;
}.

Record Store : Type := mkStore {
  users : gmap Z User;
  assets : gmap Z Asset;
  portfolios : gmap (Z * Z) Decimal.t;
  transactions : list Transaction;
  price_history : list PriceHistory;
}.

Definition set_users (f : gmap Z User → gmap Z User) (st : Store) : Store :=
  mkStore (f (users st)) (assets st) (portfolios st) (transactions st)
    (price_history st).
Definition set_assets (f : gmap Z Asset → gmap Z Asset) (st : Store) : Store :=
  mkStore (users st) (f (assets st)) (portfolios st) (transactions st)
    (price_history st).
Definition set_portfolios
    (f : gmap (Z * Z) Decimal.t → gmap (Z * Z) Decimal.t) (st : Store) : Store :=
  mkStore (users st) (assets st) (f (portfolios st)) (transactions st)
    (price_history st).
Definition set_transactions
    (f : list Transaction → list Transaction) (st : Store) : Store :=
  mkStore (users st) (assets st) (portfolios st) (f (transactions st))
    (price_history st).
Definition set_price_history
    (f : list PriceHistory → list PriceHistory) (st : Store) : Store :=
  mkStore (users st) (assets st) (portfolios st) (transactions st)
    (f (price_history st)).

Definition set_balance (b : Decimal.t) (u : User) : User :=
  mkUser (username u) b.
Definition set_current_price (p : Decimal.t) (a : Asset) : Asset :=
  mkAsset (ticker a) (name a) (binance_symbol a) p (is_active a).

(** ** Column types

    [users.balance] is a [Numeric(18, 2)] column (models/user.py): a user
    row that a session has changed reaches the database with its balance
    coerced to two decimals; a row that the session has not changed is
    not written.  The [Numeric(18, 8)] columns (quantity, amount, price)
    are not coerced in the model: what the embedded functions write to
    them is taken to have at most 8 decimals, the scale of the prices of
    the feed; the theorems on the amounts of a trade state this bound
    where they rely on it. *)
Definition stored_user (old : option User) (new : User) : User :=
  if decide (old = Some new) then new
  else set_balance (Decimal.to_numeric 2 (balance new)) new.

(** What the database holds after the flush of the pending store [new]
    of a session that started from [old]. *)
Definition flush (old new : Store) : Store :=
  set_users (map_imap (λ uid u, Some (stored_user (users old !! uid) u))) new.

(** ** Exceptions and the session monad

    An [AsyncSession] works on pending changes that reach the database
    only at [commit]; a session that is closed after an exception leaves
    the committed store as it was. *)

Inductive Detail : Type :=
| UserNotFound
| AssetNotFound (t : string)
| InsufficientFunds (have need : Decimal.t)
| InsufficientHolding (t : string) (owned : Decimal.t)
| InvalidTransactionType.

Inductive exn : Type :=
| HTTPException (status_code : Z) (detail : Detail)
| MultipleResultsFound
| AttributeError
| DivisionByZero
| CancelledError.

(** [isinstance(e, Exception)], what an [except Exception:] clause
    catches.  [asyncio.CancelledError] derives from [BaseException] only:
    it is raised inside an [await] of a task that is being cancelled, as
    the price update task is at shutdown (main.py). *)
Definition is_Exception (e : exn) : bool :=
  match e with
  | CancelledError => false
  | _ => true
  end.

Inductive result (A : Type) : Type :=
| Ok (a : A)
| Raise (e : exn).
Arguments Ok {A} a.
Arguments Raise {A} e.

Record Session : Type := mkSession {
  committed : Store;
  pending : Store;
}.

(** A session as the request handler receives it from [get_db]. *)
Definition open_session (db : Store) : Session := mkSession db db.

Definition M (A : Type) : Type := Session → result A * Session.

#[global] Instance M_ret : MRet M := λ A a s, (Ok a, s).
#[global] Instance M_bind : MBind M := λ A B f m s,
  match m s with
  | (Ok a, s') => f a s'
  | (Raise e, s') => (Raise e, s')
  end.

Definition raise {A : Type} (e : exn) : M A := λ s, (Raise e, s).
Definition read {A : Type} (f : Store → A) : M A := λ s, (Ok (f (pending s)), s).
Definition write (f : Store → Store) : M unit :=
  λ s, (Ok tt, mkSession (committed s) (f (pending s))).
(** [commit] flushes the pending rows; afterwards the session sees what
    the database holds. *)
Definition commit : M unit :=
  λ s, let st := flush (committed s) (pending s) in (Ok tt, mkSession st st).

(** [Result.scalar_one_or_none]. *)
Definition scalar_one_or_none {A : Type} (rows : list A) : M (option A) :=
  match rows with
  | [] => mret None
  | [r] => mret (Some r)
  | _ => raise MultipleResultsFound
  end.

(** A Python [dict] whose iteration order is observed: association list
    in insertion order, without repeated keys. *)
Module Dict.

Fixpoint set {V : Type} (k : string) (v : V) (d : list (string * V))
    : list (string * V) :=
  match d with
  | [] => [(k, v)]
  | (k', v') :: d' =>
      if decide (k = k') then (k, v) :: d' else (k', v') :: set k v d'
  end.

(** [{key(x): val(x) for x in l}] *)
Definition comprehension {A V : Type} (key : A → string) (val : A → V)
    (l : list A) : list (string * V) :=
  foldl (λ d x, set (key x) (val x) d) [] l.

End Dict.

(** ** Repositories (app/api/repositories)

    An ORM object handed out by a repository is a snapshot of its row;
    assigning to one of its attributes changes the row it stands for in
    the pending state of the session.  A [User] object is passed around
    as the primary key it was fetched by ([user.id]) next to its
    columns. *)

Module UserRepository.

Definition get_by_id (uid : Z) : M (option User) :=
  read (λ st, users st !! uid).

Definition update_balance (uid : Z) (delta : Decimal.t) : M unit :=
  write (set_users (alter (λ u, set_balance (balance u + delta)%D u) uid)).

(** [get_by_id_with_portfolio]: the user together with [user.portfolio],
    every holding carrying its eagerly loaded [asset]. *)
Definition get_by_id_with_portfolio (uid : Z)
    : M (option (User * list (Portfolio * option Asset))) :=
  read (λ st,
    match users st !! uid with
    | None => None
    | Some user =>
        Some (user,
              (λ kv : Z * Z * Decimal.t,
                 (mkPortfolio kv.1.1 kv.1.2 kv.2, assets st !! kv.1.2))
              <$> filter (λ kv : Z * Z * Decimal.t, kv.1.1 = uid)
                    (map_to_list (portfolios st)))
    end).

End UserRepository.

Module AssetRepository.

Definition get_all (st : Store) : list (Z * Asset) := map_to_list (assets st).

Definition get_all_active (st : Store) : list (Z * Asset) :=
  filter (λ a : Z * Asset, is_active a.2 = true) (get_all st).

Definition get_by_ticker (t : string) : M (option (Z * Asset)) :=
  rows ← read (λ st, filter (λ a : Z * Asset, ticker a.2 = t) (get_all st));
  scalar_one_or_none rows.

(** UPDATE assets SET current_price = :new_price WHERE id = :asset_id *)
Definition update_price (aid : Z) (new_price : Decimal.t) : M unit :=
  write (set_assets (alter (set_current_price new_price) aid)).

Definition get_ticker_to_binance_map (st : Store) : list (string * string) :=
  Dict.comprehension (λ a : Z * Asset, ticker a.2)
    (λ a : Z * Asset, binance_symbol a.2) (get_all_active st).

(** Only membership and lookup of this dictionary are used. *)
Definition get_ticker_to_id_map (st : Store) : gmap string Z :=
  foldl (λ (m : gmap string Z) (a : Z * Asset), <[ticker a.2 := asset_id a]> m)
    ∅ (get_all st).

Definition get_by_id (aid : Z) : M (option (Z * Asset)) :=
  read (λ st, (λ a, (aid, a)) <$> assets st !! aid).

Definition get_by_binance_symbol (symbol : string) : M (option (Z * Asset)) :=
  rows ← read (λ st,
    filter (λ a : Z * Asset, binance_symbol a.2 = symbol) (get_all st));
  scalar_one_or_none rows.

(** The new row gets the column defaults ([current_price] 0, [is_active]
    true); [new_id] is the primary key the database assigns to it. *)
Definition create (new_id : Z) (ticker name binance_symbol : string)
    : M (Z * Asset) :=
  let asset := mkAsset ticker name binance_symbol (Decimal.of_Z 0) true in
  write (set_assets <[new_id := asset]>);;
  mret (new_id, asset).

Definition delete (asset : Z * Asset) : M unit :=
  write (set_assets (base.delete (asset_id asset))).

End AssetRepository.

Module PortfolioRepository.

Definition get_by_user_and_asset (uid aid : Z) : M (option Portfolio) :=
  read (λ st, mkPortfolio uid aid <$> portfolios st !! (uid, aid)).

Definition create (uid aid : Z) (qty : Decimal.t) : M Portfolio :=
  write (set_portfolios <[(uid, aid) := qty]>);;
  mret (mkPortfolio uid aid qty).

Definition update_quantity (portfolio : Portfolio) (quantity_delta : Decimal.t)
    : M unit :=
  write (set_portfolios
           (alter (λ q, q + quantity_delta)%D
              (p_user_id portfolio, p_asset_id portfolio))).

(** DELETE FROM portfolios WHERE user_id = :user_id, returning the
    row count. *)
Definition delete_user_portfolio (uid : Z) : M nat :=
  rowcount ← read (λ st,
    size (filter (λ kv : Z * Z * Decimal.t, kv.1.1 = uid) (portfolios st)));
  write (set_portfolios
           (filter (λ kv : Z * Z * Decimal.t, kv.1.1 ≠ uid)));;
  mret rowcount.

(** DELETE FROM portfolios WHERE asset_id = :asset_id *)
Definition delete_by_asset_id (aid : Z) : M nat :=
  rowcount ← read (λ st,
    size (filter (λ kv : Z * Z * Decimal.t, kv.1.2 = aid) (portfolios st)));
  write (set_portfolios
           (filter (λ kv : Z * Z * Decimal.t, kv.1.2 ≠ aid)));;
  mret rowcount.

End PortfolioRepository.

(** Stable sort by an integer key ([ORDER BY ... ASC] and
    [list.sort(key=...)]). *)
Fixpoint insert_by {A : Type} (key : A → Z) (x : A) (l : list A) : list A :=
  match l with
  | [] => [x]
  | y :: l' => if key x <=? key y then x :: l else y :: insert_by key x l'
  end.

Definition sort_by {A : Type} (key : A → Z) (l : list A) : list A :=
  foldr (insert_by key) [] l.

Module TransactionRepository.

(** The [timestamp] column is filled by the server default [now()]. *)
Definition create (now uid aid : Z) (amt price : Decimal.t)
    (transaction_type : string) : M Transaction :=
  let transaction := mkTransaction uid aid amt price transaction_type now in
  write (set_transactions (λ l, l ++ [transaction]));;
  mret transaction.

Definition get_by_user (uid : Z) : M (list Transaction) :=
  read (λ st,
    sort_by timestamp (filter (λ tx, tx_user_id tx = uid) (transactions st))).

Definition delete_user_transactions (uid : Z) : M nat :=
  rowcount ← read (λ st,
    length (filter (λ tx, tx_user_id tx = uid) (transactions st)));
  write (set_transactions (filter (λ tx, tx_user_id tx ≠ uid)));;
  mret rowcount.

Definition delete_by_asset_id (aid : Z) : M nat :=
  rowcount ← read (λ st,
    length (filter (λ tx, tx_asset_id tx = aid) (transactions st)));
  write (set_transactions (filter (λ tx, tx_asset_id tx ≠ aid)));;
  mret rowcount.

End TransactionRepository.

Module PriceHistoryRepository.

Definition create (aid : Z) (p : Decimal.t) : M PriceHistory :=
  let entry := mkPriceHistory aid p in
  write (set_price_history (λ l, l ++ [entry]));;
  mret entry.

Definition delete_by_asset_id (aid : Z) : M nat :=
  rowcount ← read (λ st,
    length (filter (λ ph, ph_asset_id ph = aid) (price_history st)));
  write (set_price_history (filter (λ ph, ph_asset_id ph ≠ aid)));;
  mret rowcount.

End PriceHistoryRepository.

(** ** TradeService (app/api/services/trade_service.py) *)

Module TradeRequest.
(** [amount] is validated as [gt=0] when the request is parsed. *)
Record t : Type := mk { asset_ticker : string; amount : Decimal.t }.
End TradeRequest.

Module Stats.
Record t : Type := mk {
  total_cost : Decimal.t;
  quantity : Decimal.t;
  avg_price : Decimal.t;
}.
Definition init : t := mk (Decimal.of_Z 0) (Decimal.of_Z 0) (Decimal.of_Z 0).
End Stats.

Module WalletAsset.
Record t (float : Type) : Type := mk {
  ticker : string;
  name : string;
  amount : float;
  current_price : float;
  value : float;
  average_buy_price : float;
  is_active : bool;
}.
End WalletAsset.

Module Wallet.
Record t (float : Type) : Type := mk {
  username : string;
  balance : float;
  assets : list (WalletAsset.t float);
  total_value : float;
}.
End Wallet.

Module ResetReport.
Record t (float : Type) : Type := mk {
  success : bool;
  deleted_portfolio_items : nat;
  deleted_transactions : nat;
  new_balance : float;
}.
End ResetReport.

Module TradeService.

Definition INITIAL_BALANCE : Decimal.t := D 10000000 (-2).

Definition _get_valid_resources (uid : Z) (t : string)
    : M (User * (Z * Asset)) :=
  user ← UserRepository.get_by_id uid;
  asset ← AssetRepository.get_by_ticker t;
  match user with
  | None => raise (HTTPException 404 UserNotFound)
  | Some user =>
      match asset with
      | None => raise (HTTPException 404 (AssetNotFound t))
      | Some asset => mret (user, asset)
      end
  end.

Definition _process_buy (uid : Z) (user : User) (asset : Z * Asset)
    (portfolio_item : option Portfolio) (amt cost : Decimal.t) : M unit :=
  if (balance user <? cost)%D
  then raise (HTTPException 400 (InsufficientFunds (balance user) cost))
  else
    UserRepository.update_balance uid (- cost)%D;;
    match portfolio_item with
    | Some item => PortfolioRepository.update_quantity item amt
    | None =>
        PortfolioRepository.create uid (asset_id asset) amt;;
        mret tt
    end.

Definition _process_sell (uid : Z) (user : User) (asset : Z * Asset)
    (portfolio_item : option Portfolio) (amt income : Decimal.t) : M unit :=
  match portfolio_item with
  | None =>
      raise (HTTPException 400
               (InsufficientHolding (ticker asset.2) (Decimal.of_Z 0)))
  | Some item =>
      if (quantity item <? amt)%D
      then raise (HTTPException 400
                    (InsufficientHolding (ticker asset.2) (quantity item)))
      else
        write (set_users
                 (alter (λ u, set_balance (balance u + income)%D u) uid));;
        write (set_portfolios
                 (alter (λ q, q - amt)%D (p_user_id item, p_asset_id item)))
  end.

(** [execute_trade] returns the created transaction and the [ticker]
    attribute attached to it. *)
Definition execute_trade (now : Z) (uid : Z) (trade_data : TradeRequest.t)
    (trade_type : string) : M (Transaction * string) :=
  '(user, asset) ← _get_valid_resources uid
                      (TradeRequest.asset_ticker trade_data);
  portfolio_item ← PortfolioRepository.get_by_user_and_asset uid
                      (asset_id asset);
  let total_value :=
    (current_price asset.2 * TradeRequest.amount trade_data)%D in
  (if String.eqb trade_type "BUY"
   then _process_buy uid user asset portfolio_item
          (TradeRequest.amount trade_data) total_value
   else if String.eqb trade_type "SELL"
   then _process_sell uid user asset portfolio_item
          (TradeRequest.amount trade_data) total_value
   else raise (HTTPException 400 InvalidTransactionType));;
  transaction ← TransactionRepository.create now uid
                  (asset_id asset) (TradeRequest.amount trade_data)
                  (current_price asset.2) trade_type;
  commit;;
  mret (transaction, ticker asset.2).

(** The body of the replay loop of [get_wallet] for one transaction,
    once [stats = asset_stats[ticker]] has been fetched. *)
Definition update_stats (stats : Stats.t) (tx : Transaction) : result Stats.t :=
  if String.eqb (type tx) "BUY" then
    let q := (Stats.quantity stats + amount tx)%D in
    let c := (Stats.total_cost stats + amount tx * price_at_transaction tx)%D in
    if (Decimal.of_Z 0 <? q)%D
    then match Decimal.div c q with
         | Some avg => Ok (Stats.mk c q avg)
         | None => Raise DivisionByZero
         end
    else Ok (Stats.mk c q (Stats.avg_price stats))
  else if String.eqb (type tx) "SELL" then
    let q := (Stats.quantity stats - amount tx)%D in
    let c := (Stats.total_cost stats - amount tx * Stats.avg_price stats)%D in
    if (q <=? Decimal.of_Z 0)%D
    then Ok (Stats.mk (Decimal.of_Z 0) (Decimal.of_Z 0) (Decimal.of_Z 0))
    else Ok (Stats.mk c q (Stats.avg_price stats))
  else Ok stats.

(** The replay loop: [asset_stats] is the dictionary built so far;
    [asset_of] resolves [tx.asset]. *)
Fixpoint replay (asset_of : Z → option Asset) (txs : list Transaction)
    (asset_stats : gmap string Stats.t) : result (gmap string Stats.t) :=
  match txs with
  | [] => Ok asset_stats
  | tx :: txs' =>
      match asset_of (tx_asset_id tx) with
      | None => Raise AttributeError
      | Some asset =>
          let asset_stats :=
            match asset_stats !! ticker asset with
            | None => <[ticker asset := Stats.init]> asset_stats
            | Some _ => asset_stats
            end in
          match update_stats (default Stats.init (asset_stats !! ticker asset)) tx with
          | Raise e => Raise e
          | Ok stats' => replay asset_of txs' (<[ticker asset := stats']> asset_stats)
          end
      end
  end.

Section WithFloat.
(** Python floats stay abstract: [to_float] is [float(d)] for a
    Decimal [d]. *)
Context {float : Type} (to_float : Decimal.t → float).

(** The loop over [user.portfolio]: the list of wallet entries and
    [total_assets_value]. *)
Fixpoint build_assets (asset_stats : gmap string Stats.t)
    (portfolio : list (Portfolio * option Asset))
    (assets_list : list (WalletAsset.t float)) (total_assets_value : Decimal.t)
    : list (WalletAsset.t float) * Decimal.t :=
  match portfolio with
  | [] => (assets_list, total_assets_value)
  | (p, None) :: rest =>
      build_assets asset_stats rest assets_list total_assets_value
  | (p, Some asset) :: rest =>
      let value := (quantity p * current_price asset)%D in
      let avg_price :=
        match asset_stats !! ticker asset with
        | Some stats => Stats.avg_price stats
        | None => Decimal.of_Z 0
        end in
      build_assets asset_stats rest
        (assets_list ++
           [WalletAsset.mk float (ticker asset) (name asset)
              (to_float (quantity p)) (to_float (current_price asset))
              (to_float value) (to_float avg_price) (is_active asset)])
        (total_assets_value + value)%D
  end.

Definition get_wallet (uid : Z) : M (Wallet.t float) :=
  user ← UserRepository.get_by_id_with_portfolio uid;
  match user with
  | None => raise (HTTPException 404 UserNotFound)
  | Some (user, portfolio) =>
      transactions ← TransactionRepository.get_by_user uid;
      let transactions := sort_by timestamp transactions in
      asset_of ← read (λ st aid, assets st !! aid);
      match replay asset_of transactions ∅ with
      | Raise e => raise e
      | Ok asset_stats =>
          let '(assets_list, total_assets_value) :=
            build_assets asset_stats portfolio [] (Decimal.of_Z 0) in
          mret (Wallet.mk float (username user) (to_float (balance user))
                  assets_list
                  (to_float (balance user + total_assets_value)%D))
      end
  end.

Definition reset_account (uid : Z) : M (ResetReport.t float) :=
  user ← UserRepository.get_by_id uid;
  match user with
  | None => raise (HTTPException 404 UserNotFound)
  | Some user =>
      deleted_portfolio ← PortfolioRepository.delete_user_portfolio uid;
      deleted_transactions ←
        TransactionRepository.delete_user_transactions uid;
      write (set_users (alter (set_balance INITIAL_BALANCE) uid));;
      commit;;
      mret (ResetReport.mk float true deleted_portfolio deleted_transactions
              (to_float INITIAL_BALANCE))
  end.

End WithFloat.

End TradeService.

(** ** ConnectionManager (app/api/core/socket_manager.py)

    A [WebSocket] object is known by its identity.  [send_json] is the
    peer's behaviour during one broadcast: [Ok tt] when the message is
    delivered, [Raise e] when the call raises the exception [e]. *)

Module ConnectionManager.

Definition WebSocket : Type := nat.

Section WithPeers.
Context {Message : Type} (send_json : WebSocket → Message → result unit).

Record t : Type := mk {
  active_connections : list WebSocket;
  (** log of the messages that reached a peer *)
  delivered : list (WebSocket * Message);
  (** log of the [send_json] calls *)
  attempted : list (WebSocket * Message);
}.

(** [list.remove]: drop the first occurrence. *)
Fixpoint remove_first (x : WebSocket) (l : list WebSocket) : list WebSocket :=
  match l with
  | [] => []
  | y :: l' => if decide (x = y) then l' else y :: remove_first x l'
  end.

Definition disconnect (websocket : WebSocket) (m : t) : t :=
  if decide (websocket ∈ active_connections m)
  then mk (remove_first websocket (active_connections m))
          (delivered m) (attempted m)
  else m.

(** One iteration of the loop of [broadcast]:
    [try: await connection.send_json(message)]
    [except Exception: self.disconnect(connection)].
    An exception that is not an [Exception] is not caught: it leaves the
    iteration, with the connection still registered. *)
Definition broadcast_one (message : Message) (connection : WebSocket) (m : t)
    : result unit * t :=
  let m' := mk (active_connections m) (delivered m)
               (attempted m ++ [(connection, message)]) in
  match send_json connection message with
  | Ok _ => (Ok tt, mk (active_connections m')
                       (delivered m' ++ [(connection, message)])
                       (attempted m'))
  | Raise e =>
      if is_Exception e then (Ok tt, disconnect connection m')
      else (Raise e, m')
  end.

Fixpoint broadcast_loop (message : Message) (copy : list WebSocket) (m : t)
    : result unit * t :=
  match copy with
  | [] => (Ok tt, m)
  | connection :: rest =>
      match broadcast_one message connection m with
      | (Ok _, m') => broadcast_loop message rest m'
      | (Raise e, m') => (Raise e, m')
      end
  end.

(** The loop runs over the copy [self.active_connections[:]]; an
    exception that leaves an iteration leaves [broadcast]. *)
Definition broadcast (message : Message) (m : t) : result unit * t :=
  broadcast_loop message (active_connections m) m.

(** [connect]: [accept] is the handshake of the peer, [Raise e] when
    [websocket.accept()] raises. *)
Context (accept : WebSocket → result unit).

Definition connect (websocket : WebSocket) (m : t) : result unit * t :=
  match accept websocket with
  | Ok _ => (Ok tt, mk (active_connections m ++ [websocket])
                       (delivered m) (attempted m))
  | Raise e => (Raise e, m)
  end.

End WithPeers.

End ConnectionManager.

(** ** MarketService (app/api/services/market_service.py) *)

(** [str.isupper] and [str.isalnum] on ASCII strings (a byte above 127
    counts as neither cased nor alphanumeric). *)
Definition ascii_between (lo hi : nat) (c : ascii) : bool :=
  let n := nat_of_ascii c in (lo <=? n)%nat && (n <=? hi)%nat.
Definition is_upper_char : ascii → bool := ascii_between 65 90.
Definition is_lower_char : ascii → bool := ascii_between 97 122.
Definition is_digit_char : ascii → bool := ascii_between 48 57.

Definition isupper (s : string) : bool :=
  existsb is_upper_char (list_ascii_of_string s)
  && negb (existsb is_lower_char (list_ascii_of_string s)).

Definition isalnum (s : string) : bool :=
  negb (String.eqb s "")
  && forallb (λ c, is_upper_char c || is_lower_char c || is_digit_char c)
       (list_ascii_of_string s).

Module MarketService.

Module Message.
Record t (float : Type) : Type := mk {
  type : string;
  data : list (string * float);
}.
End Message.

(** What a cycle does to the outside, in order. *)
Inductive Event (float : Type) : Type :=
| FeedCall (symbols : list string)
| Commit
| Broadcast (message : Message.t float).
Arguments FeedCall {float} symbols.
Arguments Commit {float}.
Arguments Broadcast {float} message.

Record World (float : Type) : Type := mkWorld {
  db : Store;
  trace : list (Event float);
}.
Arguments mkWorld {float} db trace.
Arguments db {float} w.
Arguments trace {float} w.

Section WithFeed.
(** Floats stay abstract; [decimal_of_str p] is [Decimal(str(p))].
    [get_prices] is [BinanceClient.get_prices] during this cycle,
    [None] when it raises. *)
Context {float : Type} (decimal_of_str : float → Decimal.t).
Context (get_prices : list string → option (gmap string float)).

Definition _fetch_live_prices (ticker_map : list (string * string))
    (tr : list (Event float)) : gmap string float * list (Event float) :=
  match ticker_map with
  | [] => (∅, tr)
  | _ =>
      let binance_symbols :=
        filter (λ s, negb (String.eqb s "") && isupper s && isalnum s = true)
          ticker_map.*2 in
      match binance_symbols with
      | [] => (∅, tr)
      | _ =>
          match get_prices binance_symbols with
          | Some prices => (prices, tr ++ [FeedCall binance_symbols])
          | None => (∅, tr ++ [FeedCall binance_symbols])
          end
      end
  end.

Definition _persist_asset_update (aid : Z) (t : string) (p : float)
    : M (string * float) :=
  let decimal_price := decimal_of_str p in
  AssetRepository.update_price aid decimal_price;;
  PriceHistoryRepository.create aid decimal_price;;
  mret (t, p).

(** The [for my_ticker, binance_symbol in ticker_map.items()] loop. *)
Fixpoint persist_loop (items : list (string * string))
    (binance_prices : gmap string float) (assets_map : gmap string Z)
    (updates_for_ws : list (string * float)) : M (list (string * float)) :=
  match items with
  | [] => mret updates_for_ws
  | (my_ticker, binance_symbol) :: rest =>
      match binance_prices !! binance_symbol, assets_map !! my_ticker with
      | Some p, Some aid =>
          update_data ← _persist_asset_update aid my_ticker p;
          persist_loop rest binance_prices assets_map
            (updates_for_ws ++ [update_data])
      | _, _ => persist_loop rest binance_prices assets_map updates_for_ws
      end
  end.

Definition _broadcast_updates (updates : list (string * float))
    (tr : list (Event float)) : list (Event float) :=
  tr ++ [Broadcast (Message.mk float "market_update" updates)].

Definition _update_prices (w : World float) : World float :=
  let s := open_session (db w) in
  let ticker_map := AssetRepository.get_ticker_to_binance_map (pending s) in
  let '(binance_prices, tr) := _fetch_live_prices ticker_map (trace w) in
  if decide (binance_prices = ∅) then mkWorld (db w) tr
  else
    let assets_map := AssetRepository.get_ticker_to_id_map (pending s) in
    match (updates_for_ws ← persist_loop ticker_map binance_prices
                               assets_map [];
           commit;;
           mret updates_for_ws) s with
    | (Ok updates_for_ws, s') =>
        let tr := tr ++ [Commit] in
        mkWorld (committed s')
          (match updates_for_ws with
           | [] => tr
           | _ => _broadcast_updates updates_for_ws tr
           end)
    | (Raise _, s') => mkWorld (committed s') tr
    end.

(** [get_current_prices]; [float_zero] is the float [0.0]. *)
Context (float_zero : float).


End WithFeed.

(** The first iterations of the loop of [start_price_updates], one feed
    behaviour per iteration (the sleep between two iterations and the
    cancellation of the task are not part of the model). *)
Definition start_price_updates {float : Type}
    (decimal_of_str : float → Decimal.t)
    (feeds : list (list string → option (gmap string float)))
    (w : World float) : World float :=
  foldl (λ w get_prices, _update_prices decimal_of_str get_prices w) w feeds.

End MarketService.

(** ** BinanceClient (app/api/clients/binance_client.py)

    The HTTP exchange of [get_prices] is the feed function of the
    market service; [get_single_price] is built on it. *)

Module BinanceClient.

Inductive Error : Type :=
| HTTPError
| KeyError (symbol : string).

(** [prices = await self.get_prices([symbol]); return prices[symbol]] *)
Definition get_single_price {float : Type}
    (get_prices : list string → option (gmap string float)) (symbol : string)
    : Error + float :=
  match get_prices [symbol] with
  | None => inl HTTPError
  | Some prices =>
      match prices !! symbol with
      | Some p => inr p
      | None => inl (KeyError symbol)
      end
  end.

End BinanceClient.

(** ** AssetService (app/api/services/asset_service.py) *)

(** [str.upper] and [str.strip] on ASCII strings. *)
Definition upper_char (c : ascii) : ascii :=
  if is_lower_char c then ascii_of_nat (nat_of_ascii c - 32) else c.

Definition upper (s : string) : string :=
  string_of_list_ascii (upper_char <$> list_ascii_of_string s).

Definition is_space_char (c : ascii) : bool :=
  ascii_between 9 13 c || ascii_between 28 32 c.

Fixpoint lstrip_chars (l : list ascii) : list ascii :=
  match l with
  | [] => []
  | c :: l' => if is_space_char c then lstrip_chars l' else l
  end.

Definition strip (s : string) : string :=
  string_of_list_ascii
    (reverse (lstrip_chars (reverse (lstrip_chars (list_ascii_of_string s))))).

Definition set_name (n : string) (a : Asset) : Asset :=
  mkAsset (ticker a) n (binance_symbol a) (current_price a) (is_active a).
Definition set_binance_symbol (symbol : string) (a : Asset) : Asset :=
  mkAsset (ticker a) (name a) symbol (current_price a) (is_active a).
Definition set_is_active (b : bool) (a : Asset) : Asset :=
  mkAsset (ticker a) (name a) (binance_symbol a) (current_price a) b.

Module AssetCreate.
Record t : Type := mk {
  ticker : string;
  name : string;
  binance_symbol : string;
}.
End AssetCreate.

Module AssetUpdate.
Record t : Type := mk {
  name : option string;
  binance_symbol : option string;
  is_active : option bool;
}.
End AssetUpdate.

Module AssetService.

(** The [detail] of the HTTP errors of this service. *)
Inductive Detail : Type :=
| AssetIdNotFound (aid : Z)
| TickerExists (t : string)
| BinanceSymbolExists (symbol : string).

(** How a call ends: it returns, raises an [HTTPException] of this
    service, lets an exception of a repository through, or fails on a
    constraint of the [assets] table. *)
Inductive outcome (A : Type) : Type :=
| Return (a : A)
| RaiseHTTP (status_code : Z) (detail : Detail)
| RaiseOther (e : exn)
| RaiseIntegrityError.
Arguments Return {A} a.
Arguments RaiseHTTP {A} status_code detail.
Arguments RaiseOther {A} e.
Arguments RaiseIntegrityError {A}.

Definition MA (A : Type) : Type := Session → outcome A * Session.

#[global] Instance MA_ret : MRet MA := λ A a s, (Return a, s).
#[global] Instance MA_bind : MBind MA := λ A B f m s,
  match m s with
  | (Return a, s') => f a s'
  | (RaiseHTTP c d, s') => (RaiseHTTP c d, s')
  | (RaiseOther e, s') => (RaiseOther e, s')
  | (RaiseIntegrityError, s') => (RaiseIntegrityError, s')
  end.

Definition raise_http {A : Type} (status_code : Z) (detail : Detail) : MA A :=
  λ s, (RaiseHTTP status_code detail, s).

(** A repository call inside the service. *)
Definition lift {A : Type} (m : M A) : MA A :=
  λ s, match m s with
       | (Ok a, s') => (Return a, s')
       | (Raise e, s') => (RaiseOther e, s')
       end.

(** The flush of an inserted or updated row of [assets]: the
    [unique=True] constraints on [ticker] and [binance_symbol]
    (models/asset.py) reject it when another row holds one of its two
    values. *)
Definition flush_asset (aid : Z) : MA unit := λ s,
  match assets (pending s) !! aid with
  | Some a =>
      if decide (Forall (λ b : Z * Asset,
                           b.1 = aid
                           ∨ (ticker b.2 ≠ ticker a
                              ∧ binance_symbol b.2 ≠ binance_symbol a))
                   (AssetRepository.get_all (pending s)))
      then (Return tt, s)
      else (RaiseIntegrityError, s)
  | None => (Return tt, s)
  end.

Section WithClient.
(** [binance_client] is [None] when the service was built without a
    client; [decimal_of_str p] is [Decimal(str(p))]. *)
Context {float : Type} (decimal_of_str : float → Decimal.t).
Context (binance_client : option (list string → option (gmap string float))).

(** Every exception of the client call ends in [None]. *)
Definition _fetch_initial_price (symbol : string) : option Decimal.t :=
  match binance_client with
  | None => None
  | Some get_prices =>
      match BinanceClient.get_single_price get_prices symbol with
      | inr p => Some (decimal_of_str p)
      | inl _ => None
      end
  end.

(** [if initial_price:] holds for a Decimal other than zero. *)
Definition truthy (initial_price : option Decimal.t) : option Decimal.t :=
  match initial_price with
  | Some p => if Decimal.coef p =? 0 then None else Some p
  | None => None
  end.

Definition get_by_id (aid : Z) : MA (Z * Asset) :=
  asset ← lift (AssetRepository.get_by_id aid);
  match asset with
  | None => raise_http 404 (AssetIdNotFound aid)
  | Some asset => mret asset
  end.

(** [db.refresh(asset)]: the object as the session holds it. *)
Definition refresh (aid : Z) (asset : Asset) : MA (Z * Asset) :=
  row ← lift (read (λ st, assets st !! aid));
  mret (aid, default asset row).

Definition create (new_id : Z) (data : AssetCreate.t) : MA (Z * Asset) :=
  let t := strip (upper (AssetCreate.ticker data)) in
  let symbol := strip (upper (AssetCreate.binance_symbol data)) in
  existing ← lift (AssetRepository.get_by_ticker t);
  match existing with
  | Some _ => raise_http 400 (TickerExists t)
  | None =>
      existing_symbol ← lift (AssetRepository.get_by_binance_symbol symbol);
      match existing_symbol with
      | Some _ => raise_http 400 (BinanceSymbolExists symbol)
      | None =>
          asset ← lift (AssetRepository.create new_id t
                          (AssetCreate.name data) symbol);
          match truthy (_fetch_initial_price symbol) with
          | Some initial_price =>
              lift (write (set_assets
                             (alter (set_current_price initial_price)
                                (asset_id asset))))
          | None => mret tt
          end;;
          flush_asset (asset_id asset);;
          lift commit;;
          refresh (asset_id asset) asset.2
      end
  end.

Definition update (aid : Z) (data : AssetUpdate.t) : MA (Z * Asset) :=
  asset ← get_by_id aid;
  match AssetUpdate.name data with
  | Some n => lift (write (set_assets (alter (set_name n) aid)))
  | None => mret tt
  end;;
  match AssetUpdate.binance_symbol data with
  | Some symbol =>
      let symbol := strip (upper symbol) in
      lift (write (set_assets (alter (set_binance_symbol symbol) aid)));;
      match truthy (_fetch_initial_price symbol) with
      | Some initial_price =>
          lift (write (set_assets (alter (set_current_price initial_price) aid)))
      | None => mret tt
      end
  | None => mret tt
  end;;
  match AssetUpdate.is_active data with
  | Some b => lift (write (set_assets (alter (set_is_active b) aid)))
  | None => mret tt
  end;;
  match AssetUpdate.binance_symbol data with
  | Some _ => flush_asset aid
  | None => mret tt
  end;;
  lift commit;;
  refresh aid asset.2.

Definition toggle_active (aid : Z) : MA (Z * Asset) :=
  asset ← get_by_id aid;
  lift (write (set_assets
                 (alter (λ a, set_is_active (negb (is_active a)) a) aid)));;
  lift commit;;
  refresh aid asset.2.

Definition delete (aid : Z) : MA unit :=
  asset ← get_by_id aid;
  lift (PortfolioRepository.delete_by_asset_id aid);;
  lift (TransactionRepository.delete_by_asset_id aid);;
  lift (PriceHistoryRepository.delete_by_asset_id aid);;
  lift (AssetRepository.delete asset);;
  lift commit.

End WithClient.

End AssetService.
(** * Specification vocabulary *)

(** What [execute_trade] leaves in the store after a successful BUY. *)
Definition buy_store (now uid aid : Z) (asset : Asset) (amt : Decimal.t)
    (db : Store) : Store :=
  let cost := (current_price asset * amt)%D in
  mkStore
    (alter (λ u, stored_user (Some u)
                   (set_balance (balance u + - cost)%D u)) uid (users db))
    (assets db)
    (match portfolios db !! (uid, aid) with
     | Some _ => alter (λ q, q + amt)%D (uid, aid) (portfolios db)
     | None => <[(uid, aid) := amt]> (portfolios db)
     end)
    (transactions db ++
       [mkTransaction uid aid amt (current_price asset) "BUY" now])
    (price_history db).

(** ... and after a successful SELL. *)
Definition sell_store (now uid aid : Z) (asset : Asset) (amt : Decimal.t)
    (db : Store) : Store :=
  let income := (current_price asset * amt)%D in
  mkStore
    (alter (λ u, stored_user (Some u)
                   (set_balance (balance u + income)%D u)) uid (users db))
    (assets db)
    (alter (λ q, q - amt)%D (uid, aid) (portfolios db))
    (transactions db ++
       [mkTransaction uid aid amt (current_price asset) "SELL" now])
    (price_history db).


#[global] Instance nonneg_dec (x : Decimal.t) : Decision (Decimal.nonneg x).
Proof. unfold Decimal.nonneg. apply _. Defined.
#[global] Instance pos_dec (x : Decimal.t) : Decision (Decimal.pos x).
Proof. unfold Decimal.pos. apply _. Defined.

(** The account invariant: no negative balance, no negative holding. *)
Definition store_inv (db : Store) : Prop :=
  map_Forall (λ _ u, Decimal.nonneg (balance u)) (users db)
  ∧ map_Forall (λ _ q, Decimal.nonneg q) (portfolios db).

(** The asset invariant of the data model: no negative price. *)
Definition prices_nonneg (db : Store) : Prop :=
  map_Forall (λ _ a, Decimal.nonneg (current_price a)) (assets db).

#[global] Instance store_inv_dec (db : Store) : Decision (store_inv db).
Proof. unfold store_inv. apply _. Defined.
#[global] Instance prices_nonneg_dec (db : Store) : Decision (prices_nonneg db).
Proof. unfold prices_nonneg. apply _. Defined.

(** What [reset_account] leaves in the store. *)
Definition reset_store (uid : Z) (db : Store) : Store :=
  mkStore
    (alter (set_balance TradeService.INITIAL_BALANCE) uid (users db))
    (assets db)
    (filter (λ kv : Z * Z * Decimal.t, kv.1.1 ≠ uid) (portfolios db))
    (filter (λ tx, tx_user_id tx ≠ uid) (transactions db))
    (price_history db).

(** The holdings and the ledger entries owned by a user. *)
Definition holdings_of (uid : Z) (db : Store) : gmap (Z * Z) Decimal.t :=
  filter (λ kv : Z * Z * Decimal.t, kv.1.1 = uid) (portfolios db).
Definition ledger_of (uid : Z) (db : Store) : list Transaction :=
  filter (λ tx, tx_user_id tx = uid) (transactions db).

(** ** Example stores *)

Definition alice : User := mkUser "alice" (D 10000 0).
Definition btc : Asset := mkAsset "BTC" "Bitcoin" "BTCUSDT" (D 100 0) true.


(** balance 50, BTC at 100, a holding of 0.5 BTC *)
Definition st_poor : Store :=
  mkStore {[ 1 := mkUser "bob" (D 50 0) ]} {[ 7 := btc ]}
    {[ (1, 7) := D 5 (-1) ]} [] [].

(** balance 1000, BTC at 100, a holding of 5 BTC bought at 90 *)
Definition st_holding : Store :=
  mkStore {[ 1 := mkUser "carol" (D 1000 0); 2 := alice ]} {[ 7 := btc ]}
    {[ (1, 7) := D 5 0; (2, 7) := D 3 0 ]}
    [mkTransaction 1 7 (D 5 0) (D 90 0) "BUY" 1;
     mkTransaction 2 7 (D 3 0) (D 95 0) "BUY" 2] [].

(** balance 0, a holding of 1 BTC, and a stored price of -1 *)
Definition st_negative_price : Store :=
  mkStore {[ 1 := mkUser "dave" (D 0 0) ]}
    {[ 7 := mkAsset "BTC" "Bitcoin" "BTCUSDT" (D (-1) 0) true ]}
    {[ (1, 7) := D 1 0 ]} [] [].


(** ** Wallet vocabulary *)

(** A ledger in chronological order. *)
Definition chronological (l : list Transaction) : Prop :=
  Sorted (λ a b, timestamp a <= timestamp b) l.

(** The ticker a ledger entry is accounted under ([tx.asset.ticker]). *)
Definition ticker_of (asset_of : Z → option Asset) (tx : Transaction)
    : option string :=
  ticker <$> asset_of (tx_asset_id tx).

(** The entries of a ledger that concern one ticker, in ledger order. *)
Definition sub_ledger (asset_of : Z → option Asset) (t : string)
    (txs : list Transaction) : list Transaction :=
  filter (λ tx, ticker_of asset_of tx = Some t) txs.

(** One replay step as a total function. *)
Definition step (stats : Stats.t) (tx : Transaction) : Stats.t :=
  match TradeService.update_stats stats tx with
  | Ok stats' => stats'
  | Raise _ => stats
  end.

(** The running statistics of one ticker after a ledger. *)
Definition replay_ticker (asset_of : Z → option Asset) (t : string)
    (txs : list Transaction) : option Stats.t :=
  match sub_ledger asset_of t txs with
  | [] => None
  | l => Some (foldl step Stats.init l)
  end.

(** [user.portfolio] as [get_by_id_with_portfolio] loads it. *)
Definition user_portfolio (uid : Z) (db : Store)
    : list (Portfolio * option Asset) :=
  (λ kv : Z * Z * Decimal.t,
     (mkPortfolio kv.1.1 kv.1.2 kv.2, assets db !! kv.1.2))
  <$> filter (λ kv : Z * Z * Decimal.t, kv.1.1 = uid)
        (map_to_list (portfolios db)).

(** [quantity * current_price] of every holding whose asset is loaded. *)
Definition holding_values (portfolio : list (Portfolio * option Asset))
    : list Decimal.t :=
  omap (λ pa : Portfolio * option Asset,
          (λ asset, quantity pa.1 * current_price asset)%D <$> pa.2)
    portfolio.

(** The sum of the holding values, added up from [Decimal(0)] in
    portfolio order. *)
Definition holdings_value (portfolio : list (Portfolio * option Asset))
    : Decimal.t :=
  foldl Decimal.add (Decimal.of_Z 0) (holding_values portfolio).

(** Referential integrity of the ledger ([ForeignKey("assets.id")]). *)
Definition ledger_assets_exist (db : Store) : Prop :=
  Forall (λ tx, is_Some (assets db !! tx_asset_id tx)) (transactions db).

#[global] Instance ledger_assets_exist_dec (db : Store)
  : Decision (ledger_assets_exist db).
Proof. unfold ledger_assets_exist. apply _. Defined.

(** The ledgers of the examples: BUY 2 at 100, BUY 1 at 200, and then
    SELL 1 at 500. *)
Definition buy_2_at_100 : Transaction := mkTransaction 1 7 (D 2 0) (D 100 0) "BUY" 10.
Definition buy_1_at_200 : Transaction := mkTransaction 1 7 (D 1 0) (D 200 0) "BUY" 20.
Definition sell_1_at_500 : Transaction := mkTransaction 1 7 (D 1 0) (D 500 0) "SELL" 30.
Definition sell_3_at_500 : Transaction := mkTransaction 1 7 (D 3 0) (D 500 0) "SELL" 40.

(** 133.3333333333333333333333333, the 28-digit quotient 400 / 3 *)
Definition avg_400_3 : Decimal.t := D 1333333333333333333333333333 (-25).

(** The wallet entry of one holding, given the replayed statistics. *)
Definition wallet_entry {float : Type} (to_float : Decimal.t → float)
    (m : gmap string Stats.t) (pa : Portfolio * option Asset)
    : option (WalletAsset.t float) :=
  (λ asset,
     WalletAsset.mk float (ticker asset) (name asset)
       (to_float (quantity pa.1)) (to_float (current_price asset))
       (to_float (quantity pa.1 * current_price asset)%D)
       (to_float (match m !! ticker asset with
                  | Some stats => Stats.avg_price stats
                  | None => Decimal.of_Z 0
                  end))
       (is_active asset))
  <$> pa.2.

(** A user holding 3 BTC whose two purchases are stored out of order. *)
Definition st_ledger : Store :=
  mkStore {[ 1 := alice ]} {[ 7 := btc ]} {[ (1, 7) := D 3 0 ]}
    [buy_1_at_200; buy_2_at_100] [].

(** The same user after selling all 3 BTC. *)
Definition st_sold_out : Store :=
  mkStore {[ 1 := alice ]} {[ 7 := btc ]} {[ (1, 7) := D 0 0 ]}
    [buy_2_at_100; buy_1_at_200; sell_3_at_500] [].

(** ** Broadcaster vocabulary *)

(** The peer takes the message. *)
Definition delivers {Message : Type}
    (send_json : ConnectionManager.WebSocket → Message → result unit)
    (message : Message) (c : ConnectionManager.WebSocket) : bool :=
  match send_json c message with
  | Ok _ => true
  | Raise _ => false
  end.

(** The send to the peer raises an exception that [except Exception:]
    does not catch. *)
Definition cancels {Message : Type}
    (send_json : ConnectionManager.WebSocket → Message → result unit)
    (message : Message) (c : ConnectionManager.WebSocket) : bool :=
  match send_json c message with
  | Ok _ => false
  | Raise e => negb (is_Exception e)
  end.

(** Three subscribers; the second one is gone. *)
Definition send_json_2_fails (c : ConnectionManager.WebSocket) (_ : string)
    : result unit :=
  if decide (c = 2%nat) then Raise AttributeError else Ok tt.

(** Three subscribers; the task is cancelled during the send to the
    second one. *)
Definition send_json_2_cancelled (c : ConnectionManager.WebSocket)
    (_ : string) : result unit :=
  if decide (c = 2%nat) then Raise CancelledError else Ok tt.

(** ** Market synchronisation vocabulary *)

(** The filter [s and s.isupper() and s.isalnum()] of
    [_fetch_live_prices]. *)
Definition feed_symbol_valid (s : string) : Prop :=
  negb (String.eqb s "") && isupper s && isalnum s = true.

#[global] Instance feed_symbol_valid_dec (s : string)
  : Decision (feed_symbol_valid s).
Proof. unfold feed_symbol_valid. apply _. Defined.

(** The [unique=True] constraint on [assets.ticker]. *)
Definition unique_tickers (db : Store) : Prop :=
  NoDup ((λ a : Z * Asset, ticker a.2) <$> AssetRepository.get_all db).

#[global] Instance unique_tickers_dec (db : Store) : Decision (unique_tickers db).
Proof. unfold unique_tickers. apply _. Defined.

(** The feed symbols a cycle asks for. *)
Definition requested_symbols (db : Store) : list string :=
  filter feed_symbol_valid
    ((λ a : Z * Asset, binance_symbol a.2) <$> AssetRepository.get_all_active db).

(** The assets of a list for which a price was fetched, with that price. *)
Definition price_updates {float : Type} (prices : gmap string float)
    (l : list (Z * Asset)) : list (Z * Asset * float) :=
  omap (λ a : Z * Asset, (λ p, (a, p)) <$> prices !! binance_symbol a.2) l.

(** What one successful cycle does to an asset row. *)
Definition apply_prices {float : Type} (decimal_of_str : float → Decimal.t)
    (prices : gmap string float) (a : Asset) : Asset :=
  if is_active a
  then match prices !! binance_symbol a with
       | Some p => set_current_price (decimal_of_str p) a
       | None => a
       end
  else a.

(** The effect of [_persist_asset_update] on the pending store. *)
Definition persist_one {float : Type} (decimal_of_str : float → Decimal.t)
    (st : Store) (u : Z * Asset * float) : Store :=
  set_price_history (λ l, l ++ [mkPriceHistory u.1.1 (decimal_of_str u.2)])
    (set_assets (alter (set_current_price (decimal_of_str u.2)) u.1.1) st).

(** Two active assets and an inactive one. *)
Definition eth : Asset := mkAsset "ETH" "Ethereum" "ETHUSDT" (D 3000 0) true.
Definition old : Asset := mkAsset "OLD" "Delisted" "OLDUSDT" (D 1 0) false.
Definition st_market : Store :=
  mkStore ∅ {[ 7 := btc; 8 := eth; 9 := old ]} ∅ [] [].

(** A store whose only active asset carries a lower-case feed symbol. *)
Definition st_invalid_symbol : Store :=
  mkStore ∅ {[ 7 := mkAsset "BTC" "Bitcoin" "btcusdt" (D 100 0) true ]} ∅ [] [].

(** Feeds: one that answers for BTC only, one that raises. *)
Definition feed_btc (_ : list string) : option (gmap string Decimal.t) :=
  Some {[ "BTCUSDT" := D 45000 0 ]}.
Definition feed_down (_ : list string) : option (gmap string Decimal.t) := None.

(** ** Constraints of the schema *)

(** The foreign keys of [portfolios], [transactions] and
    [price_history] (models/portfolio.py, transaction.py,
    price_history.py). *)
Definition referential_integrity (db : Store) : Prop :=
  map_Forall (λ (k : Z * Z) (_ : Decimal.t),
                is_Some (users db !! k.1) ∧ is_Some (assets db !! k.2))
    (portfolios db)
  ∧ Forall (λ tx, is_Some (users db !! tx_user_id tx)
                  ∧ is_Some (assets db !! tx_asset_id tx)) (transactions db)
  ∧ Forall (λ ph, is_Some (assets db !! ph_asset_id ph)) (price_history db).

#[global] Instance referential_integrity_dec (db : Store)
  : Decision (referential_integrity db).
Proof. unfold referential_integrity. apply _. Defined.

(** The [unique=True] constraint on [assets.binance_symbol]. *)
Definition unique_symbols (db : Store) : Prop :=
  NoDup ((λ a : Z * Asset, binance_symbol a.2) <$> AssetRepository.get_all db).

#[global] Instance unique_symbols_dec (db : Store) : Decision (unique_symbols db).
Proof. unfold unique_symbols. apply _. Defined.

(** ** Asset administration vocabulary *)

(** What [AssetService.delete] leaves in the store. *)
Definition delete_store (aid : Z) (db : Store) : Store :=
  mkStore (users db) (delete aid (assets db))
    (filter (λ kv : Z * Z * Decimal.t, kv.1.2 ≠ aid) (portfolios db))
    (filter (λ tx, tx_asset_id tx ≠ aid) (transactions db))
    (filter (λ ph, ph_asset_id ph ≠ aid) (price_history db)).

(** The normalisation of tickers and feed symbols in
    [AssetService.create]. *)
Definition normalise (s : string) : string := strip (upper s).

(** A store with price history and a second asset that nobody holds. *)
Definition st_history : Store :=
  mkStore {[ 1 := mkUser "carol" (D 1000 0); 2 := alice ]}
    {[ 7 := btc; 8 := eth ]}
    {[ (1, 7) := D 5 0; (2, 7) := D 3 0; (2, 8) := D 1 0 ]}
    [mkTransaction 1 7 (D 5 0) (D 90 0) "BUY" 1;
     mkTransaction 2 8 (D 1 0) (D 2900 0) "BUY" 2;
     mkTransaction 2 7 (D 3 0) (D 95 0) "BUY" 3]
    [mkPriceHistory 7 (D 99 0); mkPriceHistory 8 (D 2950 0);
     mkPriceHistory 7 (D 100 0)].

(** A feed that answers every request with a price for ETH. *)
Definition feed_eth (_ : list string) : option (gmap string Decimal.t) :=
  Some {[ "ETHUSDT" := D 3100 0 ]}.

(** Peers that all accept the handshake. *)
Definition accept_all (_ : ConnectionManager.WebSocket) : result unit := Ok tt.

(** ** Price synchronisation vocabulary *)

(** The columns of an asset row that no price update writes. *)
Definition static_columns (a : Asset) : string * string * string * bool :=
  (ticker a, name a, binance_symbol a, is_active a).

(** [db'] differs from [db] in current prices and in appended price
    history rows of existing assets only. *)
Definition prices_only (db db' : Store) : Prop :=
  users db' = users db
  ∧ portfolios db' = portfolios db
  ∧ transactions db' = transactions db
  ∧ (∀ aid, static_columns <$> assets db' !! aid
            = static_columns <$> assets db !! aid)
  ∧ ∃ new, price_history db' = price_history db ++ new
           ∧ Forall (λ ph, is_Some (assets db !! ph_asset_id ph)) new.

(** A character of a feed symbol: a capital letter or a digit. *)
Definition upper_or_digit (c : ascii) : Prop :=
  is_upper_char c || is_digit_char c = true.

(** A list of characters that does not start with white space. *)
Definition starts_clean (l : list ascii) : Prop :=
  match l with
  | [] => True
  | c :: _ => is_space_char c = false
  end.

(** The row that [AssetService.update] leaves for an asset [a]:
    [initial_price] is the result of [_fetch_initial_price] for the new
    feed symbol. *)
Definition updated_asset (initial_price : string → option Decimal.t)
    (data : AssetUpdate.t) (a : Asset) : Asset :=
  let a1 := match AssetUpdate.name data with
            | Some n => set_name n a
            | None => a
            end in
  let a2 := match AssetUpdate.binance_symbol data with
            | Some s =>
                let a2 := set_binance_symbol (normalise s) a1 in
                match AssetService.truthy (initial_price (normalise s)) with
                | Some p => set_current_price p a2
                | None => a2
                end
            | None => a1
            end in
  match AssetUpdate.is_active data with
  | Some b => set_is_active b a2
  | None => a2
  end.

(** ** The system, one request at a time

    Every request is served on a session of its own ([get_db]); what it
    commits is the store the next request finds. *)

(** A feed all of whose prices convert to non-negative Decimals. *)
Definition feed_nonneg {float : Type} (decimal_of_str : float → Decimal.t)
    (get_prices : list string → option (gmap string float)) : Prop :=
  ∀ syms prices sym p,
    get_prices syms = Some prices → prices !! sym = Some p →
    Decimal.nonneg (decimal_of_str p).

Inductive Request (float : Type) : Type :=
| Trade (now uid : Z) (trade_data : TradeRequest.t) (trade_type : string)
| ResetAccount (uid : Z)
| PriceCycle (get_prices : list string → option (gmap string float))
| CreateAsset (binance_client : option (list string → option (gmap string float)))
    (new_id : Z) (data : AssetCreate.t)
| UpdateAsset (binance_client : option (list string → option (gmap string float)))
    (aid : Z) (data : AssetUpdate.t)
| ToggleActive (aid : Z)
| DeleteAsset (aid : Z).
Arguments Trade {float} now uid trade_data trade_type.
Arguments ResetAccount {float} uid.
Arguments PriceCycle {float} get_prices.
Arguments CreateAsset {float} binance_client new_id data.
Arguments UpdateAsset {float} binance_client aid data.
Arguments ToggleActive {float} aid.
Arguments DeleteAsset {float} aid.

(** The store that a request leaves committed. *)
Definition serve {float : Type} (to_float : Decimal.t → float)
    (decimal_of_str : float → Decimal.t) (r : Request float) (db : Store)
    : Store :=
  match r with
  | Trade now uid trade_data trade_type =>
      committed (TradeService.execute_trade now uid trade_data trade_type
                   (open_session db)).2
  | ResetAccount uid =>
      committed (TradeService.reset_account to_float uid (open_session db)).2
  | PriceCycle get_prices =>
      MarketService.db
        (MarketService._update_prices decimal_of_str get_prices
           (MarketService.mkWorld db []))
  | CreateAsset binance_client new_id data =>
      committed (AssetService.create decimal_of_str binance_client new_id data
                   (open_session db)).2
  | UpdateAsset binance_client aid data =>
      committed (AssetService.update decimal_of_str binance_client aid data
                   (open_session db)).2
  | ToggleActive aid =>
      committed (AssetService.toggle_active aid (open_session db)).2
  | DeleteAsset aid =>
      committed (AssetService.delete aid (open_session db)).2
  end.

Definition serve_all {float : Type} (to_float : Decimal.t → float)
    (decimal_of_str : float → Decimal.t) (rs : list (Request float))
    (db : Store) : Store :=
  foldl (λ db r, serve to_float decimal_of_str r db) db rs.

(** What the request schemas, the database and the feed guarantee about
    a request: a trade amount is positive ([gt=0]), a new row gets an id
    that is not in use, and the prices obtained from the feed are not
    negative. *)
Definition admissible {float : Type} (decimal_of_str : float → Decimal.t)
    (r : Request float) (db : Store) : Prop :=
  match r with
  | Trade _ _ trade_data _ => Decimal.pos (TradeRequest.amount trade_data)
  | PriceCycle get_prices => feed_nonneg decimal_of_str get_prices
  | CreateAsset binance_client new_id _ =>
      assets db !! new_id = None
      ∧ ∀ get_prices, binance_client = Some get_prices →
                      feed_nonneg decimal_of_str get_prices
  | UpdateAsset binance_client _ _ =>
      ∀ get_prices, binance_client = Some get_prices →
                    feed_nonneg decimal_of_str get_prices
  | ResetAccount _ | ToggleActive _ | DeleteAsset _ => True
  end.

Fixpoint admissible_run {float : Type} (to_float : Decimal.t → float)
    (decimal_of_str : float → Decimal.t) (rs : list (Request float))
    (db : Store) : Prop :=
  match rs with
  | [] => True
  | r :: rs' =>
      admissible decimal_of_str r db
      ∧ admissible_run to_float decimal_of_str rs'
          (serve to_float decimal_of_str r db)
  end.

(** The constraints of the schema together with the account and the
    asset invariant. *)
Definition system_inv (db : Store) : Prop :=
  referential_integrity db ∧ unique_tickers db ∧ unique_symbols db
  ∧ store_inv db ∧ prices_nonneg db.

#[global] Instance system_inv_dec (db : Store) : Decision (system_inv db).
Proof. unfold system_inv. apply _. Defined.
(** * Properties *)

(** ** Running the session monad *)

Ltac run_session :=
  cbv [mbind M_bind mret M_ret read write raise commit] in *;
  cbn [pending committed open_session TradeRequest.asset_ticker
       TradeRequest.amount asset_id fst snd quantity p_user_id p_asset_id] in *.

(** ** Decimal arithmetic: digits, rounding and signs *)

Section DecimalFacts.
Import Decimal.

Lemma ndigits_aux_pos (fuel : nat) (n : Z) : 1 <= ndigits_aux fuel n.
Proof.
  revert n. induction fuel as [|fuel IH]; intros n; cbn [ndigits_aux]; [lia|].
  destruct (n <? 10); [lia|]. specialize (IH (n / 10)). lia.
Qed.

Lemma ndigits_aux_lower (fuel : nat) (n : Z) :
  1 <= n → 10 ^ (ndigits_aux fuel n - 1) <= n.
Proof.
  revert n. induction fuel as [|fuel IH]; intros n Hn; cbn [ndigits_aux].
  - change (10 ^ (1 - 1)) with 1. lia.
  - destruct (Z.ltb_spec n 10) as [Hlt|Hge].
    + change (10 ^ (1 - 1)) with 1. lia.
    + assert (H1 : 1 <= n / 10) by (apply Z.div_le_lower_bound; lia).
      specialize (IH _ H1).
      pose proof (ndigits_aux_pos fuel (n / 10)) as Hpos.
      replace (1 + ndigits_aux fuel (n / 10) - 1)
        with (Z.succ (ndigits_aux fuel (n / 10) - 1)) by lia.
      rewrite Z.pow_succ_r by lia.
      pose proof (Z.mul_div_le n 10 ltac:(lia)). lia.
Qed.

Lemma ndigits_aux_upper (fuel : nat) (n k : Z) :
  1 <= k → n < 10 ^ k → ndigits_aux fuel n <= k.
Proof.
  revert n k. induction fuel as [|fuel IH]; intros n k Hk Hn;
    cbn [ndigits_aux]; [lia|].
  destruct (Z.ltb_spec n 10) as [Hlt|Hge]; [lia|].
  assert (Hk2 : 2 <= k).
  { destruct (Z.eq_dec k 1) as [->|]; [change (10 ^ 1) with 10 in Hn|]; lia. }
  assert (n / 10 < 10 ^ (k - 1)).
  { apply Z.div_lt_upper_bound; [lia|].
    replace k with (Z.succ (k - 1)) in Hn by lia.
    rewrite Z.pow_succ_r in Hn by lia. exact Hn. }
  specialize (IH (n / 10) (k - 1) ltac:(lia) ltac:(assumption)). lia.
Qed.

Lemma ndigits_aux_exact (fuel : nat) (n : Z) :
  0 <= n → n < 10 ^ (Z.of_nat fuel + 1) → n < 10 ^ ndigits_aux fuel n.
Proof.
  revert n. induction fuel as [|fuel IH]; intros n H0 Hn; cbn [ndigits_aux].
  - exact Hn.
  - destruct (Z.ltb_spec n 10) as [Hlt|Hge]; [exact Hlt|].
    pose proof (ndigits_aux_pos fuel (n / 10)) as Hp.
    assert (Hq : n / 10 < 10 ^ (Z.of_nat fuel + 1)).
    { apply Z.div_lt_upper_bound; [lia|].
      rewrite <- Z.pow_succ_r by lia.
      replace (Z.succ (Z.of_nat fuel + 1)) with (Z.of_nat (S fuel) + 1) by lia.
      exact Hn. }
    specialize (IH (n / 10) ltac:(apply Z.div_pos; lia) Hq).
    replace (1 + ndigits_aux fuel (n / 10))
      with (Z.succ (ndigits_aux fuel (n / 10))) by lia.
    rewrite Z.pow_succ_r by lia.
    pose proof (Z.div_mod n 10 ltac:(lia)).
    pose proof (Z.mod_pos_bound n 10 ltac:(lia)). lia.
Qed.

(** [ndigits] is the true length of the decimal expansion. *)
Lemma ndigits_exact (n : Z) : Z.abs n < 10 ^ ndigits n.
Proof.
  unfold ndigits. apply ndigits_aux_exact; [lia|].
  rewrite Z2Nat.id by apply Z.log2_nonneg.
  destruct (Z.eq_dec (Z.abs n) 0) as [->|Hne]; [reflexivity|].
  pose proof (Z.log2_spec (Z.abs n) ltac:(lia)) as [_ Hlt].
  eapply Z.lt_le_trans; [exact Hlt|].
  replace (Z.succ (Z.log2 (Z.abs n))) with (Z.log2 (Z.abs n) + 1) by lia.
  apply Z.pow_le_mono_l. pose proof (Z.log2_nonneg (Z.abs n)). lia.
Qed.

Lemma ndigits_lower (n : Z) : n ≠ 0 → 10 ^ (ndigits n - 1) <= Z.abs n.
Proof. intros Hn. unfold ndigits. apply ndigits_aux_lower. lia. Qed.

Lemma ndigits_upper (n k : Z) : 1 <= k → Z.abs n < 10 ^ k → ndigits n <= k.
Proof. intros Hk Hn. unfold ndigits. by apply ndigits_aux_upper. Qed.

Lemma round_half_even_bounds (n d : Z) :
  0 <= n → n / 10 ^ d <= round_half_even n d <= n / 10 ^ d + 1.
Proof.
  intros Hn. unfold round_half_even.
  destruct (_ || _); lia.
Qed.

(** The long branch of [fix_]: what is kept of a coefficient with more
    than [prec] digits. *)
Lemma kept_digits_bounds (n : Z) :
  0 <= n → prec < ndigits n →
  10 ^ (prec - 1) <= n / 10 ^ (ndigits n - prec) < 10 ^ prec.
Proof.
  intros Hn Hlen.
  assert (Hne : n ≠ 0) by (intros ->; vm_compute in Hlen; discriminate).
  pose proof (ndigits_lower n Hne) as Hlo.
  pose proof (ndigits_exact n) as Hhi.
  rewrite Z.abs_eq in Hlo, Hhi by lia.
  set (d := ndigits n - prec) in *.
  assert (Hd : 0 < d) by (unfold d; lia).
  assert (Hpd : 0 < 10 ^ d) by (apply Z.pow_pos_nonneg; lia).
  unfold prec in *.
  replace (ndigits n - 1) with (d + 27) in Hlo by (unfold d; lia).
  replace (ndigits n) with (d + 28) in Hhi by (unfold d; lia).
  rewrite Z.pow_add_r in Hlo, Hhi by lia.
  split.
  - apply Z.div_le_lower_bound; [lia|]. change (28 - 1) with 27. lia.
  - apply Z.div_lt_upper_bound; lia.
Qed.

Lemma abs_sgn_mul (c m : Z) : c ≠ 0 → 0 <= m → Z.abs (Z.sgn c * m) = m.
Proof. intros Hc Hm. destruct c; cbn; lia. Qed.

(** A result of [fix_] fits the context precision. *)
Lemma fix_digits (x : t) : ndigits (coef (fix_ x)) <= prec.
Proof.
  unfold fix_.
  destruct (Z.leb_spec (ndigits (Z.abs (coef x))) prec) as [Hle|Hgt].
  - unfold ndigits in *. rewrite Z.abs_idemp in Hle. exact Hle.
  - pose proof (kept_digits_bounds (Z.abs (coef x)) ltac:(lia) Hgt) as [Hlo Hhi].
    pose proof (round_half_even_bounds (Z.abs (coef x))
                  (ndigits (Z.abs (coef x)) - prec) ltac:(lia)) as [Hq1 Hq2].
    assert (Hc : coef x ≠ 0).
    { intros Hc. rewrite Hc in Hgt. vm_compute in Hgt. discriminate. }
    assert (H27 : 0 < 10 ^ (prec - 1)) by (apply Z.pow_pos_nonneg; unfold prec; lia).
    set (q := round_half_even _ _) in *.
    destruct (Z.ltb_spec prec (ndigits q)) as [Hcarry|Hfit]; cbn [coef].
    + apply ndigits_upper; [unfold prec; lia|].
      rewrite abs_sgn_mul by (try apply Z.div_pos; lia).
      apply Z.div_lt_upper_bound; [lia|].
      change (10 ^ prec) with (10 * 10 ^ (prec - 1)) in *. lia.
    + unfold ndigits in *. rewrite abs_sgn_mul by lia.
      rewrite Z.abs_eq in Hfit by lia. exact Hfit.
Qed.

Lemma fix_id (x : t) : ndigits (coef x) <= prec → fix_ x = x.
Proof.
  intros H. unfold fix_.
  replace (ndigits (Z.abs (coef x))) with (ndigits (coef x))
    by (unfold ndigits; by rewrite Z.abs_idemp).
  destruct (Z.leb_spec (ndigits (coef x)) prec); [reflexivity|lia].
Qed.

Lemma fix_idem (x : t) : fix_ (fix_ x) = fix_ x.
Proof. apply fix_id, fix_digits. Qed.

(** Rounding keeps the sign. *)
Lemma fix_nonneg (x : t) : nonneg x → nonneg (fix_ x).
Proof.
  unfold nonneg, fix_. intros Hx.
  destruct (_ <=? prec); [exact Hx|].
  pose proof (round_half_even_bounds (Z.abs (coef x))
                (ndigits (Z.abs (coef x)) - prec) ltac:(lia)) as [Hq1 _].
  assert (0 <= Z.abs (coef x) / 10 ^ (ndigits (Z.abs (coef x)) - prec))
    by (apply Z_div_nonneg_nonneg; [lia|apply Z.pow_nonneg; lia]).
  set (q := round_half_even _ _) in *.
  assert (0 <= q / 10) by (apply Z.div_pos; lia).
  destruct (prec <? ndigits q); cbn [coef]; nia.
Qed.

Lemma fix_pos (x : t) : pos x → pos (fix_ x).
Proof.
  unfold pos, fix_. intros Hx.
  destruct (Z.leb_spec (ndigits (Z.abs (coef x))) prec) as [Hle|Hgt];
    [exact Hx|].
  pose proof (kept_digits_bounds (Z.abs (coef x)) ltac:(lia) Hgt) as [Hlo Hhi].
  pose proof (round_half_even_bounds (Z.abs (coef x))
                (ndigits (Z.abs (coef x)) - prec) ltac:(lia)) as [Hq1 Hq2].
  change (10 ^ (prec - 1)) with 1000000000000000000000000000 in Hlo.
  set (q := round_half_even _ _) in *.
  assert (1 <= q / 10) by (apply Z.div_le_lower_bound; lia).
  rewrite Z.sgn_pos by lia.
  destruct (prec <? ndigits q); cbn [coef]; lia.
Qed.

(** An operation is exact whenever its exact result fits the precision. *)
Lemma add_exact (x y : t) :
  let e := Z.min (exp x) (exp y) in
  ndigits (scaled e x + scaled e y) <= prec →
  (x + y)%D = mk (scaled e x + scaled e y) e.
Proof. intros e H. unfold add. by apply fix_id. Qed.

Lemma mul_exact (x y : t) :
  ndigits (coef x * coef y) <= prec →
  (x * y)%D = mk (coef x * coef y) (exp x + exp y).
Proof. intros H. unfold mul. by apply fix_id. Qed.

Lemma mul_digits (x y : t) : ndigits (coef (x * y)%D) <= prec.
Proof. apply fix_digits. Qed.

Lemma neg_fixed (x : t) : ndigits (coef x) <= prec → (- x)%D = copy_negate x.
Proof.
  intros H. unfold neg. apply fix_id. cbn [copy_negate coef].
  unfold ndigits in *. by rewrite Z.abs_opp.
Qed.

(** [x + (-y)] is [x - y] for every [y] that came out of an operation. *)
Lemma add_neg_sub (x y : t) :
  ndigits (coef y) <= prec → (x + - y)%D = (x - y)%D.
Proof. intros H. unfold sub. by rewrite neg_fixed. Qed.

Lemma add_neg_mul (x p a : t) : (x + - (p * a))%D = (x - p * a)%D.
Proof. apply add_neg_sub, mul_digits. Qed.

Lemma leb_ltb (x y : t) : (x <=? y)%D = negb (y <? x)%D.
Proof.
  unfold leb, ltb, compare. rewrite (Z.min_comm (exp y) (exp x)).
  rewrite (Z.compare_antisym (scaled _ x) (scaled _ y)).
  by destruct (scaled _ x ?= scaled _ y).
Qed.

Lemma pow10_pos (k : Z) : 0 <= k → 0 < 10 ^ k.
Proof. intros. apply Z.pow_pos_nonneg; lia. Qed.

Lemma add_nonneg (x y : t) : nonneg x → nonneg y → nonneg (x + y)%D.
Proof.
  intros Hx Hy. apply fix_nonneg. unfold nonneg, scaled in *. cbn [coef].
  pose proof (pow10_pos (exp x - Z.min (exp x) (exp y)) ltac:(lia)).
  pose proof (pow10_pos (exp y - Z.min (exp x) (exp y)) ltac:(lia)). nia.
Qed.

Lemma add_pos (x y : t) : nonneg x → pos y → pos (x + y)%D.
Proof.
  intros Hx Hy. apply fix_pos. unfold nonneg, pos, scaled in *. cbn [coef].
  pose proof (pow10_pos (exp x - Z.min (exp x) (exp y)) ltac:(lia)).
  pose proof (pow10_pos (exp y - Z.min (exp x) (exp y)) ltac:(lia)). nia.
Qed.

Lemma mul_nonneg (x y : t) : nonneg x → nonneg y → nonneg (x * y)%D.
Proof.
  intros Hx Hy. apply fix_nonneg. unfold nonneg in *. cbn [coef]. nia.
Qed.

(** A difference is non-negative exactly when the test [x < y] fails. *)
Lemma sub_nonneg (x y : t) : (x <? y)%D = false → nonneg (x - y)%D.
Proof.
  unfold ltb, compare, sub, add. intros H. apply fix_nonneg.
  unfold nonneg, scaled in *. cbn [coef exp copy_negate].
  destruct (Z.compare_spec (coef x * 10 ^ (exp x - Z.min (exp x) (exp y)))
              (coef y * 10 ^ (exp y - Z.min (exp x) (exp y))));
    try discriminate; lia.
Qed.

Lemma ltb_zero (x : t) : (of_Z 0 <? x)%D = true ↔ pos x.
Proof.
  unfold ltb, compare, pos, scaled, of_Z. cbn [coef exp].
  pose proof (pow10_pos (exp x - Z.min 0 (exp x)) ltac:(lia)).
  rewrite Z.mul_0_l.
  destruct (Z.compare_spec 0 (coef x * 10 ^ (exp x - Z.min 0 (exp x))));
    split; intros; try discriminate; try reflexivity; nia.
Qed.

Lemma leb_zero (x : t) : (x <=? of_Z 0)%D = false ↔ pos x.
Proof.
  rewrite leb_ltb, negb_false_iff. apply ltb_zero.
Qed.

Lemma div_is_Some (x y : t) : coef y ≠ 0 → is_Some (div x y).
Proof.
  intros Hy. unfold div.
  destruct (Z.eqb_spec (coef y) 0); [done|].
  destruct (coef x =? 0); [by eexists|].
  destruct (_ mod _ =? 0); [|by eexists].
  destruct (strip_zeros _ _ _ _). by eexists.
Qed.

End DecimalFacts.

(** Values of the Python interpreter:
    [Decimal(400) / Decimal(3)], [Decimal(2) / Decimal(3)],
    [Decimal(1) / Decimal(8)], [Decimal("100000.00") / Decimal("2.5")],
    [Decimal("100000.00") - Decimal(100) * Decimal(1)] and a sum that
    needs 29 digits. *)
Example div_400_3 :
  Decimal.div (D 400 0) (D 3 0) = Some (D 1333333333333333333333333333 (-25)).
Proof. reflexivity. Qed.

Example div_2_3 :
  Decimal.div (D 2 0) (D 3 0) = Some (D 6666666666666666666666666667 (-28)).
Proof. reflexivity. Qed.

Example div_1_8 : Decimal.div (D 1 0) (D 8 0) = Some (D 125 (-3)).
Proof. reflexivity. Qed.

Example div_exact_ideal_exponent :
  Decimal.div (D 10000000 (-2)) (D 25 (-1)) = Some (D 400000 (-1)).
Proof. reflexivity. Qed.

Example div_by_zero : Decimal.div (D 1 0) (D 0 0) = None.
Proof. reflexivity. Qed.

Example sub_initial_balance :
  (D 10000000 (-2) - D 100 0 * D 1 0)%D = D 9990000 (-2).
Proof. reflexivity. Qed.

Example add_rounds_half_even :
  (D 12345678901234567890123456785 0 + D 0 0)%D
  = D 1234567890123456789012345678 1.
Proof. reflexivity. Qed.

Example compare_ignores_exponent :
  Decimal.compare (D 10000000 (-2)) (D 1 5) = Eq.
Proof. reflexivity. Qed.

(** [str.isupper] and [str.isalnum] on feed symbols. *)
Example symbol_checks :
  (isupper "BTCUSDT" && isalnum "BTCUSDT" = true)
  ∧ isupper "btcusdt" = false
  ∧ isalnum "BTC-USD" = false
  ∧ isupper "123" = false
  ∧ isalnum "" = false
  ∧ (isupper "1INCHUSDT" && isalnum "1INCHUSDT" = true).
Proof. repeat split; reflexivity. Qed.

(** The sort keeps the order of entries with equal keys. *)
Example sort_by_stable :
  sort_by fst [(2, "a"); (1, "b"); (2, "c"); (1, "d")]
  = [(1, "b"); (1, "d"); (2, "a"); (2, "c")].
Proof. reflexivity. Qed.


(** ** Column coercion and the flush *)

Section Storage.
Import Decimal.

Lemma to_numeric_fits (scale : Z) (x : t) :
  - scale <= exp x → to_numeric scale x = x.
Proof.
  intros H. unfold to_numeric.
  by destruct (Z.leb_spec (- scale) (exp x)); [|lia].
Qed.

Lemma to_numeric_exp (scale : Z) (x : t) : - scale <= exp (to_numeric scale x).
Proof.
  unfold to_numeric. destruct (Z.leb_spec (- scale) (exp x)); cbn; lia.
Qed.


Lemma to_numeric_idem (scale : Z) (x : t) :
  to_numeric scale (to_numeric scale x) = to_numeric scale x.
Proof. apply to_numeric_fits, to_numeric_exp. Qed.

Lemma to_numeric_nonneg (scale : Z) (x : t) :
  nonneg x → nonneg (to_numeric scale x).
Proof.
  unfold nonneg, to_numeric. intros Hx.
  destruct (Z.leb_spec (- scale) (exp x)); [done|]. cbn.
  assert (0 <= Z.abs (coef x) / 10 ^ (- scale - exp x))
    by (apply Z.div_pos; [lia|apply pow10_pos; lia]).
  destruct (_ <=? _); nia.
Qed.






End Storage.

Lemma stored_user_same (u : User) : stored_user (Some u) u = u.
Proof. unfold stored_user. by rewrite decide_True. Qed.

Lemma stored_user_fits (old : option User) (u : User) :
  -2 <= Decimal.exp (balance u) → stored_user old u = u.
Proof.
  intros H. unfold stored_user. destruct (decide _); [done|].
  rewrite to_numeric_fits by lia. by destruct u.
Qed.


Lemma stored_user_nonneg (old : option User) (u : User) :
  Decimal.nonneg (balance u) → Decimal.nonneg (balance (stored_user old u)).
Proof.
  intros H. unfold stored_user. destruct (decide _); [done|].
  cbn. by apply to_numeric_nonneg.
Qed.


Lemma stored_user_username (old : option User) (u : User) :
  username (stored_user old u) = username u.
Proof. unfold stored_user. by destruct (decide _). Qed.

Lemma flush_users (old new : Store) (uid : Z) :
  users (flush old new) !! uid
  = stored_user (users old !! uid) <$> users new !! uid.
Proof.
  unfold flush. cbn [set_users users]. rewrite map_lookup_imap.
  by destruct (users new !! uid).
Qed.

(** A session that has not changed a user row commits what is pending. *)
Lemma flush_same (old new : Store) : users new = users old → flush old new = new.
Proof.
  intros Heq. destruct new as [us As ps ts hs]. unfold flush, set_users.
  cbn in *. f_equal. apply map_eq. intros uid. rewrite map_lookup_imap.
  subst us. destruct (users old !! uid) as [u|]; cbn; [|done].
  by rewrite stored_user_same.
Qed.

(** A session that has changed the row of one user. *)
Lemma flush_alter (old new : Store) (f : User → User) (uid : Z) :
  users new = alter f uid (users old) →
  flush old new
  = set_users (λ _, alter (λ u, stored_user (Some u) (f u)) uid (users old)) new.
Proof.
  intros Heq. destruct new as [us As ps ts hs]. unfold flush, set_users.
  cbn in *. f_equal. apply map_eq. intros i. rewrite map_lookup_imap.
  subst us. destruct (decide (uid = i)) as [<-|Hne].
  - rewrite !lookup_alter_eq. by destruct (users old !! uid).
  - rewrite !lookup_alter_ne by done.
    destruct (users old !! i) as [u|]; cbn; [|done].
    by rewrite stored_user_same.
Qed.

(** A balance of at most two decimals is committed as assigned. *)
Lemma flush_alter_fits (old new : Store) (f : User → User) (uid : Z) :
  users new = alter f uid (users old) →
  (∀ u, -2 <= Decimal.exp (balance (f u))) →
  flush old new = new.
Proof.
  intros Heq Hfit. rewrite (flush_alter old new f uid Heq).
  destruct new as [us As ps ts hs]. unfold set_users. cbn in *. f_equal.
  subst us. apply map_eq. intros i. destruct (decide (uid = i)) as [<-|Hne].
  - rewrite !lookup_alter_eq. destruct (users old !! uid) as [u|]; cbn; [|done].
    by rewrite stored_user_fits.
  - by rewrite !lookup_alter_ne.
Qed.
(** ** TradeService.execute_trade *)

Ltac unfold_trade :=
  unfold TradeService.execute_trade, TradeService._get_valid_resources,
    TradeService._process_buy, TradeService._process_sell,
    AssetRepository.get_by_ticker, UserRepository.get_by_id,
    UserRepository.update_balance, PortfolioRepository.get_by_user_and_asset,
    PortfolioRepository.update_quantity, PortfolioRepository.create,
    TransactionRepository.create in *.

Lemma execute_trade_buy_run (db : Store) (now uid aid : Z) (user : User)
    (asset : Asset) (t : string) (amt : Decimal.t) :
  users db !! uid = Some user →
  AssetRepository.get_by_ticker t (open_session db)
    = (Ok (Some (aid, asset)), open_session db) →
  (balance user <? current_price asset * amt)%D = false →
  TradeService.execute_trade now uid (TradeRequest.mk t amt) "BUY"
    (open_session db)
  = (Ok (mkTransaction uid aid amt (current_price asset) "BUY" now,
         ticker asset),
     mkSession (buy_store now uid aid asset amt db)
               (buy_store now uid aid asset amt db)).
Proof.
  intros Hu Ha Hb. unfold_trade. run_session. rewrite Hu, Ha. run_session.
  rewrite Hb. unfold buy_store.
  destruct (portfolios db !! (uid, aid)) as [q|] eqn:Hq; cbn;
    by erewrite flush_alter by reflexivity.
Qed.

Lemma execute_trade_sell_run (db : Store) (now uid aid : Z) (user : User)
    (asset : Asset) (t : string) (amt q : Decimal.t) :
  users db !! uid = Some user →
  AssetRepository.get_by_ticker t (open_session db)
    = (Ok (Some (aid, asset)), open_session db) →
  portfolios db !! (uid, aid) = Some q →
  (q <? amt)%D = false →
  TradeService.execute_trade now uid (TradeRequest.mk t amt) "SELL"
    (open_session db)
  = (Ok (mkTransaction uid aid amt (current_price asset) "SELL" now,
         ticker asset),
     mkSession (sell_store now uid aid asset amt db)
               (sell_store now uid aid asset amt db)).
Proof.
  intros Hu Ha Hq Hb. unfold_trade. run_session. rewrite Hu, Ha. run_session.
  rewrite Hq. cbn. rewrite Hb. cbn.
  by erewrite flush_alter by reflexivity.
Qed.

(** How [get_by_ticker] finds an asset. *)
Lemma get_by_ticker_Some (db : Store) (t : string) (a : Z * Asset) (s s' : Session) :
  pending s = db →
  AssetRepository.get_by_ticker t s = (Ok (Some a), s') →
  assets db !! a.1 = Some a.2 ∧ ticker a.2 = t ∧ s' = s.
Proof.
  intros <- H. unfold AssetRepository.get_by_ticker in H. run_session.
  destruct (filter _ _) as [|r [|r' rows]] eqn:Hf; cbn in H; try discriminate.
  injection H as Hr Hs. subst r s'.
  assert (Hin : a ∈ filter (λ a0 : Z * Asset, ticker a0.2 = t)
                  (AssetRepository.get_all (pending s)))
    by (rewrite Hf; apply list_elem_of_here).
  apply list_elem_of_filter in Hin as [Ht Hin].
  unfold AssetRepository.get_all in Hin. destruct a as [aid asset].
  apply elem_of_map_to_list in Hin. done.
Qed.







(** ** The account invariant and [reset_account] *)

Lemma execute_trade_raise (s s' : Session) (now uid : Z)
    (trade_data : TradeRequest.t) (trade_type : string) (e : exn) :
  TradeService.execute_trade now uid trade_data trade_type s = (Raise e, s') →
  s' = s.
Proof.
  unfold_trade. run_session. intros H.
  destruct (users (pending s) !! uid) as [user|];
    (destruct (filter _ _) as [|[aid asset] [|r' rows]]; cbn in H;
     [by injection H| |by injection H]);
    [|by injection H].
  destruct (String.eqb trade_type "BUY").
  - destruct (_ <? _)%D; [by injection H|].
    destruct (portfolios (pending s) !! (uid, aid)); cbn in H; discriminate.
  - destruct (String.eqb trade_type "SELL"); [|by injection H].
    destruct (portfolios (pending s) !! (uid, aid)) as [q|]; cbn in H;
      [|by injection H].
    destruct (q <? _)%D; [by injection H|discriminate].
Qed.

(** The rejections of [execute_trade] for an existing user and asset. *)
Lemma execute_trade_insufficient_funds (db : Store) (now uid aid : Z)
    (user : User) (asset : Asset) (t : string) (amt : Decimal.t) :
  users db !! uid = Some user →
  AssetRepository.get_by_ticker t (open_session db)
    = (Ok (Some (aid, asset)), open_session db) →
  (balance user <? current_price asset * amt)%D = true →
  TradeService.execute_trade now uid (TradeRequest.mk t amt) "BUY"
    (open_session db)
  = (Raise (HTTPException 400
              (InsufficientFunds (balance user) (current_price asset * amt)%D)),
     open_session db).
Proof.
  intros Hu Ha Hb. unfold_trade. run_session. rewrite Hu, Ha. run_session.
  by rewrite Hb.
Qed.

Lemma execute_trade_invalid_type (db : Store) (now uid aid : Z)
    (user : User) (asset : Asset) (t : string) (amt : Decimal.t)
    (trade_type : string) :
  users db !! uid = Some user →
  AssetRepository.get_by_ticker t (open_session db)
    = (Ok (Some (aid, asset)), open_session db) →
  trade_type ≠ "BUY" → trade_type ≠ "SELL" →
  TradeService.execute_trade now uid (TradeRequest.mk t amt) trade_type
    (open_session db)
  = (Raise (HTTPException 400 InvalidTransactionType), open_session db).
Proof.
  intros Hu Ha Hbuy Hsell. unfold_trade. run_session. rewrite Hu, Ha.
  run_session.
  apply String.eqb_neq in Hbuy, Hsell. by rewrite Hbuy, Hsell.
Qed.

Lemma execute_trade_user_missing (db : Store) (now uid : Z)
    (trade_data : TradeRequest.t) (trade_type : string)
    (asset : option (Z * Asset)) :
  users db !! uid = None →
  AssetRepository.get_by_ticker (TradeRequest.asset_ticker trade_data)
    (open_session db) = (Ok asset, open_session db) →
  TradeService.execute_trade now uid trade_data trade_type (open_session db)
  = (Raise (HTTPException 404 UserNotFound), open_session db).
Proof.
  intros Hu Ha. unfold_trade. run_session. by rewrite Hu, Ha.
Qed.

(** The three ways a call of [execute_trade] on a fresh session ends. *)
Lemma execute_trade_cases (db : Store) (now uid : Z) (t : string)
    (amt : Decimal.t) (trade_type : string) (r : result (Transaction * string))
    (s' : Session) :
  TradeService.execute_trade now uid (TradeRequest.mk t amt) trade_type
    (open_session db) = (r, s') →
  s' = open_session db
  ∨ (∃ user aid asset,
        users db !! uid = Some user ∧ assets db !! aid = Some asset
        ∧ (balance user <? current_price asset * amt)%D = false
        ∧ s' = mkSession (buy_store now uid aid asset amt db)
                 (buy_store now uid aid asset amt db))
  ∨ (∃ user aid asset q,
        users db !! uid = Some user ∧ assets db !! aid = Some asset
        ∧ portfolios db !! (uid, aid) = Some q
        ∧ (q <? amt)%D = false
        ∧ s' = mkSession (sell_store now uid aid asset amt db)
                 (sell_store now uid aid asset amt db)).
Proof.
  intros H. destruct r as [tx|e];
    [|left; by apply execute_trade_raise in H].
  right.
  assert (∃ user a, users db !! uid = Some user
            ∧ AssetRepository.get_by_ticker t (open_session db)
              = (Ok (Some a), open_session db)) as (user & [aid asset] & Hu & Ha).
  { revert H. unfold_trade. run_session.
    destruct (users db !! uid) as [user|];
      destruct (filter _ _) as [|a [|r' rows]]; cbn; try discriminate.
    intros _. by exists user, a. }
  pose proof (get_by_ticker_Some db t (aid, asset) (open_session db) _
                eq_refl Ha) as (Hl & _ & _).
  cbn in Hl.
  destruct (String.eqb trade_type "BUY") eqn:Hty;
    [apply String.eqb_eq in Hty as ->|
     destruct (String.eqb trade_type "SELL") eqn:Hty';
     [apply String.eqb_eq in Hty' as ->|]].
  - left. exists user, aid, asset.
    destruct (balance user <? current_price asset * amt)%D eqn:Hb.
    + exfalso. revert H. unfold_trade. run_session. rewrite Hu, Ha.
      run_session. by rewrite Hb.
    + rewrite (execute_trade_buy_run db now uid aid user asset t amt Hu Ha Hb) in H.
      by injection H as _ <-.
  - right. exists user, aid, asset.
    destruct (portfolios db !! (uid, aid)) as [q|] eqn:Hq.
    + exists q. destruct (q <? amt)%D eqn:Hb.
      * exfalso. revert H. unfold_trade. run_session. rewrite Hu, Ha.
        run_session. rewrite Hq. cbn. by rewrite Hb.
      * rewrite (execute_trade_sell_run db now uid aid user asset t amt q
                   Hu Ha Hq Hb) in H.
        by injection H as _ <-.
    + exfalso. revert H. unfold_trade. run_session. rewrite Hu, Ha.
      run_session. by rewrite Hq.
  - exfalso. revert H. unfold_trade. run_session. rewrite Hu, Ha.
    run_session. by rewrite Hty, Hty'.
Qed.

Lemma buy_store_inv (db : Store) (now uid aid : Z) (user : User)
    (asset : Asset) (amt : Decimal.t) :
  store_inv db → users db !! uid = Some user → Decimal.pos amt →
  (balance user <? current_price asset * amt)%D = false →
  store_inv (buy_store now uid aid asset amt db).
Proof.
  intros [Hbal Hqty] Hu Hamt Hb. split; cbn [buy_store users portfolios].
  - intros i u Hl. rewrite lookup_alter in Hl. case_decide as Hi.
    + subst i. rewrite Hu in Hl. injection Hl as <-.
      apply stored_user_nonneg. cbn.
      rewrite add_neg_mul. by apply sub_nonneg.
    + by apply (Hbal i).
  - intros k q Hl. destruct (portfolios db !! (uid, aid)) as [q0|] eqn:Hq.
    + rewrite lookup_alter in Hl. case_decide as Hk.
      * subst k. rewrite Hq in Hl. injection Hl as <-.
        apply add_nonneg; [by apply (Hqty (uid, aid))|].
        unfold Decimal.nonneg, Decimal.pos in *. lia.
      * by apply (Hqty k).
    + rewrite lookup_insert in Hl. case_decide as Hk.
      * injection Hl as <-. unfold Decimal.nonneg, Decimal.pos in *. lia.
      * by apply (Hqty k).
Qed.

Lemma sell_store_inv (db : Store) (now uid aid : Z) (asset : Asset)
    (amt q : Decimal.t) :
  store_inv db → Decimal.nonneg (current_price asset) → Decimal.pos amt →
  portfolios db !! (uid, aid) = Some q → (q <? amt)%D = false →
  store_inv (sell_store now uid aid asset amt db).
Proof.
  intros [Hbal Hqty] Hp Hamt Hq Hb. split; cbn [sell_store users portfolios].
  - intros i u Hl. rewrite lookup_alter in Hl. case_decide as Hi.
    + destruct (users db !! uid) as [u0|] eqn:Hu; [|done].
      injection Hl as <-. apply stored_user_nonneg. cbn.
      apply add_nonneg; [by apply (Hbal uid)|].
      apply mul_nonneg; [done|]. unfold Decimal.nonneg, Decimal.pos in *. lia.
    + by apply (Hbal i).
  - intros k q' Hl. rewrite lookup_alter in Hl. case_decide as Hk.
    + subst k. rewrite Hq in Hl. injection Hl as <-. by apply sub_nonneg.
    + by apply (Hqty k).
Qed.

Lemma reset_store_inv (uid : Z) (db : Store) :
  store_inv db → store_inv (reset_store uid db).
Proof.
  intros [Hbal Hqty]. split; cbn [reset_store users portfolios].
  - intros i u Hl. rewrite lookup_alter in Hl. case_decide as Hi.
    + destruct (users db !! uid); [|done]. injection Hl as <-. by vm_compute.
    + by apply (Hbal i).
  - intros k q Hl. apply map_lookup_filter_Some in Hl as [Hl _].
    by apply (Hqty k).
Qed.

Lemma holdings_of_reset (uid : Z) (db : Store) :
  holdings_of uid (reset_store uid db) = ∅.
Proof.
  unfold holdings_of, reset_store; cbn [portfolios].
  apply map_empty. intros k. apply map_lookup_filter_None. right.
  intros q Hl Hk. by apply map_lookup_filter_Some in Hl as [_ Hne].
Qed.

Lemma ledger_of_reset (uid : Z) (db : Store) :
  ledger_of uid (reset_store uid db) = [].
Proof.
  unfold ledger_of, reset_store; cbn [transactions].
  induction (transactions db) as [|tx l IH]; [done|].
  rewrite (filter_cons _ tx l).
  destruct (decide (tx_user_id tx ≠ uid)) as [Hne|Heq]; [|done].
  rewrite filter_cons. by destruct (decide (tx_user_id tx = uid)).
Qed.

Lemma reset_store_idem (uid : Z) (db : Store) :
  reset_store uid (reset_store uid db) = reset_store uid db.
Proof.
  unfold reset_store; cbn [users assets portfolios transactions price_history].
  f_equal.
  - apply map_eq. intros i.
    destruct (decide (uid = i)) as [<-|Hne].
    + rewrite !lookup_alter_eq. by destruct (users db !! uid).
    + by rewrite !lookup_alter_ne.
  - rewrite map_filter_filter. apply map_filter_ext. intros; tauto.
  - rewrite list_filter_filter. apply list_filter_iff. intros; tauto.
Qed.

Section Reset.
Context {float : Type} (to_float : Decimal.t → float).

Ltac unfold_reset :=
  unfold TradeService.reset_account, UserRepository.get_by_id,
    PortfolioRepository.delete_user_portfolio,
    TransactionRepository.delete_user_transactions in *.

Lemma reset_account_run (db : Store) (uid : Z) (user : User) :
  users db !! uid = Some user →
  TradeService.reset_account to_float uid (open_session db)
  = (Ok (ResetReport.mk float true (size (holdings_of uid db))
           (length (ledger_of uid db))
           (to_float TradeService.INITIAL_BALANCE)),
     mkSession (reset_store uid db) (reset_store uid db)).
Proof.
  intros Hu. unfold_reset. run_session. rewrite Hu.
  by erewrite flush_alter_fits by (reflexivity || (intros; cbn; lia)).
Qed.

Lemma reset_account_missing (db : Store) (uid : Z) :
  users db !! uid = None →
  TradeService.reset_account to_float uid (open_session db)
  = (Raise (HTTPException 404 UserNotFound), open_session db).
Proof.
  intros Hu. unfold_reset. run_session. by rewrite Hu.
Qed.

Lemma reset_account_cases (db : Store) (uid : Z)
    (r : result (ResetReport.t float)) (s' : Session) :
  TradeService.reset_account to_float uid (open_session db) = (r, s') →
  s' = open_session db ∨ s' = mkSession (reset_store uid db) (reset_store uid db).
Proof.
  destruct (users db !! uid) as [user|] eqn:Hu.
  - rewrite (reset_account_run db uid user Hu). intros H.
    injection H as _ <-. by right.
  - rewrite (reset_account_missing db uid Hu). intros H.
    injection H as _ <-. by left.
Qed.

End Reset.

(** ** Examples of the trade claims *)



(** C3. Whatever makes [execute_trade] raise (user or asset missing,
    insufficient funds, insufficient holding, a trade type other than BUY
    and SELL, an ambiguous ticker), the session is left exactly as it was:
    neither the committed store nor the pending changes differ. *)
Theorem execute_trade_failure_no_change (s s' : Session) (now uid : Z)
    (trade_data : TradeRequest.t) (trade_type : string) (e : exn) :
  TradeService.execute_trade now uid trade_data trade_type s = (Raise e, s') →
  committed s' = committed s ∧ pending s' = pending s.
Proof. intros H. by apply execute_trade_raise in H as ->. Qed.

(** The example of the specification: a holding of 0.5, SELL 1 is
    rejected and nothing changes. *)
Lemma execute_trade_failure_no_change_witness :
  let run := TradeService.execute_trade 5 1 (TradeRequest.mk "BTC" (D 1 0))
               "SELL" (open_session st_poor) in
  run.1 = Raise (HTTPException 400 (InsufficientHolding "BTC" (D 5 (-1))))
  ∧ committed run.2 = st_poor ∧ pending run.2 = st_poor.
Proof.
  intros run. split; [vm_compute; reflexivity|].
  apply (execute_trade_failure_no_change (open_session st_poor) run.2 5 1
           (TradeRequest.mk "BTC" (D 1 0)) "SELL"
           (HTTPException 400 (InsufficientHolding "BTC" (D 5 (-1))))).
  vm_compute; reflexivity.
Defined.

(** C4, as stated, fails: with a negative stored price a SELL drives the
    balance below zero although balances and holdings were non-negative. *)
Lemma trade_engine_invariant_counterexample :
  let run := TradeService.execute_trade 5 1 (TradeRequest.mk "BTC" (D 1 0))
               "SELL" (open_session st_negative_price) in
  store_inv st_negative_price
  ∧ Decimal.pos (D 1 0)
  ∧ balance <$> users (committed run.2) !! 1 = Some (D (-1) 0)
  ∧ ¬ store_inv (committed run.2).
Proof. cbv zeta. repeat split; compute_done. Qed.

(** C4 (amended). From a store without negative balances, holdings and
    asset prices, every [execute_trade] with a positive amount (BUY, SELL
    or rejected) and every [reset_account] commits a store without
    negative balances, holdings and asset prices. *)
Theorem trade_engine_preserves_invariant {float : Type}
    (to_float : Decimal.t → float) (db : Store) :
  store_inv db → prices_nonneg db →
  (∀ now uid t amt trade_type r s',
      Decimal.pos amt →
      TradeService.execute_trade now uid (TradeRequest.mk t amt) trade_type
        (open_session db) = (r, s') →
      store_inv (committed s') ∧ prices_nonneg (committed s'))
  ∧ (∀ uid r s',
      TradeService.reset_account to_float uid (open_session db) = (r, s') →
      store_inv (committed s') ∧ prices_nonneg (committed s')).
Proof.
  intros Hinv Hprice. split.
  - intros now uid t amt trade_type r s' Hamt Hrun.
    apply execute_trade_cases in Hrun
      as [->|[(user & aid & asset & Hu & Ha & Hb & ->)
             |(user & aid & asset & q & Hu & Ha & Hq & Hb & ->)]];
      cbn [committed open_session]; [done| |].
    + split; [by eapply buy_store_inv|done].
    + split; [|done]. eapply sell_store_inv; [done| |done..].
      by apply (Hprice aid).
  - intros uid r s' Hrun.
    apply reset_account_cases in Hrun as [->| ->];
      cbn [committed open_session]; [done|].
    split; [by apply reset_store_inv|done].
Qed.

Lemma trade_engine_preserves_invariant_witness :
  store_inv
    (committed (TradeService.execute_trade 9 1 (TradeRequest.mk "BTC" (D 5 0))
                  "SELL" (open_session st_holding)).2)
  ∧ store_inv
      (committed (TradeService.reset_account (λ d, d) 1
                    (open_session st_holding)).2).
Proof.
  pose proof (trade_engine_preserves_invariant (λ d, d) st_holding
                ltac:(compute_done) ltac:(compute_done)) as [Htrade Hreset].
  split.
  - refine (proj1 (Htrade 9 1 "BTC" (D 5 0) "SELL" _ _ _ _)).
    + compute_done.
    + apply surjective_pairing.
  - refine (proj1 (Hreset 1 _ _ _)). apply surjective_pairing.
Defined.

(** C7. [reset_account] of an existing user deletes all of the user's
    holdings and ledger entries (and nothing of anybody else), sets the
    balance to 100000.00 and reports the numbers of deleted rows; a second
    call right after reports 0 and 0 deleted rows, the same new balance,
    and leaves the store as the first call left it. *)
Theorem reset_account_idempotent {float : Type} (to_float : Decimal.t → float)
    (db : Store) (uid : Z) (user : User) :
  users db !! uid = Some user →
  ∃ db1 : Store,
    TradeService.reset_account to_float uid (open_session db)
    = (Ok (ResetReport.mk float true (size (holdings_of uid db))
             (length (ledger_of uid db)) (to_float (D 10000000 (-2)))),
       mkSession db1 db1)
    ∧ holdings_of uid db1 = ∅
    ∧ ledger_of uid db1 = []
    ∧ users db1 !! uid = Some (set_balance (D 10000000 (-2)) user)
    ∧ (∀ uid', uid' ≠ uid → users db1 !! uid' = users db !! uid')
    ∧ (∀ k, k.1 ≠ uid → portfolios db1 !! k = portfolios db !! k)
    ∧ (∀ uid', uid' ≠ uid → ledger_of uid' db1 = ledger_of uid' db)
    ∧ TradeService.reset_account to_float uid (open_session db1)
      = (Ok (ResetReport.mk float true 0 0 (to_float (D 10000000 (-2)))),
         mkSession db1 db1).
Proof.
  intros Hu. exists (reset_store uid db).
  assert (Hu1 : users (reset_store uid db) !! uid
                = Some (set_balance (D 10000000 (-2)) user)).
  { cbn [reset_store users]. by rewrite lookup_alter_eq, Hu. }
  split; [by apply (reset_account_run to_float db uid user)|].
  split; [apply holdings_of_reset|].
  split; [apply ledger_of_reset|].
  split; [exact Hu1|].
  split; [intros uid' Hne; cbn [reset_store users]; by rewrite lookup_alter_ne|].
  split.
  { intros k Hk. cbn [reset_store portfolios].
    destruct (portfolios db !! k) as [q|] eqn:Hq.
    - by apply map_lookup_filter_Some.
    - apply map_lookup_filter_None. left. done. }
  split.
  { intros uid' Hne. unfold ledger_of. cbn [reset_store transactions].
    rewrite list_filter_filter. apply list_filter_iff. intros tx.
    split; [tauto|]. intros ->. done. }
  rewrite (reset_account_run to_float _ uid _ Hu1).
  by rewrite holdings_of_reset, ledger_of_reset, reset_store_idem.
Qed.

Lemma reset_account_idempotent_witness :
  ∃ db1 : Store,
    TradeService.reset_account (λ d, d) 1 (open_session st_holding)
    = (Ok (ResetReport.mk _ true 1%nat 1%nat (D 10000000 (-2))),
       mkSession db1 db1)
    ∧ balance <$> users db1 !! 1 = Some (D 10000000 (-2))
    ∧ portfolios db1 !! (2, 7) = Some (D 3 0)
    ∧ TradeService.reset_account (λ d, d) 1 (open_session db1)
      = (Ok (ResetReport.mk _ true 0%nat 0%nat (D 10000000 (-2))),
         mkSession db1 db1).
Proof.
  destruct (reset_account_idempotent (λ d, d) st_holding 1
              (mkUser "carol" (D 1000 0)))
    as (db1 & Hrun & _ & _ & Hbal & _ & Hother & _ & Hagain).
  - vm_compute; reflexivity.
  - exists db1. rewrite Hrun, Hagain, Hbal, (Hother (2, 7)) by (cbn; lia).
    repeat split.
Defined.

(** ** TradeService.get_wallet *)

Lemma update_stats_total (stats : Stats.t) (tx : Transaction) :
  TradeService.update_stats stats tx = Ok (step stats tx).
Proof.
  unfold step. destruct (TradeService.update_stats stats tx) eqn:H; [done|].
  exfalso. unfold TradeService.update_stats in H.
  destruct (String.eqb (type tx) "BUY").
  - destruct (_ <? _)%D eqn:Hq; [|discriminate].
    apply ltb_zero in Hq.
    destruct (div_is_Some
                (Stats.total_cost stats + amount tx * price_at_transaction tx)%D
                (Stats.quantity stats + amount tx)%D) as [avg Havg].
    { unfold Decimal.pos in Hq. lia. }
    rewrite Havg in H. discriminate.
  - destruct (String.eqb (type tx) "SELL"); [|discriminate].
    destruct (_ <=? _)%D; discriminate.
Qed.

Lemma update_stats_buy (stats : Stats.t) (tx : Transaction) :
  type tx = "BUY" →
  Decimal.nonneg (Stats.quantity stats) → Decimal.pos (amount tx) →
  ∃ avg,
    Decimal.div
      (Stats.total_cost stats + amount tx * price_at_transaction tx)%D
      (Stats.quantity stats + amount tx)%D = Some avg
    ∧ TradeService.update_stats stats tx
      = Ok (Stats.mk
              (Stats.total_cost stats + amount tx * price_at_transaction tx)%D
              (Stats.quantity stats + amount tx)%D avg).
Proof.
  intros Hty Hq Ha. unfold TradeService.update_stats. rewrite Hty. cbn.
  pose proof (add_pos _ _ Hq Ha) as Hpos.
  destruct (div_is_Some
              (Stats.total_cost stats + amount tx * price_at_transaction tx)%D
              (Stats.quantity stats + amount tx)%D) as [avg Havg].
  { unfold Decimal.pos in Hpos. lia. }
  exists avg. split; [done|].
  apply ltb_zero in Hpos. by rewrite Hpos, Havg.
Qed.

Lemma update_stats_sell (stats : Stats.t) (tx : Transaction) :
  type tx = "SELL" →
  TradeService.update_stats stats tx
  = Ok (if (Stats.quantity stats - amount tx <=? Decimal.of_Z 0)%D
        then Stats.mk (Decimal.of_Z 0) (Decimal.of_Z 0) (Decimal.of_Z 0)
        else Stats.mk
               (Stats.total_cost stats - amount tx * Stats.avg_price stats)%D
               (Stats.quantity stats - amount tx)%D
               (Stats.avg_price stats)).
Proof.
  intros Hty. unfold TradeService.update_stats. rewrite Hty. cbn.
  by destruct (_ <=? _)%D.
Qed.

(** With positive amounts the running quantity never gets negative. *)
Lemma step_quantity_nonneg (stats : Stats.t) (tx : Transaction) :
  Decimal.nonneg (Stats.quantity stats) → Decimal.pos (amount tx) →
  Decimal.nonneg (Stats.quantity (step stats tx)).
Proof.
  intros Hq Ha. unfold step, TradeService.update_stats.
  destruct (String.eqb (type tx) "BUY").
  - pose proof (add_pos _ _ Hq Ha) as Hpos.
    assert (Hnn : Decimal.nonneg (Stats.quantity stats + amount tx)%D)
      by (unfold Decimal.nonneg, Decimal.pos in *; lia).
    destruct (_ <? _)%D; [|done]. by destruct (Decimal.div _ _).
  - destruct (String.eqb (type tx) "SELL"); [|done].
    destruct (_ <=? _)%D eqn:Hle; [by vm_compute|].
    apply leb_zero in Hle. cbn. unfold Decimal.nonneg, Decimal.pos in *. lia.
Qed.

(** The dictionary built by the replay loop holds, for every ticker, the
    fold of [step] over the entries of that ticker. *)
Lemma replay_lookup (asset_of : Z → option Asset) (txs : list Transaction)
    (m0 : gmap string Stats.t) :
  Forall (λ tx, is_Some (asset_of (tx_asset_id tx))) txs →
  ∃ m, TradeService.replay asset_of txs m0 = Ok m
       ∧ ∀ t, m !! t = match sub_ledger asset_of t txs with
                       | [] => m0 !! t
                       | l => Some (foldl step (default Stats.init (m0 !! t)) l)
                       end.
Proof.
  revert m0. induction txs as [|tx txs IH]; intros m0 Hfk.
  - exists m0. by split.
  - apply Forall_cons in Hfk as [[asset Ha] Hfk].
    cbn [TradeService.replay]. rewrite Ha.
    set (m1 := match m0 !! ticker asset with
               | Some _ => m0
               | None => <[ticker asset:=Stats.init]> m0
               end).
    assert (H1 : default Stats.init (m1 !! ticker asset)
                 = default Stats.init (m0 !! ticker asset)).
    { subst m1. destruct (m0 !! ticker asset) as [s0|] eqn:H0.
      - by rewrite H0.
      - by rewrite lookup_insert_eq. }
    rewrite update_stats_total, H1.
    destruct (IH (<[ticker asset := step (default Stats.init (m0 !! ticker asset)) tx]> m1)
                Hfk) as (m & Hm & Hl).
    exists m. split; [exact Hm|]. intros t. rewrite Hl.
    unfold sub_ledger. rewrite (filter_cons _ tx txs).
    destruct (decide (ticker_of asset_of tx = Some t)) as [Heq|Hne];
      unfold ticker_of in Heq || unfold ticker_of in Hne;
      rewrite Ha in Heq || rewrite Ha in Hne.
    + injection Heq as <-. rewrite lookup_insert_eq. cbn [default foldl].
      by destruct (filter _ txs).
    + assert (ticker asset ≠ t) by (intros Heq; apply Hne; by rewrite <- Heq).
      rewrite lookup_insert_ne by done.
      replace (m1 !! t) with (m0 !! t); [done|].
      subst m1. destruct (m0 !! ticker asset); [done|].
      by rewrite lookup_insert_ne.
Qed.

Lemma replay_per_ticker (asset_of : Z → option Asset) (txs : list Transaction) :
  Forall (λ tx, is_Some (asset_of (tx_asset_id tx))) txs →
  ∃ m, TradeService.replay asset_of txs ∅ = Ok m
       ∧ ∀ t, m !! t = replay_ticker asset_of t txs.
Proof.
  intros Hfk. destruct (replay_lookup asset_of txs ∅ Hfk) as (m & Hm & Hl).
  exists m. split; [done|]. intros t. rewrite Hl. unfold replay_ticker.
  rewrite lookup_empty. by destruct (sub_ledger asset_of t txs).
Qed.

(** *** The stable sort *)

Lemma insert_by_perm {A : Type} (key : A → Z) (x : A) (l : list A) :
  insert_by key x l ≡ₚ x :: l.
Proof.
  induction l as [|y l IH]; cbn; [done|].
  destruct (key x <=? key y); [done|]. rewrite IH. apply Permutation_swap.
Qed.

Lemma sort_by_perm {A : Type} (key : A → Z) (l : list A) : sort_by key l ≡ₚ l.
Proof.
  induction l as [|x l IH]; cbn; [done|].
  rewrite insert_by_perm. by f_equiv.
Qed.

Lemma insert_by_sorted {A : Type} (key : A → Z) (x : A) (l : list A) :
  Sorted (λ a b, key a <= key b) l →
  Sorted (λ a b, key a <= key b) (insert_by key x l).
Proof.
  induction l as [|y l IH]; intros Hs; cbn.
  - by repeat constructor.
  - destruct (Z.leb_spec (key x) (key y)).
    + constructor; [done|]. by constructor.
    + apply Sorted_inv in Hs as [Hs Hhd]. constructor; [by apply IH|].
      destruct l as [|z l]; cbn.
      * constructor. lia.
      * destruct (Z.leb_spec (key x) (key z)); constructor; [lia|].
        by apply HdRel_inv in Hhd.
Qed.

Lemma sort_by_sorted {A : Type} (key : A → Z) (l : list A) :
  Sorted (λ a b, key a <= key b) (sort_by key l).
Proof.
  induction l as [|x l IH]; cbn; [constructor|]. by apply insert_by_sorted.
Qed.

(** Sorting a sorted list changes nothing (the second sort of
    [get_wallet] meets the [ORDER BY] of [get_by_user]). *)
Lemma sort_by_id {A : Type} (key : A → Z) (l : list A) :
  Sorted (λ a b, key a <= key b) l → sort_by key l = l.
Proof.
  induction l as [|x l IH]; intros Hs; [done|].
  change (sort_by key (x :: l)) with (insert_by key x (sort_by key l)).
  apply Sorted_inv in Hs as [Hs Hhd]. rewrite IH by done.
  destruct l as [|y l]; cbn; [done|].
  apply HdRel_inv in Hhd. by destruct (Z.leb_spec (key x) (key y)); [|lia].
Qed.

Section Wallet.
Context {float : Type} (to_float : Decimal.t → float).

Lemma build_assets_total (m : gmap string Stats.t)
    (portfolio : list (Portfolio * option Asset))
    (acc : list (WalletAsset.t float)) (total : Decimal.t) :
  (TradeService.build_assets to_float m portfolio acc total).2
  = foldl Decimal.add total (holding_values portfolio).
Proof.
  revert acc total. induction portfolio as [|[p [asset|]] rest IH];
    intros acc total; cbn; [done|apply IH..].
Qed.

(** [get_wallet] on a fresh session, spelled out. *)
Lemma get_wallet_run (db : Store) (uid : Z) (user : User)
    (m : gmap string Stats.t) :
  users db !! uid = Some user →
  TradeService.replay (λ aid, assets db !! aid)
    (sort_by timestamp (ledger_of uid db)) ∅ = Ok m →
  TradeService.get_wallet to_float uid (open_session db)
  = (Ok (Wallet.mk float (username user) (to_float (balance user))
           (TradeService.build_assets to_float m (user_portfolio uid db) []
              (Decimal.of_Z 0)).1
           (to_float (balance user + holdings_value (user_portfolio uid db))%D)),
     open_session db).
Proof.
  intros Hu Hm. unfold TradeService.get_wallet,
    UserRepository.get_by_id_with_portfolio, TransactionRepository.get_by_user.
  run_session. rewrite Hu.
  fold (user_portfolio uid db). fold (ledger_of uid db).
  rewrite (sort_by_id timestamp (sort_by _ _)) by apply sort_by_sorted.
  cbn [pending open_session]. unfold ledger_of in Hm. rewrite Hm.
  pose proof (build_assets_total m (user_portfolio uid db) [] (Decimal.of_Z 0)) as Ht.
  fold (holdings_value (user_portfolio uid db)) in Ht.
  destruct (TradeService.build_assets _ _ _ _ _) as [l tot]. cbn in Ht.
  by subst tot.
Qed.

End Wallet.

Lemma build_assets_entries {float : Type} (to_float : Decimal.t → float)
    (m : gmap string Stats.t) (portfolio : list (Portfolio * option Asset))
    (acc : list (WalletAsset.t float)) (total : Decimal.t) :
  (TradeService.build_assets to_float m portfolio acc total).1
  = acc ++ omap (wallet_entry to_float m) portfolio.
Proof.
  revert acc total. induction portfolio as [|[p [asset|]] rest IH];
    intros acc total; cbn.
  - by rewrite app_nil_r.
  - rewrite IH. by rewrite <- app_assoc.
  - apply IH.
Qed.

Lemma ledger_sorted_assets_exist (db : Store) (uid : Z) :
  ledger_assets_exist db →
  Forall (λ tx, is_Some (assets db !! tx_asset_id tx))
    (sort_by timestamp (ledger_of uid db)).
Proof.
  intros H. rewrite sort_by_perm. unfold ledger_of.
  apply Forall_forall. intros tx Hin.
  apply list_elem_of_filter in Hin as [_ Hin].
  by apply (proj1 (Forall_forall _ _) H).
Qed.

(** C5, as stated, fails: the SELL that empties a position does not
    leave the average price unchanged, it resets it to 0 together with
    the quantity and the total cost; the wallet then shows 0. *)
Lemma average_cost_counterexample :
  let before := Stats.mk (D 400 0) (D 3 0) avg_400_3 in
  replay_ticker (λ _, Some btc) "BTC" [buy_2_at_100; buy_1_at_200] = Some before
  ∧ TradeService.update_stats before sell_3_at_500
    = Ok (Stats.mk (D 0 0) (D 0 0) (D 0 0))
  ∧ Stats.avg_price (step before sell_3_at_500) ≠ Stats.avg_price before
  ∧ (WalletAsset.average_buy_price Decimal.t
     <$> match (TradeService.get_wallet (λ d, d) 1 (open_session st_sold_out)).1 with
         | Ok w => Wallet.assets Decimal.t w
         | Raise _ => []
         end) = [D 0 0].
Proof. cbv zeta. repeat split; compute_done. Qed.

(** C5 (amended). [get_wallet] replays the user's ledger in chronological
    order, ticker by ticker.  A BUY adds [amount] to the quantity and
    [amount * priceAtTransaction] to the total cost and sets the average
    price to total cost / quantity.  A SELL that leaves a positive
    quantity subtracts [amount] from the quantity and
    [amount * avgPrice] (the running average, not the trade price) from
    the total cost and keeps the average price; a SELL that leaves a
    quantity <= 0 resets quantity, total cost and average price to 0.
    For [BUY 2 at 100, BUY 1 at 200] the average price is the 28-digit
    quotient 400 / 3 = 133.33...; a following SELL 1 leaves quantity 2 and
    the total cost reduced by 1 * 133.33.... *)
Theorem average_cost_replay :
  (∀ (float : Type) (to_float : Decimal.t → float) (db : Store) (uid : Z)
     (user : User),
      users db !! uid = Some user → ledger_assets_exist db →
      let asset_of := λ aid, assets db !! aid in
      let ledger := sort_by timestamp (ledger_of uid db) in
      chronological ledger ∧ ledger ≡ₚ ledger_of uid db
      ∧ ∃ m w,
          TradeService.get_wallet to_float uid (open_session db)
          = (Ok w, open_session db)
          ∧ (∀ t, m !! t = replay_ticker asset_of t ledger)
          ∧ Wallet.assets float w
            = omap (wallet_entry to_float m) (user_portfolio uid db))
  ∧ (∀ stats tx,
      type tx = "BUY" →
      Decimal.nonneg (Stats.quantity stats) → Decimal.pos (amount tx) →
      ∃ avg,
        Decimal.div
          (Stats.total_cost stats + amount tx * price_at_transaction tx)%D
          (Stats.quantity stats + amount tx)%D = Some avg
        ∧ step stats tx
          = Stats.mk
              (Stats.total_cost stats + amount tx * price_at_transaction tx)%D
              (Stats.quantity stats + amount tx)%D avg)
  ∧ (∀ stats tx,
      type tx = "SELL" →
      step stats tx
      = if (Stats.quantity stats - amount tx <=? Decimal.of_Z 0)%D
        then Stats.mk (Decimal.of_Z 0) (Decimal.of_Z 0) (Decimal.of_Z 0)
        else Stats.mk
               (Stats.total_cost stats - amount tx * Stats.avg_price stats)%D
               (Stats.quantity stats - amount tx)%D
               (Stats.avg_price stats))
  ∧ (∀ stats tx,
      Decimal.nonneg (Stats.quantity stats) → Decimal.pos (amount tx) →
      Decimal.nonneg (Stats.quantity (step stats tx)))
  ∧ replay_ticker (λ _, Some btc) "BTC" [buy_2_at_100; buy_1_at_200]
    = Some (Stats.mk (D 400 0) (D 3 0) avg_400_3)
  ∧ Decimal.div (D 400 0) (D 3 0) = Some avg_400_3
  ∧ 3 * Decimal.coef avg_400_3 = 400 * 10 ^ 25 - 1
  ∧ replay_ticker (λ _, Some btc) "BTC"
      [buy_2_at_100; buy_1_at_200; sell_1_at_500]
    = Some (Stats.mk (D 400 0 - D 1 0 * avg_400_3)%D (D 2 0) avg_400_3).
Proof.
  split.
  { intros float to_float db uid user Hu Hfk asset_of ledger.
    split; [apply sort_by_sorted|]. split; [apply sort_by_perm|].
    destruct (replay_per_ticker asset_of ledger) as (m & Hm & Hl).
    { by apply ledger_sorted_assets_exist. }
    exists m. eexists. split; [by apply get_wallet_run|].
    split; [exact Hl|]. cbn [Wallet.assets].
    by rewrite build_assets_entries. }
  split.
  { intros stats tx Hty Hq Ha.
    destruct (update_stats_buy stats tx Hty Hq Ha) as (avg & Hdiv & Hrun).
    exists avg. split; [done|]. unfold step. by rewrite Hrun. }
  split.
  { intros stats tx Hty. unfold step. by rewrite update_stats_sell. }
  split; [apply step_quantity_nonneg|].
  repeat split; compute_done.
Qed.

(** The stored ledger [BUY 1 at 200 (later), BUY 2 at 100 (earlier)] is
    replayed oldest first and the wallet shows 133.33... for BTC. *)
Lemma average_cost_replay_witness :
  sort_by timestamp (ledger_of 1 st_ledger) = [buy_2_at_100; buy_1_at_200]
  ∧ (∃ w, TradeService.get_wallet (λ d, d) 1 (open_session st_ledger)
          = (Ok w, open_session st_ledger)
          ∧ WalletAsset.average_buy_price Decimal.t <$> Wallet.assets Decimal.t w
            = [avg_400_3])
  ∧ step (Stats.mk (D 200 0) (D 2 0) (D 100 0)) buy_1_at_200
    = Stats.mk (D 400 0) (D 3 0) avg_400_3
  ∧ step (Stats.mk (D 400 0) (D 3 0) avg_400_3) sell_1_at_500
    = Stats.mk (D 2666666666666666666666666667 (-25)) (D 2 0) avg_400_3.
Proof.
  destruct average_cost_replay as (Hwallet & Hbuy & Hsell & _).
  split; [vm_compute; reflexivity|]. split; [|split].
  - destruct (Hwallet Decimal.t (λ d, d) st_ledger 1 alice)
      as (_ & _ & m & w & Hrun & Hm & Hassets).
    + vm_compute; reflexivity.
    + compute_done.
    + exists w. split; [exact Hrun|]. rewrite Hassets.
      replace (user_portfolio 1 st_ledger)
        with [(mkPortfolio 1 7 (D 3 0), Some btc)] by (vm_compute; reflexivity).
      unfold wallet_entry. cbn. rewrite (Hm "BTC"). vm_compute; reflexivity.
  - destruct (Hbuy (Stats.mk (D 200 0) (D 2 0) (D 100 0)) buy_1_at_200)
      as (avg & Hdiv & ->).
    + reflexivity.
    + compute_done.
    + compute_done.
    + vm_compute in Hdiv. injection Hdiv as <-. vm_compute; reflexivity.
  - rewrite Hsell by reflexivity. vm_compute; reflexivity.
Defined.

(** C6. For an existing user [get_wallet] returns; its [total_value] is
    the float of [balance + sum], the sum running over the user's
    portfolio rows (those with a loaded asset) of
    [quantity * current_price]; whatever the ledger holds, the value is
    the same. *)
Theorem get_wallet_total_value {float : Type} (to_float : Decimal.t → float)
    (db : Store) (uid : Z) (user : User) :
  users db !! uid = Some user → ledger_assets_exist db →
  ∃ w,
    TradeService.get_wallet to_float uid (open_session db)
    = (Ok w, open_session db)
    ∧ Wallet.total_value float w
      = to_float (balance user + holdings_value (user_portfolio uid db))%D
    ∧ ∀ txs : list Transaction,
        let db' := set_transactions (λ _, txs) db in
        ledger_assets_exist db' →
        ∃ w',
          TradeService.get_wallet to_float uid (open_session db')
          = (Ok w', open_session db')
          ∧ Wallet.total_value float w' = Wallet.total_value float w.
Proof.
  intros Hu Hfk.
  destruct (replay_per_ticker (λ aid, assets db !! aid)
              (sort_by timestamp (ledger_of uid db))) as (m & Hm & _).
  { by apply ledger_sorted_assets_exist. }
  eexists. split; [by apply get_wallet_run|]. split; [done|].
  intros txs db' Hfk'.
  destruct (replay_per_ticker (λ aid, assets db' !! aid)
              (sort_by timestamp (ledger_of uid db'))) as (m' & Hm' & _).
  { by apply ledger_sorted_assets_exist. }
  eexists. split; [by apply (get_wallet_run to_float db' uid user)|]. done.
Qed.

Lemma get_wallet_total_value_witness :
  ∃ w, TradeService.get_wallet (λ d, d) 1 (open_session st_holding)
       = (Ok w, open_session st_holding)
       ∧ Wallet.total_value Decimal.t w = D 1500 0.
Proof.
  destruct (get_wallet_total_value (λ d, d) st_holding 1
              (mkUser "carol" (D 1000 0)))
    as (w & Hrun & Htotal & _).
  - vm_compute; reflexivity.
  - compute_done.
  - exists w. split; [exact Hrun|]. rewrite Htotal. vm_compute; reflexivity.
Defined.

(** ** ConnectionManager.broadcast *)

Section Broadcast.
Import ConnectionManager.
Context {Message : Type} (send_json : WebSocket → Message → result unit).
Context (message : Message).

Local Abbreviation ok := (λ c : WebSocket, delivers send_json message c = true)
  (only parsing).
Local Abbreviation sent := (λ c : WebSocket, (c, message)) (only parsing).

Lemma remove_first_middle (x : WebSocket) (l1 l2 : list WebSocket) :
  x ∉ l1 → remove_first x (l1 ++ x :: l2) = l1 ++ l2.
Proof.
  induction l1 as [|y l1 IH]; intros Hx; cbn.
  - by rewrite decide_True.
  - apply not_elem_of_cons in Hx as [Hne Hx].
    rewrite decide_False by done. by rewrite IH.
Qed.

(** The loop invariant: the subscribers already visited have been
    filtered, those still to visit are untouched.  The loop comes to its
    end when no send raises past [except Exception:]. *)
Lemma broadcast_loop_spec (pre rest tail : list WebSocket) (m : t) :
  (∀ c, c ∈ rest → cancels send_json message c = false) →
  active_connections m = filter ok pre ++ rest ++ tail →
  broadcast_loop send_json message rest m
  = (Ok tt,
     mk (filter ok (pre ++ rest) ++ tail)
        (delivered m ++ (sent <$> filter ok rest))
        (attempted m ++ (sent <$> rest))).
Proof.
  revert pre m. induction rest as [|c rest IH]; intros pre m Hcan Hact.
  - cbn [app] in Hact. cbn. rewrite !app_nil_r. rewrite <- Hact.
    by destruct m.
  - assert (Hrest : ∀ c', c' ∈ rest → cancels send_json message c' = false)
      by (intros c' Hc'; apply Hcan; by apply list_elem_of_further).
    pose proof (Hcan c (list_elem_of_here _ _)) as Hc. unfold cancels in Hc.
    cbn [broadcast_loop]. unfold broadcast_one.
    rewrite (filter_cons _ c rest).
    destruct (send_json c message) as [u|e] eqn:Hsend.
    + assert (Hd : delivers send_json message c = true)
        by (unfold delivers; by rewrite Hsend).
      rewrite (IH (pre ++ [c])); [|done|].
      * cbn [delivered attempted active_connections].
        rewrite decide_True by done.
        by rewrite <- !app_assoc.
      * cbn [active_connections]. rewrite Hact, filter_app.
        rewrite (filter_cons _ c []).
        rewrite decide_True by done. by rewrite <- !app_assoc.
    + assert (Hd : delivers send_json message c ≠ true)
        by (unfold delivers; by rewrite Hsend).
      assert (Hnot : c ∉ filter ok pre).
      { intros Hin. by apply list_elem_of_filter in Hin as [Hok _]. }
      apply negb_false_iff in Hc. rewrite Hc.
      unfold disconnect. cbn [active_connections delivered attempted].
      rewrite decide_True
        by (rewrite Hact; apply elem_of_app; right; apply list_elem_of_here).
      rewrite (IH (pre ++ [c])); [|done|].
      * cbn [delivered attempted active_connections].
        rewrite decide_False by done.
        by rewrite <- !app_assoc.
      * cbn [active_connections].
        rewrite Hact. cbn [app]. rewrite remove_first_middle by done.
        rewrite filter_app, (filter_cons _ c []).
        rewrite decide_False by done. by rewrite app_nil_r.
Qed.

Lemma broadcast_loop_app (l1 l2 : list WebSocket) (m : t) :
  broadcast_loop send_json message (l1 ++ l2) m
  = match broadcast_loop send_json message l1 m with
    | (Ok _, m') => broadcast_loop send_json message l2 m'
    | (Raise e, m') => (Raise e, m')
    end.
Proof.
  revert m. induction l1 as [|c l1 IH]; intros m; [done|].
  cbn [app broadcast_loop].
  destruct (broadcast_one send_json message c m) as [[u|e] m']; [apply IH|done].
Qed.

(** The loop stops at the first send that raises past
    [except Exception:]. *)
Lemma broadcast_loop_cancelled (pre rest : list WebSocket) (c : WebSocket)
    (tail : list WebSocket) (e : exn) (m : t) :
  (∀ c', c' ∈ rest → cancels send_json message c' = false) →
  send_json c message = Raise e → is_Exception e = false →
  active_connections m = filter ok pre ++ rest ++ c :: tail →
  broadcast_loop send_json message (rest ++ c :: tail) m
  = (Raise e,
     mk (filter ok (pre ++ rest) ++ c :: tail)
        (delivered m ++ (sent <$> filter ok rest))
        (attempted m ++ (sent <$> rest ++ [c]))).
Proof.
  intros Hcan Hsend He Hact.
  rewrite broadcast_loop_app.
  rewrite (broadcast_loop_spec pre rest (c :: tail) m Hcan Hact).
  cbn [broadcast_loop]. unfold broadcast_one. rewrite Hsend, He.
  cbn [active_connections delivered attempted].
  by rewrite fmap_app, app_assoc.
Qed.

(** A loop that has come to its end has met no such send. *)
Lemma broadcast_loop_returns (rest : list WebSocket) (m : t) :
  (broadcast_loop send_json message rest m).1 = Ok tt →
  ∀ c, c ∈ rest → cancels send_json message c = false.
Proof.
  revert m. induction rest as [|c rest IH]; intros m Hrun c' Hc';
    [by inversion Hc'|].
  cbn [broadcast_loop] in Hrun. unfold broadcast_one in Hrun.
  apply elem_of_cons in Hc' as [->|Hc'].
  - unfold cancels. destruct (send_json c message) as [u|e]; [done|].
    by destruct (is_Exception e).
  - destruct (send_json c message) as [u|e]; [by apply (IH _ Hrun)|].
    destruct (is_Exception e); [by apply (IH _ Hrun)|done].
Qed.

End Broadcast.

(** C10, as stated, fails: when the send to the second of three
    subscribers raises [asyncio.CancelledError], [broadcast] raises it;
    the third subscriber is not attempted and the second one is still
    registered. *)
Lemma broadcast_isolates_failures_counterexample :
  let m := ConnectionManager.mk [1; 2; 3]%nat [] [] in
  let run := ConnectionManager.broadcast send_json_2_cancelled "tick" m in
  send_json_2_cancelled 2%nat "tick" = Raise CancelledError
  ∧ delivers send_json_2_cancelled "tick" 3%nat = true
  ∧ run.1 = Raise CancelledError
  ∧ ConnectionManager.attempted run.2 = [(1%nat, "tick"); (2%nat, "tick")]
  ∧ ConnectionManager.delivered run.2 = [(1%nat, "tick")]
  ∧ ConnectionManager.active_connections run.2 = [1; 2; 3]%nat.
Proof. cbv zeta. repeat split; vm_compute; reflexivity. Qed.

(** C10 (amended). [broadcast] calls [send_json] for the subscribers that
    were registered when it started, in order.  When no send raises an
    exception other than an [Exception], [broadcast] does not raise, it
    calls [send_json] once for every one of these subscribers, every
    subscriber whose send succeeds receives the message, and exactly the
    subscribers whose send raises are removed.  When a send raises an
    exception that is not an [Exception] (the cancellation of the task),
    [broadcast] raises it at the first such subscriber: the subscribers
    before it are treated as above, this subscriber stays registered, and
    those after it are neither attempted nor removed.  With three
    subscribers of which the second fails with an [Exception], the first
    and the third receive the message and stay, the second is removed. *)
Theorem broadcast_isolates_failures :
  (∀ (Message : Type)
     (send_json : ConnectionManager.WebSocket → Message → result unit)
     (message : Message) (m : ConnectionManager.t),
      let subscribers := ConnectionManager.active_connections m in
      let run := ConnectionManager.broadcast send_json message m in
      let ok := λ c, delivers send_json message c = true in
      ((∀ c, c ∈ subscribers → cancels send_json message c = false) →
       run.1 = Ok tt
       ∧ ConnectionManager.attempted run.2
         = ConnectionManager.attempted m
           ++ ((λ c, (c, message)) <$> subscribers)
       ∧ ConnectionManager.delivered run.2
         = ConnectionManager.delivered m
           ++ ((λ c, (c, message)) <$> filter ok subscribers)
       ∧ ConnectionManager.active_connections run.2 = filter ok subscribers)
      ∧ (∀ before c after e,
           subscribers = before ++ c :: after →
           (∀ c', c' ∈ before → cancels send_json message c' = false) →
           send_json c message = Raise e → is_Exception e = false →
           run.1 = Raise e
           ∧ ConnectionManager.attempted run.2
             = ConnectionManager.attempted m
               ++ ((λ c, (c, message)) <$> before ++ [c])
           ∧ ConnectionManager.delivered run.2
             = ConnectionManager.delivered m
               ++ ((λ c, (c, message)) <$> filter ok before)
           ∧ ConnectionManager.active_connections run.2
             = filter ok before ++ c :: after))
  ∧ ConnectionManager.broadcast send_json_2_fails "tick"
      (ConnectionManager.mk [1; 2; 3]%nat [] [])
    = (Ok tt,
       ConnectionManager.mk [1; 3]%nat
         [(1%nat, "tick"); (3%nat, "tick")]
         [(1%nat, "tick"); (2%nat, "tick"); (3%nat, "tick")]).
Proof.
  split; [|vm_compute; reflexivity].
  intros Message send_json message m subscribers run ok.
  subst run subscribers ok. unfold ConnectionManager.broadcast. split.
  - intros Hcan.
    rewrite (broadcast_loop_spec send_json message []
               (ConnectionManager.active_connections m) [] m Hcan)
      by (by rewrite app_nil_r).
    cbn. by rewrite app_nil_r.
  - intros before c after e Hsplit Hcan Hsend He. rewrite Hsplit.
    by rewrite (broadcast_loop_cancelled send_json message [] before c after
                  e m Hcan Hsend He Hsplit).
Qed.

(** The two cases of C10 on three subscribers: a failing second
    subscriber is removed and the others are served; a cancellation at the
    second subscriber leaves [broadcast]. *)
Lemma broadcast_isolates_failures_witness :
  ConnectionManager.broadcast send_json_2_fails "tick"
    (ConnectionManager.mk [1; 2; 3]%nat [] [])
  = (Ok tt,
     ConnectionManager.mk [1; 3]%nat
       [(1%nat, "tick"); (3%nat, "tick")]
       [(1%nat, "tick"); (2%nat, "tick"); (3%nat, "tick")])
  ∧ (let run := ConnectionManager.broadcast send_json_2_fails "tick"
                  (ConnectionManager.mk [1; 2; 3]%nat [] []) in
     run.1 = Ok tt
     ∧ ConnectionManager.active_connections run.2 = [1; 3]%nat)
  ∧ (let run := ConnectionManager.broadcast send_json_2_cancelled "tick"
                  (ConnectionManager.mk [1; 2; 3]%nat [] []) in
     run.1 = Raise CancelledError
     ∧ ConnectionManager.active_connections run.2 = [1; 2; 3]%nat).
Proof.
  destruct broadcast_isolates_failures as [Hall Hex].
  split; [exact Hex|]. split.
  - destruct (Hall string send_json_2_fails "tick"
                (ConnectionManager.mk [1; 2; 3]%nat [] []))
      as [Hreturns _].
    destruct Hreturns as (Hrun & _ & _ & Hact).
    + intros c Hc. cbn in Hc.
      repeat (apply elem_of_cons in Hc as [->|Hc]; [reflexivity|]).
      by inversion Hc.
    + cbv zeta. by rewrite Hrun, Hact.
  - destruct (Hall string send_json_2_cancelled "tick"
                (ConnectionManager.mk [1; 2; 3]%nat [] []))
      as [_ Hraises].
    destruct (Hraises [1%nat] 2%nat [3%nat] CancelledError)
      as (Hrun & _ & _ & Hact).
    + reflexivity.
    + intros c Hc. apply list_elem_of_singleton in Hc as ->. reflexivity.
    + reflexivity.
    + reflexivity.
    + cbv zeta. by rewrite Hrun, Hact.
Defined.

(** ** MarketService._update_prices *)

Lemma dict_set_fresh {V : Type} (k : string) (v : V) (d : list (string * V)) :
  k ∉ d.*1 → Dict.set k v d = d ++ [(k, v)].
Proof.
  induction d as [|[k' v'] d IH]; intros Hk; cbn; [done|].
  cbn in Hk. apply not_elem_of_cons in Hk as [Hne Hk].
  rewrite decide_False by done. by rewrite IH.
Qed.

Lemma comprehension_acc {A V : Type} (key : A → string) (val : A → V)
    (l : list A) (d0 : list (string * V)) :
  NoDup (d0.*1 ++ (key <$> l)) →
  foldl (λ d x, Dict.set (key x) (val x) d) d0 l
  = d0 ++ ((λ x, (key x, val x)) <$> l).
Proof.
  revert d0. induction l as [|x l IH]; intros d0 Hnd; cbn.
  - by rewrite app_nil_r.
  - cbn in Hnd. apply NoDup_app in Hnd as (Hd0 & Hdisj & Hl).
    apply NoDup_cons in Hl as [Hx Hl].
    rewrite dict_set_fresh.
    + rewrite IH.
      * by rewrite <- app_assoc.
      * rewrite fmap_app. cbn. rewrite <- app_assoc. cbn.
        apply NoDup_app. split; [done|]. split; [done|].
        by apply NoDup_cons.
    + intros Hin. apply (Hdisj _ Hin). apply list_elem_of_here.
Qed.

(** Without repeated keys a dictionary comprehension lists its items in
    order. *)
Lemma comprehension_nodup {A V : Type} (key : A → string) (val : A → V)
    (l : list A) :
  NoDup (key <$> l) →
  Dict.comprehension key val l = (λ x, (key x, val x)) <$> l.
Proof. intros Hnd. unfold Dict.comprehension. by rewrite comprehension_acc. Qed.

Lemma id_map_other {A : Type} (key : A → string) (val : A → Z) (l : list A)
    (m0 : gmap string Z) (k : string) :
  k ∉ key <$> l →
  foldl (λ (m : gmap string Z) x, <[key x := val x]> m) m0 l !! k = m0 !! k.
Proof.
  revert m0. induction l as [|x l IH]; intros m0 Hk; cbn; [done|].
  cbn in Hk. apply not_elem_of_cons in Hk as [Hne Hk].
  rewrite IH by done. by rewrite lookup_insert_ne.
Qed.

Lemma id_map_lookup {A : Type} (key : A → string) (val : A → Z) (l : list A)
    (m0 : gmap string Z) (x : A) :
  NoDup (key <$> l) → x ∈ l →
  foldl (λ (m : gmap string Z) x, <[key x := val x]> m) m0 l !! key x
  = Some (val x).
Proof.
  revert m0. induction l as [|y l IH]; intros m0 Hnd Hx; [by inversion Hx|].
  cbn in Hnd. apply NoDup_cons in Hnd as [Hy Hnd]. cbn.
  apply elem_of_cons in Hx as [->|Hx].
  - rewrite id_map_other by done. by rewrite lookup_insert_eq.
  - by apply IH.
Qed.

Lemma price_updates_elem {float : Type} (prices : gmap string float)
    (l : list (Z * Asset)) (u : Z * Asset * float) :
  u ∈ price_updates prices l
  ↔ u.1 ∈ l ∧ prices !! binance_symbol u.1.2 = Some u.2.
Proof.
  unfold price_updates. rewrite list_elem_of_omap. split.
  - intros (a & Ha & Hu). destruct (prices !! binance_symbol a.2) eqn:Hp;
      [|done]. cbn in Hu. injection Hu as <-. by cbn.
  - intros [Ha Hp]. exists u.1. split; [done|]. rewrite Hp. by destruct u.
Qed.

Lemma price_updates_ids {float : Type} (prices : gmap string float)
    (l : list (Z * Asset)) (i : Z) :
  i ∈ (price_updates prices l).*1.*1 → i ∈ l.*1.
Proof.
  intros Hi. apply list_elem_of_fmap in Hi as (a & -> & Ha).
  apply list_elem_of_fmap in Ha as (u & -> & Hu).
  apply price_updates_elem in Hu as [Hu _].
  apply list_elem_of_fmap. by exists u.1.
Qed.

Lemma price_updates_nodup {float : Type} (prices : gmap string float)
    (l : list (Z * Asset)) :
  NoDup l.*1 → NoDup (price_updates prices l).*1.*1.
Proof.
  induction l as [|a l IH]; intros Hnd; [constructor|].
  cbn in Hnd. apply NoDup_cons in Hnd as [Ha Hnd].
  unfold price_updates. cbn [omap list_omap].
  destruct (prices !! binance_symbol a.2) as [p|]; cbn.
  - apply NoDup_cons. split; [|by apply IH].
    intros Hin. by apply price_updates_ids in Hin.
  - by apply IH.
Qed.

Section Market.
Context {float : Type} (decimal_of_str : float → Decimal.t).
Context (get_prices : list string → option (gmap string float)).

Lemma persist_fold_frame (st : Store) (us : list (Z * Asset * float)) :
  let st' := foldl (persist_one decimal_of_str) st us in
  users st' = users st ∧ portfolios st' = portfolios st
  ∧ transactions st' = transactions st
  ∧ price_history st'
    = price_history st
      ++ ((λ u : Z * Asset * float, mkPriceHistory u.1.1 (decimal_of_str u.2))
          <$> us).
Proof.
  revert st. induction us as [|u us IH]; intros st; cbn.
  - by rewrite app_nil_r.
  - destruct (IH (persist_one decimal_of_str st u)) as (-> & -> & -> & ->).
    cbn. by rewrite <- app_assoc.
Qed.

Lemma persist_fold_other (st : Store) (us : list (Z * Asset * float)) (i : Z) :
  i ∉ us.*1.*1 →
  assets (foldl (persist_one decimal_of_str) st us) !! i = assets st !! i.
Proof.
  revert st. induction us as [|u us IH]; intros st Hi; cbn; [done|].
  cbn in Hi. apply not_elem_of_cons in Hi as [Hne Hi].
  rewrite IH by done. cbn. by rewrite lookup_alter_ne.
Qed.

Lemma persist_fold_updated (st : Store) (us : list (Z * Asset * float))
    (u : Z * Asset * float) :
  NoDup us.*1.*1 → u ∈ us →
  assets (foldl (persist_one decimal_of_str) st us) !! u.1.1
  = set_current_price (decimal_of_str u.2) <$> assets st !! u.1.1.
Proof.
  revert st. induction us as [|v us IH]; intros st Hnd Hu; [by inversion Hu|].
  cbn in Hnd. apply NoDup_cons in Hnd as [Hv Hnd]. cbn.
  apply elem_of_cons in Hu as [->|Hu].
  - rewrite persist_fold_other by done. cbn. by rewrite lookup_alter_eq.
  - rewrite IH by done. cbn. rewrite lookup_alter_ne; [done|].
    intros Heq. apply Hv. rewrite Heq.
    apply list_elem_of_fmap. exists u.1. split; [done|].
    apply list_elem_of_fmap. by exists u.
Qed.

(** The persisting loop over the items of the active assets. *)
Lemma persist_loop_run (l : list (Z * Asset)) (prices : gmap string float)
    (assets_map : gmap string Z) (ups : list (string * float)) (s : Session) :
  (∀ a, a ∈ l → assets_map !! ticker a.2 = Some a.1) →
  MarketService.persist_loop decimal_of_str
    ((λ a : Z * Asset, (ticker a.2, binance_symbol a.2)) <$> l)
    prices assets_map ups s
  = (Ok (ups ++ ((λ u : Z * Asset * float, (ticker u.1.2, u.2))
                 <$> price_updates prices l)),
     mkSession (committed s)
       (foldl (persist_one decimal_of_str) (pending s) (price_updates prices l))).
Proof.
  revert ups s. induction l as [|a l IH]; intros ups s Hmap.
  - cbn. rewrite app_nil_r. by destruct s.
  - cbn [fmap list_fmap MarketService.persist_loop].
    rewrite (Hmap a) by apply list_elem_of_here.
    unfold price_updates. cbn [omap list_omap].
    destruct (prices !! binance_symbol a.2) as [p|] eqn:Hp; cbn [fmap option_fmap option_map].
    + unfold MarketService._persist_asset_update,
        AssetRepository.update_price, PriceHistoryRepository.create.
      run_session.
      fold (price_updates prices l).
      rewrite IH by (intros a' Ha'; apply Hmap; by apply list_elem_of_further).
      cbn. by rewrite <- app_assoc.
    + fold (price_updates prices l).
      apply IH. intros a' Ha'. apply Hmap. by apply list_elem_of_further.
Qed.

End Market.

Lemma nodup_fmap_filter {A B : Type} (f : A → B) (P : A → Prop)
    `{!∀ x, Decision (P x)} (l : list A) :
  NoDup (f <$> l) → NoDup (f <$> filter P l).
Proof.
  induction l as [|x l IH]; intros Hnd; [constructor|].
  cbn in Hnd. apply NoDup_cons in Hnd as [Hx Hnd].
  rewrite filter_cons. destruct (decide (P x)); [|by apply IH].
  cbn. apply NoDup_cons. split; [|by apply IH].
  intros Hin. apply Hx. apply list_elem_of_fmap in Hin as (y & -> & Hy).
  apply list_elem_of_filter in Hy as [_ Hy].
  apply list_elem_of_fmap. by exists y.
Qed.

Lemma ticker_map_unique (db : Store) :
  unique_tickers db →
  AssetRepository.get_ticker_to_binance_map db
  = (λ a : Z * Asset, (ticker a.2, binance_symbol a.2))
    <$> AssetRepository.get_all_active db.
Proof.
  intros Hu. unfold AssetRepository.get_ticker_to_binance_map.
  apply comprehension_nodup. unfold AssetRepository.get_all_active.
  by apply nodup_fmap_filter.
Qed.

Lemma ticker_map_symbols (db : Store) :
  unique_tickers db →
  filter feed_symbol_valid (AssetRepository.get_ticker_to_binance_map db).*2
  = requested_symbols db.
Proof.
  intros Hu. rewrite ticker_map_unique by done. unfold requested_symbols.
  by rewrite <- list_fmap_compose.
Qed.

Lemma id_map_active (db : Store) (a : Z * Asset) :
  unique_tickers db → a ∈ AssetRepository.get_all_active db →
  AssetRepository.get_ticker_to_id_map db !! ticker a.2 = Some a.1.
Proof.
  intros Hu Ha. unfold AssetRepository.get_ticker_to_id_map.
  apply (id_map_lookup (λ a : Z * Asset, ticker a.2) asset_id); [done|].
  unfold AssetRepository.get_all_active in Ha.
  by apply list_elem_of_filter in Ha as [_ Ha].
Qed.

Section MarketCycle.
Context {float : Type} (decimal_of_str : float → Decimal.t).
Context (get_prices : list string → option (gmap string float)).

Lemma fetch_live_prices_eq (ticker_map : list (string * string))
    (tr : list (MarketService.Event float)) :
  MarketService._fetch_live_prices get_prices ticker_map tr
  = match filter feed_symbol_valid ticker_map.*2 with
    | [] => (∅, tr)
    | symbols =>
        match get_prices symbols with
        | Some prices => (prices, tr ++ [MarketService.FeedCall symbols])
        | None => (∅, tr ++ [MarketService.FeedCall symbols])
        end
    end.
Proof.
  destruct ticker_map as [|item ticker_map]; [done|].
  unfold MarketService._fetch_live_prices. cbv zeta.
  by destruct (filter _ _).
Qed.

(** A cycle without fetched prices. *)
Lemma update_prices_skip (w : MarketService.World float)
    (tr : list (MarketService.Event float)) :
  MarketService._fetch_live_prices get_prices
    (AssetRepository.get_ticker_to_binance_map (MarketService.db w))
    (MarketService.trace w) = (∅, tr) →
  MarketService._update_prices decimal_of_str get_prices w
  = MarketService.mkWorld (MarketService.db w) tr.
Proof.
  intros H. unfold MarketService._update_prices.
  cbn [pending open_session]. rewrite H. by rewrite decide_True.
Qed.

(** A cycle with fetched prices. *)
Lemma update_prices_run (w : MarketService.World float)
    (prices : gmap string float) (symbol : string) (symbols : list string) :
  unique_tickers (MarketService.db w) →
  requested_symbols (MarketService.db w) = symbol :: symbols →
  get_prices (symbol :: symbols) = Some prices → prices ≠ ∅ →
  let updates :=
    price_updates prices
      (AssetRepository.get_all_active (MarketService.db w)) in
  MarketService._update_prices decimal_of_str get_prices w
  = MarketService.mkWorld
      (foldl (persist_one decimal_of_str) (MarketService.db w) updates)
      (MarketService.trace w
       ++ [MarketService.FeedCall (symbol :: symbols); MarketService.Commit]
       ++ match updates with
          | [] => []
          | _ => [MarketService.Broadcast
                    (MarketService.Message.mk float "market_update"
                       ((λ u : Z * Asset * float, (ticker u.1.2, u.2))
                        <$> updates))]
          end).
Proof.
  intros Hu Hsym Hfeed Hne updates.
  unfold MarketService._update_prices. cbn [pending open_session].
  rewrite fetch_live_prices_eq, ticker_map_symbols, Hsym by done.
  cbv zeta. rewrite Hfeed.
  rewrite decide_False by done.
  rewrite ticker_map_unique by done.
  run_session.
  rewrite (persist_loop_run decimal_of_str)
    by (intros a Ha; by apply id_map_active).
  cbn [pending committed open_session]. fold updates.
  rewrite flush_same by apply (persist_fold_frame decimal_of_str).
  rewrite <- !app_assoc. cbn [app].
  destruct updates; [done|].
  unfold MarketService._broadcast_updates. by rewrite <- !app_assoc.
Qed.

End MarketCycle.

(** C8. A cycle that obtains no prices changes nothing that can be
    seen.  With an empty active-asset map, or with no feed-symbol-valid
    entry in it, [_update_prices] returns the world it was given: no feed
    call, no write, no commit, no broadcast.  When the feed call raises
    (or answers with an empty dictionary) the failure is absorbed: the
    only event of the cycle is the feed call; the store (every current
    price, the price history) is untouched, nothing is committed and
    nothing is broadcast. *)
Theorem update_prices_without_prices {float : Type}
    (decimal_of_str : float → Decimal.t)
    (get_prices : list string → option (gmap string float))
    (w : MarketService.World float) :
  let ticker_map := AssetRepository.get_ticker_to_binance_map (MarketService.db w) in
  let symbols := filter feed_symbol_valid ticker_map.*2 in
  let w' := MarketService._update_prices decimal_of_str get_prices w in
  (ticker_map = [] ∨ symbols = [] → w' = w)
  ∧ (symbols ≠ [] →
     get_prices symbols = None ∨ get_prices symbols = Some ∅ →
     MarketService.db w' = MarketService.db w
     ∧ MarketService.trace w'
       = MarketService.trace w ++ [MarketService.FeedCall symbols]).
Proof.
  intros ticker_map symbols w'. subst w'. split.
  - intros Hempty.
    assert (Hsym : symbols = []) by (destruct Hempty as [H|H]; [|done];
      subst symbols; by rewrite H).
    rewrite (update_prices_skip decimal_of_str get_prices w (MarketService.trace w)).
    + by destruct w.
    + rewrite fetch_live_prices_eq. fold ticker_map. fold symbols.
      by rewrite Hsym.
  - intros Hsym Hfeed.
    rewrite (update_prices_skip decimal_of_str get_prices w
               (MarketService.trace w ++ [MarketService.FeedCall symbols]));
      [done|].
    rewrite fetch_live_prices_eq. fold ticker_map. fold symbols.
    destruct symbols as [|symbol symbols']; [done|]. cbv zeta.
    by destruct Hfeed as [-> | ->].
Qed.

Lemma update_prices_without_prices_witness :
  MarketService._update_prices (λ d, d) feed_btc
    (MarketService.mkWorld st_invalid_symbol [])
  = MarketService.mkWorld st_invalid_symbol []
  ∧ MarketService._update_prices (λ d, d) feed_down
      (MarketService.mkWorld st_market [])
    = MarketService.mkWorld st_market
        [MarketService.FeedCall ["BTCUSDT"; "ETHUSDT"]].
Proof.
  split.
  - apply (update_prices_without_prices (λ d, d) feed_btc
             (MarketService.mkWorld st_invalid_symbol [])).
    right. vm_compute; reflexivity.
  - destruct (update_prices_without_prices (λ d, d) feed_down
                (MarketService.mkWorld st_market [])) as [_ H].
    destruct H as [Hdb Htr].
    + vm_compute; discriminate.
    + left. reflexivity.
    + destruct (MarketService._update_prices _ _ _) as [db' tr'].
      cbn in Hdb, Htr. rewrite Hdb, Htr. vm_compute; reflexivity.
Defined.

(** C9. In a successful cycle (the feed answers with a non-empty
    dictionary) exactly the active assets whose feed symbol has a fetched
    price get that price as [current_price], every other asset row is
    untouched; one PriceHistory row is appended for each of them (also
    when the price did not change), nothing else is written; the writes
    are committed once, after the feed call, and after the commit one
    [market_update] message with the whole batch is broadcast when the
    batch is not empty. *)
Theorem update_prices_success {float : Type}
    (decimal_of_str : float → Decimal.t)
    (get_prices : list string → option (gmap string float))
    (w : MarketService.World float) (prices : gmap string float) :
  let db := MarketService.db w in
  let symbols := requested_symbols db in
  unique_tickers db →
  symbols ≠ [] → get_prices symbols = Some prices → prices ≠ ∅ →
  let updates := price_updates prices (AssetRepository.get_all_active db) in
  let w' := MarketService._update_prices decimal_of_str get_prices w in
  assets (MarketService.db w') = apply_prices decimal_of_str prices <$> assets db
  ∧ price_history (MarketService.db w')
    = price_history db
      ++ ((λ u : Z * Asset * float, mkPriceHistory u.1.1 (decimal_of_str u.2))
          <$> updates)
  ∧ (∀ aid a p, ((aid, a), p) ∈ updates
       ↔ assets db !! aid = Some a ∧ is_active a = true
         ∧ prices !! binance_symbol a = Some p)
  ∧ NoDup updates.*1.*1
  ∧ users (MarketService.db w') = users db
  ∧ portfolios (MarketService.db w') = portfolios db
  ∧ transactions (MarketService.db w') = transactions db
  ∧ MarketService.trace w'
    = MarketService.trace w
      ++ [MarketService.FeedCall symbols; MarketService.Commit]
      ++ match updates with
         | [] => []
         | _ => [MarketService.Broadcast
                   (MarketService.Message.mk float "market_update"
                      ((λ u : Z * Asset * float, (ticker u.1.2, u.2))
                       <$> updates))]
         end.
Proof.
  intros db symbols Hu Hsym Hfeed Hne updates w'.
  destruct symbols as [|symbol symbols'] eqn:Hs; [done|].
  assert (Hrun := update_prices_run decimal_of_str get_prices w prices
                    symbol symbols' Hu Hs Hfeed Hne).
  cbv zeta in Hrun. fold db in Hrun. fold updates in Hrun.
  subst w'. rewrite Hrun. cbn [MarketService.db MarketService.trace].
  destruct (persist_fold_frame decimal_of_str db updates)
    as (Husers & Hport & Htx & Hhist).
  assert (Hnd : NoDup updates.*1.*1).
  { apply price_updates_nodup. unfold AssetRepository.get_all_active.
    apply (nodup_fmap_filter fst). apply NoDup_fst_map_to_list. }
  assert (Helem : ∀ aid a p, ((aid, a), p) ∈ updates
            ↔ assets db !! aid = Some a ∧ is_active a = true
              ∧ prices !! binance_symbol a = Some p).
  { intros aid a p. subst updates. rewrite price_updates_elem. cbn.
    unfold AssetRepository.get_all_active, AssetRepository.get_all.
    rewrite list_elem_of_filter, elem_of_map_to_list. cbn. tauto. }
  split; [|done].
  apply map_eq. intros i. rewrite lookup_fmap.
  destruct (assets db !! i) as [a|] eqn:Hi; cbn.
  - unfold apply_prices.
    destruct (is_active a) eqn:Hact;
      [destruct (prices !! binance_symbol a) as [p|] eqn:Hp|].
    + pose proof (persist_fold_updated decimal_of_str db updates ((i, a), p)
                    Hnd) as Hupd.
      cbn in Hupd. rewrite Hupd by (by apply Helem). by rewrite Hi.
    + rewrite persist_fold_other; [done|]. intros Hin.
      apply list_elem_of_fmap in Hin as (a' & -> & Ha').
      apply list_elem_of_fmap in Ha' as ([[i' a''] p'] & -> & Hu').
      apply Helem in Hu' as (Hl & _ & Hp'). cbn in Hi. congruence.
    + rewrite persist_fold_other; [done|]. intros Hin.
      apply list_elem_of_fmap in Hin as (a' & -> & Ha').
      apply list_elem_of_fmap in Ha' as ([[i' a''] p'] & -> & Hu').
      apply Helem in Hu' as (Hl & Hact' & _). cbn in Hi. congruence.
  - rewrite persist_fold_other; [done|]. intros Hin.
    apply list_elem_of_fmap in Hin as (a' & -> & Ha').
    apply list_elem_of_fmap in Ha' as ([[i' a''] p'] & -> & Hu').
    apply Helem in Hu' as (Hl & _ & _). cbn in Hi. congruence.
Qed.

Lemma update_prices_success_witness :
  let w' := MarketService._update_prices (λ d, d) feed_btc
              (MarketService.mkWorld st_market []) in
  assets (MarketService.db w')
  = {[ 7 := set_current_price (D 45000 0) btc; 8 := eth; 9 := old ]}
  ∧ price_history (MarketService.db w') = [mkPriceHistory 7 (D 45000 0)]
  ∧ MarketService.trace w'
    = [MarketService.FeedCall ["BTCUSDT"; "ETHUSDT"]; MarketService.Commit;
       MarketService.Broadcast
         (MarketService.Message.mk _ "market_update" [("BTC", D 45000 0)])].
Proof.
  intros w'.
  destruct (update_prices_success (λ d, d) feed_btc
              (MarketService.mkWorld st_market []) {[ "BTCUSDT" := D 45000 0 ]})
    as (Hassets & Hhist & _ & _ & _ & _ & _ & Htrace).
  - compute_done.
  - vm_compute; discriminate.
  - reflexivity.
  - apply (bool_decide_unpack _). vm_compute. exact I.
  - subst w'. rewrite Hassets, Hhist, Htrace.
    repeat split; vm_compute; reflexivity.
Defined.

(** * Further properties of the trade engine *)

Lemma filter_key_absent {A B : Type} `{EqDecision B} (f : A → B) (v : B)
    (l : list A) :
  (∀ x, x ∈ l → f x ≠ v) → filter (λ y, f y = v) l = [].
Proof.
  intros H. induction l as [|y l IH]; [done|].
  rewrite filter_cons. rewrite decide_False by (apply H, list_elem_of_here).
  apply IH. intros x Hx. by apply H, list_elem_of_further.
Qed.

Lemma filter_key_unique {A B : Type} `{EqDecision B} (f : A → B) (l : list A)
    (x : A) :
  NoDup (f <$> l) → x ∈ l → filter (λ y, f y = f x) l = [x].
Proof.
  induction l as [|y l IH]; intros Hnd Hx; [by inversion Hx|].
  cbn in Hnd. apply NoDup_cons in Hnd as [Hy Hnd].
  rewrite filter_cons. apply elem_of_cons in Hx as [->|Hx].
  - rewrite decide_True by done. f_equal.
    apply filter_key_absent. intros z Hz Heq. apply Hy. rewrite <- Heq.
    apply list_elem_of_fmap. by exists z.
  - rewrite decide_False; [by apply IH|].
    intros Heq. apply Hy. rewrite Heq. apply list_elem_of_fmap. by exists x.
Qed.

Lemma nodup_fmap_inj {A B : Type} (f : A → B) (l : list A) (x y : A) :
  NoDup (f <$> l) → x ∈ l → y ∈ l → f x = f y → x = y.
Proof.
  induction l as [|z l IH]; intros Hnd Hx Hy Heq; [by inversion Hx|].
  cbn in Hnd. apply NoDup_cons in Hnd as [Hz Hnd].
  apply elem_of_cons in Hx as [->|Hx]; apply elem_of_cons in Hy as [->|Hy].
  - done.
  - exfalso. apply Hz. rewrite Heq. apply list_elem_of_fmap. by exists y.
  - exfalso. apply Hz. rewrite <- Heq. apply list_elem_of_fmap. by exists x.
  - by apply IH.
Qed.

Lemma get_by_ticker_absent (s : Session) (t : string) :
  (∀ a, a ∈ AssetRepository.get_all (pending s) → ticker a.2 ≠ t) →
  AssetRepository.get_by_ticker t s = (Ok None, s).
Proof.
  intros H. unfold AssetRepository.get_by_ticker. run_session.
  by rewrite (filter_key_absent (λ a : Z * Asset, ticker a.2) t).
Qed.

Lemma get_by_ticker_found (s : Session) (aid : Z) (asset : Asset) :
  unique_tickers (pending s) → assets (pending s) !! aid = Some asset →
  AssetRepository.get_by_ticker (ticker asset) s = (Ok (Some (aid, asset)), s).
Proof.
  intros Hu Ha. unfold AssetRepository.get_by_ticker. run_session.
  by rewrite (filter_key_unique (λ a : Z * Asset, ticker a.2) _ (aid, asset))
    by (try done; by apply elem_of_map_to_list).
Qed.

(** X1. The rejections of [execute_trade] and their order.  With the
    unique-ticker constraint: an unknown user is answered with 404
    "User not found." whatever the ticker, the amount and the type are; a
    known user asking for an unknown ticker with 404 "Asset doesn't
    exist.", also when the type is invalid; for a known user and asset a
    type other than "BUY" and "SELL" with 400 "Invalid transaction type",
    and a BUY whose cost exceeds the balance with 400 "Insufficient
    funds" carrying the balance and the cost.  The session is left as it
    was in every case. *)
Theorem execute_trade_rejection_order (db : Store) (now uid : Z) (t : string)
    (amt : Decimal.t) (trade_type : string) :
  unique_tickers db →
  let run := TradeService.execute_trade now uid (TradeRequest.mk t amt)
               trade_type (open_session db) in
  (users db !! uid = None →
   run = (Raise (HTTPException 404 UserNotFound), open_session db))
  ∧ (is_Some (users db !! uid) →
     (∀ a, a ∈ AssetRepository.get_all db → ticker a.2 ≠ t) →
     run = (Raise (HTTPException 404 (AssetNotFound t)), open_session db))
  ∧ (∀ user aid asset,
       users db !! uid = Some user → assets db !! aid = Some asset →
       ticker asset = t →
       (trade_type ≠ "BUY" → trade_type ≠ "SELL" →
        run = (Raise (HTTPException 400 InvalidTransactionType),
               open_session db))
       ∧ (trade_type = "BUY" →
          (balance user <? current_price asset * amt)%D = true →
          run = (Raise (HTTPException 400
                          (InsufficientFunds (balance user)
                             (current_price asset * amt)%D)),
                 open_session db))).
Proof.
  intros Hu run. subst run. split; [|split].
  - intros Hnone.
    destruct (AssetRepository.get_by_ticker t (open_session db))
      as [[asset|e] s1] eqn:Ha.
    + assert (s1 = open_session db) as ->.
      { revert Ha. unfold AssetRepository.get_by_ticker. run_session.
        destruct (filter _ _) as [|r [|r' rows]]; cbn; intros H;
          try discriminate; by injection H as _ <-. }
      by apply (execute_trade_user_missing db now uid (TradeRequest.mk t amt)
                  trade_type asset).
    + exfalso. revert Ha. unfold AssetRepository.get_by_ticker. run_session.
      destruct (filter _ _) as [|r [|r' rows]] eqn:Hf; cbn; try discriminate.
      intros _.
      assert (Hr : r ∈ filter (λ a : Z * Asset, ticker a.2 = t)
                     (AssetRepository.get_all db))
        by (rewrite Hf; apply list_elem_of_here).
      assert (Hr' : r' ∈ filter (λ a : Z * Asset, ticker a.2 = t)
                      (AssetRepository.get_all db))
        by (rewrite Hf; apply list_elem_of_further, list_elem_of_here).
      apply list_elem_of_filter in Hr as [Htr Hr].
      pose proof (filter_key_unique (λ a : Z * Asset, ticker a.2) _ r Hu Hr)
        as Hone.
      cbn in Hone. rewrite Htr in Hone. rewrite Hf in Hone. discriminate.
  - intros [user Huser] Hnot.
    pose proof (get_by_ticker_absent (open_session db) t Hnot) as Ha.
    unfold_trade. run_session. by rewrite Huser, Ha.
  - intros user aid asset Huser Hasset <-.
    pose proof (get_by_ticker_found (open_session db) aid asset Hu Hasset) as Ha.
    split.
    + intros Hbuy Hsell.
      by apply (execute_trade_invalid_type db now uid aid user asset).
    + intros -> Hb.
      by apply (execute_trade_insufficient_funds db now uid aid user asset).
Qed.

Lemma execute_trade_rejection_order_witness :
  unique_tickers st_poor
  ∧ TradeService.execute_trade 5 9 (TradeRequest.mk "BTC" (D 1 0)) "HOLD"
      (open_session st_poor)
    = (Raise (HTTPException 404 UserNotFound), open_session st_poor)
  ∧ TradeService.execute_trade 5 1 (TradeRequest.mk "DOGE" (D 1 0)) "HOLD"
      (open_session st_poor)
    = (Raise (HTTPException 404 (AssetNotFound "DOGE")), open_session st_poor)
  ∧ TradeService.execute_trade 5 1 (TradeRequest.mk "BTC" (D 1 0)) "buy"
      (open_session st_poor)
    = (Raise (HTTPException 400 InvalidTransactionType), open_session st_poor)
  ∧ TradeService.execute_trade 5 1 (TradeRequest.mk "BTC" (D 1 0)) "BUY"
      (open_session st_poor)
    = (Raise (HTTPException 400 (InsufficientFunds (D 50 0) (D 100 0))),
       open_session st_poor).
Proof.
  assert (Hu : unique_tickers st_poor) by compute_done.
  split; [exact Hu|].
  destruct (execute_trade_rejection_order st_poor 5 9 "BTC" (D 1 0) "HOLD" Hu)
    as (Huser & _ & _).
  destruct (execute_trade_rejection_order st_poor 5 1 "DOGE" (D 1 0) "HOLD" Hu)
    as (_ & Hasset & _).
  destruct (execute_trade_rejection_order st_poor 5 1 "BTC" (D 1 0) "buy" Hu)
    as (_ & _ & Htype).
  destruct (execute_trade_rejection_order st_poor 5 1 "BTC" (D 1 0) "BUY" Hu)
    as (_ & _ & Hfunds).
  split; [apply Huser; reflexivity|].
  split; [apply Hasset; [by eexists|apply Forall_forall; compute_done]|].
  split.
  - apply (Htype (mkUser "bob" (D 50 0)) 7 btc); try reflexivity; discriminate.
  - apply (Hfunds (mkUser "bob" (D 50 0)) 7 btc); reflexivity.
Defined.

Lemma is_Some_alter {K A : Type} `{Countable K} (f : A → A) (i j : K)
    (m : gmap K A) :
  is_Some (alter f i m !! j) ↔ is_Some (m !! j).
Proof.
  destruct (decide (i = j)) as [->|Hne].
  - rewrite lookup_alter_eq. by rewrite fmap_is_Some.
  - by rewrite lookup_alter_ne.
Qed.


Lemma ledger_of_snoc_other (uid other : Z) (l : list Transaction)
    (tx : Transaction) :
  tx_user_id tx = uid → other ≠ uid →
  filter (λ tx, tx_user_id tx = other) (l ++ [tx])
  = filter (λ tx, tx_user_id tx = other) l.
Proof.
  intros Htx Hne. rewrite filter_app, filter_cons.
  rewrite decide_False by congruence. by rewrite filter_nil, app_nil_r.
Qed.

Lemma buy_store_other (db : Store) (now uid aid other : Z) (asset : Asset)
    (amt : Decimal.t) :
  other ≠ uid →
  let db' := buy_store now uid aid asset amt db in
  users db' !! other = users db !! other
  ∧ holdings_of other db' = holdings_of other db
  ∧ ledger_of other db' = ledger_of other db.
Proof.
  intros Hne db'. subst db'. unfold holdings_of, ledger_of, buy_store.
  cbn [users portfolios transactions]. split; [|split].
  - by rewrite lookup_alter_ne.
  - apply map_filter_strong_ext_1. intros k q. cbn.
    destruct (decide (k = (uid, aid))) as [->|Hk]; [cbn; split; intros [? _]; congruence|].
    destruct (portfolios db !! (uid, aid)).
    + by rewrite lookup_alter_ne.
    + by rewrite lookup_insert_ne.
  - by apply (ledger_of_snoc_other uid).
Qed.

Lemma sell_store_other (db : Store) (now uid aid other : Z) (asset : Asset)
    (amt : Decimal.t) :
  other ≠ uid →
  let db' := sell_store now uid aid asset amt db in
  users db' !! other = users db !! other
  ∧ holdings_of other db' = holdings_of other db
  ∧ ledger_of other db' = ledger_of other db.
Proof.
  intros Hne db'. subst db'. unfold holdings_of, ledger_of, sell_store.
  cbn [users portfolios transactions]. split; [|split].
  - by rewrite lookup_alter_ne.
  - apply map_filter_strong_ext_1. intros k q. cbn.
    destruct (decide (k = (uid, aid))) as [->|Hk]; [cbn; split; intros [? _]; congruence|].
    by rewrite lookup_alter_ne.
  - by apply (ledger_of_snoc_other uid).
Qed.

Lemma reset_store_other (db : Store) (uid other : Z) :
  other ≠ uid →
  let db' := reset_store uid db in
  users db' !! other = users db !! other
  ∧ holdings_of other db' = holdings_of other db
  ∧ ledger_of other db' = ledger_of other db.
Proof.
  intros Hne db'. subst db'. unfold holdings_of, ledger_of, reset_store.
  cbn [users portfolios transactions]. split; [|split].
  - by rewrite lookup_alter_ne.
  - apply map_filter_filter_l. intros k q _ Hk. cbn in *. congruence.
  - rewrite list_filter_filter. apply list_filter_iff. intros tx.
    split; [tauto|]. intros Htx. split; [done|congruence].
Qed.

(** X3. Accounts are isolated from each other.  Neither a trade nor an
    account reset of one user, whatever its outcome, changes another
    user's balance, holdings or ledger entries. *)
Theorem trade_engine_user_isolation {float : Type}
    (to_float : Decimal.t → float) (db : Store) (now uid other : Z)
    (trade_data : TradeRequest.t) (trade_type : string) :
  other ≠ uid →
  let after_trade :=
    committed (TradeService.execute_trade now uid trade_data trade_type
                 (open_session db)).2 in
  let after_reset :=
    committed (TradeService.reset_account to_float uid (open_session db)).2 in
  (users after_trade !! other = users db !! other
   ∧ holdings_of other after_trade = holdings_of other db
   ∧ ledger_of other after_trade = ledger_of other db)
  ∧ (users after_reset !! other = users db !! other
     ∧ holdings_of other after_reset = holdings_of other db
     ∧ ledger_of other after_reset = ledger_of other db).
Proof.
  intros Hne after_trade after_reset. split.
  - subst after_trade. destruct trade_data as [t amt].
    destruct (TradeService.execute_trade now uid (TradeRequest.mk t amt)
                trade_type (open_session db)) as [r s1] eqn:Hrun.
    cbn [snd].
    destruct (execute_trade_cases _ _ _ _ _ _ _ _ Hrun)
      as [-> | [(user & aid & asset & _ & _ & _ & ->)
               | (user & aid & asset & q & _ & _ & _ & _ & ->)]];
      cbn [committed open_session].
    + done.
    + by apply buy_store_other.
    + by apply sell_store_other.
  - subst after_reset.
    destruct (TradeService.reset_account to_float uid (open_session db))
      as [r s1] eqn:Hrun.
    cbn [snd].
    destruct (reset_account_cases to_float _ _ _ _ Hrun) as [-> | ->];
      cbn [committed open_session].
    + done.
    + by apply reset_store_other.
Qed.

Lemma trade_engine_user_isolation_witness :
  let after_trade :=
    committed (TradeService.execute_trade 9 1 (TradeRequest.mk "BTC" (D 2 0))
                 "SELL" (open_session st_holding)).2 in
  let after_reset :=
    committed (TradeService.reset_account (λ d, d) 1
                 (open_session st_holding)).2 in
  users after_trade !! 1 = Some (mkUser "carol" (D 1200 0))
  ∧ users after_reset !! 1 = Some (mkUser "carol" (D 10000000 (-2)))
  ∧ (users after_trade !! 2 = users st_holding !! 2
     ∧ holdings_of 2 after_trade = holdings_of 2 st_holding
     ∧ ledger_of 2 after_trade = ledger_of 2 st_holding)
  ∧ (users after_reset !! 2 = users st_holding !! 2
     ∧ holdings_of 2 after_reset = holdings_of 2 st_holding
     ∧ ledger_of 2 after_reset = ledger_of 2 st_holding).
Proof.
  intros after_trade after_reset.
  split; [by vm_compute|]. split; [by vm_compute|].
  apply (trade_engine_user_isolation (λ d, d) st_holding 9 1 2
           (TradeRequest.mk "BTC" (D 2 0)) "SELL").
  lia.
Defined.

(** ** Referential integrity *)

Lemma buy_store_refs (db : Store) (now uid aid : Z) (user : User)
    (asset : Asset) (amt : Decimal.t) :
  users db !! uid = Some user → assets db !! aid = Some asset →
  referential_integrity db →
  referential_integrity (buy_store now uid aid asset amt db).
Proof.
  intros Hu Ha (Hp & Ht & Hh). unfold referential_integrity, buy_store.
  cbn [users assets portfolios transactions price_history].
  split; [|split; [|done]].
  - intros k q Hk. rewrite is_Some_alter.
    destruct (decide (k = (uid, aid))) as [->|Hne].
    + cbn. split; by eexists.
    + apply (Hp k q). destruct (portfolios db !! (uid, aid)).
      * by rewrite lookup_alter_ne in Hk.
      * by rewrite lookup_insert_ne in Hk.
  - apply Forall_app. split.
    + eapply Forall_impl; [exact Ht|]. intros tx. cbn.
      by rewrite is_Some_alter.
    + apply Forall_singleton. cbn. rewrite is_Some_alter. split; by eexists.
Qed.

Lemma sell_store_refs (db : Store) (now uid aid : Z) (user : User)
    (asset : Asset) (amt : Decimal.t) :
  users db !! uid = Some user → assets db !! aid = Some asset →
  referential_integrity db →
  referential_integrity (sell_store now uid aid asset amt db).
Proof.
  intros Hu Ha (Hp & Ht & Hh). unfold referential_integrity, sell_store.
  cbn [users assets portfolios transactions price_history].
  split; [|split; [|done]].
  - intros k q Hk. rewrite is_Some_alter.
    assert (is_Some (portfolios db !! k)) as [q0 Hq0]
      by (apply (is_Some_alter (λ q, q - amt)%D (uid, aid)); by eexists).
    by apply (Hp k q0).
  - apply Forall_app. split.
    + eapply Forall_impl; [exact Ht|]. intros tx. cbn.
      by rewrite is_Some_alter.
    + apply Forall_singleton. cbn. rewrite is_Some_alter. split; by eexists.
Qed.

Lemma reset_store_refs (db : Store) (uid : Z) :
  referential_integrity db → referential_integrity (reset_store uid db).
Proof.
  intros (Hp & Ht & Hh). unfold referential_integrity, reset_store.
  cbn [users assets portfolios transactions price_history].
  split; [|split; [|done]].
  - intros k q Hk. rewrite is_Some_alter.
    apply map_lookup_filter_Some in Hk as [Hk _]. by apply (Hp k q).
  - apply Forall_forall. intros tx Htx.
    apply list_elem_of_filter in Htx as [_ Htx]. rewrite is_Some_alter.
    by apply (proj1 (Forall_forall _ _) Ht).
Qed.

(** X4. The trade engine keeps the foreign keys of the schema.  If every
    holding, ledger entry and price-history row refers to an existing
    user and asset, it still does after any call of [execute_trade] or
    [reset_account], successful or rejected. *)
Theorem trade_engine_preserves_references {float : Type}
    (to_float : Decimal.t → float) (db : Store) (now uid : Z)
    (trade_data : TradeRequest.t) (trade_type : string) :
  referential_integrity db →
  referential_integrity
    (committed (TradeService.execute_trade now uid trade_data trade_type
                  (open_session db)).2)
  ∧ referential_integrity
      (committed (TradeService.reset_account to_float uid
                    (open_session db)).2).
Proof.
  intros Hri. split.
  - destruct trade_data as [t amt].
    destruct (TradeService.execute_trade now uid (TradeRequest.mk t amt)
                trade_type (open_session db)) as [r s1] eqn:Hrun.
    cbn [snd].
    destruct (execute_trade_cases _ _ _ _ _ _ _ _ Hrun)
      as [-> | [(user & aid & asset & Hu & Ha & _ & ->)
               | (user & aid & asset & q & Hu & Ha & _ & _ & ->)]];
      cbn [committed open_session].
    + done.
    + by apply (buy_store_refs db now uid aid user).
    + by apply (sell_store_refs db now uid aid user).
  - destruct (TradeService.reset_account to_float uid (open_session db))
      as [r s1] eqn:Hrun.
    cbn [snd].
    destruct (reset_account_cases to_float _ _ _ _ Hrun) as [-> | ->];
      cbn [committed open_session]; [done|by apply reset_store_refs].
Qed.

Lemma trade_engine_preserves_references_witness :
  referential_integrity st_holding
  ∧ referential_integrity
      (committed (TradeService.execute_trade 9 1
                    (TradeRequest.mk "BTC" (D 2 0)) "BUY"
                    (open_session st_holding)).2)
  ∧ referential_integrity
      (committed (TradeService.reset_account (λ d, d) 1
                    (open_session st_holding)).2).
Proof.
  assert (H : referential_integrity st_holding) by compute_done.
  split; [exact H|].
  exact (trade_engine_preserves_references (λ d, d) st_holding 9 1
           (TradeRequest.mk "BTC" (D 2 0)) "BUY" H).
Defined.

(** ** [get_wallet]: what it raises and what it leaves *)

Lemma replay_raise (asset_of : Z → option Asset) (txs : list Transaction)
    (m : gmap string Stats.t) (e : exn) :
  TradeService.replay asset_of txs m = Raise e →
  e = AttributeError
  ∧ ∃ tx, tx ∈ txs ∧ asset_of (tx_asset_id tx) = None.
Proof.
  revert m. induction txs as [|tx txs IH]; intros m H; [discriminate|].
  cbn [TradeService.replay] in H.
  destruct (asset_of (tx_asset_id tx)) as [asset|] eqn:Ha.
  - rewrite update_stats_total in H. apply IH in H as (-> & tx' & Hin & Hnone).
    split; [done|]. exists tx'. split; [by apply list_elem_of_further|done].
  - injection H as <-. split; [done|]. exists tx.
    split; [apply list_elem_of_here|done].
Qed.

(** X5. [get_wallet] only reads, and raises for two reasons only.  For
    every session, the call leaves the session (pending and committed
    store) exactly as it was.  It raises 404 "User not found." when the
    user does not exist, and otherwise fails only on a ledger entry of
    the user whose asset row is missing (an [AttributeError] on
    [tx.asset.ticker]); in particular the division in the average-price
    replay never raises. *)
Theorem get_wallet_read_only {float : Type} (to_float : Decimal.t → float)
    (s : Session) (uid : Z) :
  let run := TradeService.get_wallet to_float uid s in
  run.2 = s
  ∧ match run.1 with
    | Ok wallet => is_Some (users (pending s) !! uid)
    | Raise e =>
        (e = HTTPException 404 UserNotFound ∧ users (pending s) !! uid = None)
        ∨ (e = AttributeError
           ∧ is_Some (users (pending s) !! uid)
           ∧ ∃ tx, tx ∈ transactions (pending s) ∧ tx_user_id tx = uid
                   ∧ assets (pending s) !! tx_asset_id tx = None)
    end.
Proof.
  intros run. subst run.
  unfold TradeService.get_wallet, UserRepository.get_by_id_with_portfolio,
    TransactionRepository.get_by_user.
  run_session.
  destruct (users (pending s) !! uid) as [user|] eqn:Hu; cbn [fst snd];
    [|split; [done|by left]].
  destruct (TradeService.replay _ _ _) as [m|e] eqn:Hm.
  - destruct (TradeService.build_assets _ _ _ _ _) as [l tot]. cbn.
    split; [done|by eexists].
  - cbn. split; [done|]. right.
    apply replay_raise in Hm as (-> & tx & Hin & Hnone).
    split; [done|]. split; [by eexists|]. exists tx.
    rewrite !sort_by_perm in Hin.
    apply list_elem_of_filter in Hin as [Huid Hin]. done.
Qed.

Lemma user_portfolio_reset (uid : Z) (db : Store) :
  user_portfolio uid (reset_store uid db) = [].
Proof.
  unfold user_portfolio, reset_store. cbn [portfolios assets].
  rewrite (filter_key_absent (λ kv : Z * Z * Decimal.t, kv.1.1) uid); [done|].
  intros [k q] Hin. apply elem_of_map_to_list in Hin.
  by apply map_lookup_filter_Some in Hin as [_ Hne].
Qed.

(** X6. A reset account shows an empty wallet.  After a successful
    [reset_account], [get_wallet] for the same user returns the user name,
    the balance [float(Decimal("100000.00"))], no assets, and a total
    value equal to that balance. *)
Theorem reset_account_then_wallet {float : Type}
    (to_float : Decimal.t → float) (db : Store) (uid : Z) (user : User) :
  users db !! uid = Some user →
  let s1 := (TradeService.reset_account to_float uid (open_session db)).2 in
  TradeService.get_wallet to_float uid (open_session (committed s1))
  = (Ok (Wallet.mk float (username user)
           (to_float TradeService.INITIAL_BALANCE) []
           (to_float TradeService.INITIAL_BALANCE)),
     open_session (committed s1)).
Proof.
  intros Hu s1. subst s1. rewrite (reset_account_run to_float db uid user Hu).
  cbn [snd committed].
  rewrite (get_wallet_run to_float (reset_store uid db) uid
             (set_balance TradeService.INITIAL_BALANCE user) ∅).
  - by rewrite user_portfolio_reset.
  - unfold reset_store; cbn [users]. by rewrite lookup_alter_eq, Hu.
  - by rewrite ledger_of_reset.
Qed.

Lemma reset_account_then_wallet_witness :
  let s1 := (TradeService.reset_account (λ d, d) 1
               (open_session st_holding)).2 in
  TradeService.get_wallet (λ d, d) 1 (open_session (committed s1))
  = (Ok (Wallet.mk _ "carol" (D 10000000 (-2)) [] (D 10000000 (-2))),
     open_session (committed s1)).
Proof.
  exact (reset_account_then_wallet (λ d, d) st_holding 1
           (mkUser "carol" (D 1000 0)) eq_refl).
Defined.

(** ** Trading the exact balance or the whole holding *)




(** * Further properties of the market synchronisation *)

Section MarketInvariants.
Context {float : Type} (decimal_of_str : float → Decimal.t).

Local Abbreviation persist := (λ (aid : Z) (p : float) (st : Store),
  set_price_history (λ l, l ++ [mkPriceHistory aid (decimal_of_str p)])
    (set_assets (alter (set_current_price (decimal_of_str p)) aid) st))
  (only parsing).

(** The persisting loop never raises, and keeps every property of the
    collected updates and the pending store that one
    [_persist_asset_update] keeps. *)
Lemma persist_loop_inv (P : list (string * float) → Store → Prop)
    (items : list (string * string)) (prices : gmap string float)
    (assets_map : gmap string Z) (ups : list (string * float)) (s : Session) :
  (∀ ups st t sym aid p,
     (t, sym) ∈ items → prices !! sym = Some p → assets_map !! t = Some aid →
     P ups st → P (ups ++ [(t, p)]) (persist aid p st)) →
  P ups (pending s) →
  ∃ ups' st',
    MarketService.persist_loop decimal_of_str items prices assets_map ups s
    = (Ok ups', mkSession (committed s) st')
    ∧ P ups' st'.
Proof.
  revert ups s. induction items as [|[t sym] items IH]; intros ups s Hstep HP.
  - cbn. exists ups, (pending s). by destruct s.
  - cbn [MarketService.persist_loop].
    assert (Hrest : ∀ ups st t' sym' aid p,
              (t', sym') ∈ items → prices !! sym' = Some p →
              assets_map !! t' = Some aid →
              P ups st → P (ups ++ [(t', p)]) (persist aid p st)).
    { intros ups0 st t' sym' aid p Hin. apply Hstep.
      by apply list_elem_of_further. }
    destruct (prices !! sym) as [p|] eqn:Hp;
      [destruct (assets_map !! t) as [aid|] eqn:Ha|]; [|by apply IH..].
    unfold MarketService._persist_asset_update, AssetRepository.update_price,
      PriceHistoryRepository.create.
    run_session.
    destruct (IH (ups ++ [(t, p)])
                (mkSession (committed s) (persist aid p (pending s))) Hrest)
      as (ups' & st' & Hrun & HP').
    { cbn [pending]. apply (Hstep ups (pending s) t sym aid p);
        [apply list_elem_of_here|done..]. }
    exists ups', st'. split; [exact Hrun|done].
Qed.

Context (get_prices : list string → option (gmap string float)).

(** The ways a cycle ends, with a property [P] of the broadcast data and
    the store that every persisted update keeps. *)
Lemma update_prices_inv (P : list (string * float) → Store → Prop)
    (w : MarketService.World float) :
  let ticker_map :=
    AssetRepository.get_ticker_to_binance_map (MarketService.db w) in
  let syms := filter feed_symbol_valid ticker_map.*2 in
  (∀ prices ups st t sym aid p,
     get_prices syms = Some prices → (t, sym) ∈ ticker_map →
     prices !! sym = Some p →
     AssetRepository.get_ticker_to_id_map (MarketService.db w) !! t = Some aid →
     P ups st → P (ups ++ [(t, p)]) (persist aid p st)) →
  P [] (MarketService.db w) →
  let w' := MarketService._update_prices decimal_of_str get_prices w in
  (MarketService.db w' = MarketService.db w
   ∧ (MarketService.trace w' = MarketService.trace w
      ∨ (syms ≠ []
         ∧ MarketService.trace w'
           = MarketService.trace w ++ [MarketService.FeedCall syms])))
  ∨ (∃ ups, syms ≠ []
       ∧ P ups (MarketService.db w')
       ∧ MarketService.trace w'
         = MarketService.trace w
           ++ [MarketService.FeedCall syms; MarketService.Commit]
           ++ match ups with
              | [] => []
              | _ => [MarketService.Broadcast
                        (MarketService.Message.mk float "market_update" ups)]
              end).
Proof.
  intros ticker_map syms Hstep HP w'. subst w'.
  unfold MarketService._update_prices. cbn [pending open_session].
  rewrite fetch_live_prices_eq. fold ticker_map. fold syms.
  assert (Hdef : syms = filter feed_symbol_valid ticker_map.*2) by done.
  clearbody syms.
  destruct syms as [|sym0 syms0].
  { cbv beta iota. rewrite decide_True by done. left. cbn.
    split; [done|by left]. }
  cbv zeta.
  destruct (get_prices (sym0 :: syms0)) as [prices|] eqn:Hfeed; cbv beta iota.
  2:{ rewrite decide_True by done. left. cbn. split; [done|]. by right. }
  destruct (decide (prices = ∅)) as [->|Hne].
  { left. cbn. split; [done|]. by right. }
  right.
  destruct (persist_loop_inv
              (λ ups st, P ups st ∧ users st = users (MarketService.db w))
              ticker_map prices
              (AssetRepository.get_ticker_to_id_map (MarketService.db w)) []
              (open_session (MarketService.db w)))
    as (ups & st' & Hrun & HP' & Husers).
  { intros ups st t sym aid p Hin Hp Ha [HPst Hus]. split; [|exact Hus].
    by apply (Hstep prices ups st t sym aid p). }
  { done. }
  run_session. rewrite Hrun. cbn [committed pending open_session].
  rewrite flush_same by done.
  exists ups. split; [done|]. split; [done|].
  rewrite <- !app_assoc. cbn [app].
  destruct ups; [done|].
  unfold MarketService._broadcast_updates. by rewrite <- !app_assoc.
Qed.

End MarketInvariants.

(** ** The dictionaries of the asset repository *)

Lemma dict_set_elem {V : Type} (k : string) (v : V) (d : list (string * V))
    (kv : string * V) :
  kv ∈ Dict.set k v d → kv = (k, v) ∨ kv ∈ d.
Proof.
  induction d as [|[k' v'] d IH]; cbn.
  - intros Hin. apply list_elem_of_singleton in Hin. by left.
  - destruct (decide (k = k')) as [->|Hne]; intros Hin.
    + apply elem_of_cons in Hin as [->|Hin]; [by left|].
      right. by apply list_elem_of_further.
    + apply elem_of_cons in Hin as [->|Hin]; [right; apply list_elem_of_here|].
      destruct (IH Hin) as [->|Hd]; [by left|].
      right. by apply list_elem_of_further.
Qed.

Lemma comprehension_elem {A V : Type} (key : A → string) (val : A → V)
    (l : list A) (kv : string * V) :
  kv ∈ Dict.comprehension key val l → ∃ x, x ∈ l ∧ key x = kv.1 ∧ val x = kv.2.
Proof.
  unfold Dict.comprehension.
  assert (H : ∀ d0, kv ∈ foldl (λ d x, Dict.set (key x) (val x) d) d0 l →
                    kv ∈ d0 ∨ ∃ x, x ∈ l ∧ key x = kv.1 ∧ val x = kv.2).
  { induction l as [|y l IH]; intros d0 Hin; cbn in Hin; [by left|].
    destruct (IH _ Hin) as [Hd|(x & Hx & Hk & Hv)].
    - apply dict_set_elem in Hd as [->|Hd]; [|by left].
      right. exists y. split; [apply list_elem_of_here|done].
    - right. exists x. split; [by apply list_elem_of_further|done]. }
  intros Hin. destruct (H [] Hin) as [Hnil|Hx]; [by inversion Hnil|done].
Qed.

Lemma ticker_map_elem (db : Store) (item : string * string) :
  item ∈ AssetRepository.get_ticker_to_binance_map db →
  ∃ a, a ∈ AssetRepository.get_all_active db
       ∧ ticker a.2 = item.1 ∧ binance_symbol a.2 = item.2.
Proof. apply comprehension_elem. Qed.

Lemma id_map_Some (db : Store) (t : string) (aid : Z) :
  AssetRepository.get_ticker_to_id_map db !! t = Some aid →
  ∃ a, assets db !! aid = Some a ∧ ticker a = t.
Proof.
  unfold AssetRepository.get_ticker_to_id_map, AssetRepository.get_all.
  assert (H : ∀ (l : list (Z * Asset)) (m0 : gmap string Z),
            foldl (λ (m : gmap string Z) (a : Z * Asset),
                     <[ticker a.2 := asset_id a]> m) m0 l !! t = Some aid →
            m0 !! t = Some aid ∨ ∃ a, (aid, a) ∈ l ∧ ticker a = t).
  { induction l as [|[i a] l IH]; intros m0 Hl; cbn in Hl; [by left|].
    destruct (IH _ Hl) as [Hm|(b & Hb & Ht)].
    - destruct (decide (ticker a = t)) as [Heq|Hne].
      + cbn in Hm. rewrite Heq, lookup_insert_eq in Hm. injection Hm as <-.
        right. exists a. split; [apply list_elem_of_here|done].
      + cbn in Hm. rewrite lookup_insert_ne in Hm by done. by left.
    - right. exists b. split; [by apply list_elem_of_further|done]. }
  intros Hl. destruct (H _ _ Hl) as [Hm|(a & Ha & Ht)]; [done|].
  exists a. split; [by apply elem_of_map_to_list|done].
Qed.

(** A unique column, read off the rows. *)
Lemma unique_by_lookup (f : Asset → string) (m : gmap Z Asset) :
  NoDup ((λ a : Z * Asset, f a.2) <$> map_to_list m)
  ↔ ∀ i j a b, m !! i = Some a → m !! j = Some b → f a = f b → i = j.
Proof.
  split.
  - intros Hnd i j a b Hi Hj Heq.
    assert (Hij : (i, a) = (j, b)); [|congruence].
    apply (nodup_fmap_inj (λ a : Z * Asset, f a.2) (map_to_list m));
      [done|by apply elem_of_map_to_list..|done].
  - intros Hinj. apply NoDup_fmap_2_strong; [|apply NoDup_map_to_list].
    intros [i a] [j b] Hi Hj Heq. cbn in Heq.
    apply elem_of_map_to_list in Hi, Hj.
    assert (i = j) as -> by (by apply (Hinj i j a b)). congruence.
Qed.

Lemma feed_symbol_valid_chars (s : string) :
  feed_symbol_valid s →
  s ≠ "" ∧ Forall upper_or_digit (list_ascii_of_string s).
Proof.
  unfold feed_symbol_valid, isupper, isalnum. intros H.
  apply andb_prop in H as [H Halnum]. apply andb_prop in H as [Hne Hupper].
  apply andb_prop in Hupper as [_ Hlower].
  apply andb_prop in Halnum as [_ Hall].
  split.
  { intros ->. discriminate. }
  apply Forall_forall. intros c Hc. unfold upper_or_digit.
  apply list_elem_of_In in Hc.
  pose proof (proj1 (forallb_forall _ _) Hall c Hc) as Hcl. cbv beta in Hcl.
  destruct (is_lower_char c) eqn:Hlow.
  - exfalso. apply negb_true_iff in Hlower.
    assert (existsb is_lower_char (list_ascii_of_string s) = true)
      by (apply existsb_exists; by exists c).
    congruence.
  - by rewrite orb_false_r in Hcl.
Qed.

(** ** What [prices_only] keeps *)

Lemma prices_only_refl (db : Store) :
  Forall (λ ph, is_Some (assets db !! ph_asset_id ph)) [] → prices_only db db.
Proof.
  intros _. repeat split; try done. exists []. by rewrite app_nil_r.
Qed.

Lemma prices_only_is_Some (db db' : Store) (aid : Z) :
  prices_only db db' →
  is_Some (assets db' !! aid) ↔ is_Some (assets db !! aid).
Proof.
  intros (_ & _ & _ & Ha & _). specialize (Ha aid).
  rewrite <- (fmap_is_Some static_columns (assets db' !! aid)).
  rewrite <- (fmap_is_Some static_columns (assets db !! aid)).
  by rewrite Ha.
Qed.

Lemma prices_only_trans (db1 db2 db3 : Store) :
  prices_only db1 db2 → prices_only db2 db3 → prices_only db1 db3.
Proof.
  intros H12 H23.
  pose proof H12 as (Hu & Hp & Ht & Ha & new1 & Hh & Hnew1).
  pose proof H23 as (Hu' & Hp' & Ht' & Ha' & new2 & Hh' & Hnew2).
  split; [congruence|]. split; [congruence|]. split; [congruence|].
  split; [intros aid; by rewrite Ha', Ha|].
  exists (new1 ++ new2). split; [by rewrite Hh', Hh, <- app_assoc|].
  apply Forall_app. split; [done|].
  eapply Forall_impl; [exact Hnew2|]. intros ph. cbn.
  by rewrite (prices_only_is_Some db1 db2).
Qed.

Lemma prices_only_static (db db' : Store) (aid : Z) (a' : Asset) :
  prices_only db db' → assets db' !! aid = Some a' →
  ∃ a, assets db !! aid = Some a ∧ static_columns a' = static_columns a.
Proof.
  intros (_ & _ & _ & Ha & _) Hl. specialize (Ha aid). rewrite Hl in Ha.
  destruct (assets db !! aid) as [a|]; [|done].
  exists a. split; [done|]. cbn in Ha. congruence.
Qed.

Lemma prices_only_unique (f : Asset → string) (db db' : Store) :
  (∀ a b, static_columns a = static_columns b → f a = f b) →
  prices_only db db' →
  NoDup ((λ a : Z * Asset, f a.2) <$> AssetRepository.get_all db) →
  NoDup ((λ a : Z * Asset, f a.2) <$> AssetRepository.get_all db').
Proof.
  unfold AssetRepository.get_all. intros Hf Hpo Hnd.
  apply unique_by_lookup. intros i j a' b' Hi Hj Heq.
  destruct (prices_only_static db db' i a' Hpo Hi) as (a & Ha & Hsa).
  destruct (prices_only_static db db' j b' Hpo Hj) as (b & Hb & Hsb).
  apply (proj1 (unique_by_lookup f (assets db)) Hnd i j a b Ha Hb).
  rewrite <- (Hf _ _ Hsa), <- (Hf _ _ Hsb). done.
Qed.

Lemma prices_only_refs (db db' : Store) :
  prices_only db db' → referential_integrity db → referential_integrity db'.
Proof.
  intros Hpo (Hp & Ht & Hh).
  pose proof Hpo as (Hu & Hp' & Ht' & _ & new & Hh' & Hnew).
  unfold referential_integrity. rewrite Hu, Hp', Ht', Hh'.
  split; [|split].
  - intros k q Hk. rewrite (prices_only_is_Some db db') by done.
    by apply (Hp k q).
  - eapply Forall_impl; [exact Ht|]. intros tx. cbn.
    by rewrite (prices_only_is_Some db db').
  - apply Forall_app. split; (eapply Forall_impl; [eassumption|]);
      intros ph; cbn; by rewrite (prices_only_is_Some db db').
Qed.

Section MarketFrame.
Context {float : Type} (decimal_of_str : float → Decimal.t).

Lemma persist_prices_only (db st : Store) (aid : Z) (p : float) :
  is_Some (assets db !! aid) → prices_only db st →
  prices_only db
    (set_price_history (λ l, l ++ [mkPriceHistory aid (decimal_of_str p)])
       (set_assets (alter (set_current_price (decimal_of_str p)) aid) st)).
Proof.
  intros Hsome (Hu & Hp & Ht & Ha & new & Hh & Hnew).
  split; [done|]. split; [done|]. split; [done|]. split.
  - intros i. cbn [set_price_history set_assets assets].
    rewrite <- Ha. destruct (decide (aid = i)) as [->|Hne].
    + rewrite lookup_alter_eq. by destruct (assets st !! i).
    + by rewrite lookup_alter_ne.
  - exists (new ++ [mkPriceHistory aid (decimal_of_str p)]).
    cbn [set_price_history set_assets price_history].
    split; [by rewrite Hh, <- app_assoc|].
    apply Forall_app. split; [done|]. by apply Forall_singleton.
Qed.

Lemma update_prices_prices_only
    (get_prices : list string → option (gmap string float))
    (w : MarketService.World float) :
  let w' := MarketService._update_prices decimal_of_str get_prices w in
  prices_only (MarketService.db w) (MarketService.db w')
  ∧ MarketService.trace w `prefix_of` MarketService.trace w'.
Proof.
  intros w'. subst w'.
  destruct (update_prices_inv decimal_of_str get_prices
              (λ _ st, prices_only (MarketService.db w) st) w)
    as [(-> & [-> | (_ & ->)]) | (ups & _ & HP & ->)].
  - intros prices ups st t sym aid p _ _ _ Hid HP.
    apply persist_prices_only; [|done].
    apply id_map_Some in Hid as (a & Ha & _). by eexists.
  - by apply prices_only_refl.
  - split; [by apply prices_only_refl|done].
  - split; [by apply prices_only_refl|]. by eexists.
  - split; [done|]. by eexists.
Qed.

Lemma start_price_updates_prices_only
    (feeds : list (list string → option (gmap string float)))
    (w : MarketService.World float) :
  let w' := MarketService.start_price_updates decimal_of_str feeds w in
  prices_only (MarketService.db w) (MarketService.db w')
  ∧ MarketService.trace w `prefix_of` MarketService.trace w'.
Proof.
  unfold MarketService.start_price_updates. revert w.
  induction feeds as [|get_prices feeds IH]; intros w; cbn.
  - split; [by apply prices_only_refl|done].
  - destruct (IH (MarketService._update_prices decimal_of_str get_prices w))
      as [Hpo Htr].
    destruct (update_prices_prices_only get_prices w) as [Hpo1 Htr1].
    split; [by eapply prices_only_trans|by etrans].
Qed.

(** X7. The price loop writes prices and nothing else.  After any number
    of synchronisation cycles, whatever the feed answers in each of them,
    every user, holding and ledger entry is as before; no asset has been
    added or removed and every asset keeps its ticker, name, feed symbol
    and active flag; the price history has only grown, by rows of existing
    assets; and the events of the earlier cycles are still a prefix of the
    trace. *)
Theorem start_price_updates_frame
    (feeds : list (list string → option (gmap string float)))
    (w : MarketService.World float) :
  let w' := MarketService.start_price_updates decimal_of_str feeds w in
  let db := MarketService.db w in
  let db' := MarketService.db w' in
  users db' = users db
  ∧ portfolios db' = portfolios db
  ∧ transactions db' = transactions db
  ∧ dom (assets db') = dom (assets db)
  ∧ (∀ aid a', assets db' !! aid = Some a' →
       ∃ a, assets db !! aid = Some a
            ∧ ticker a' = ticker a ∧ name a' = name a
            ∧ binance_symbol a' = binance_symbol a
            ∧ is_active a' = is_active a)
  ∧ (∃ new, price_history db' = price_history db ++ new
            ∧ Forall (λ ph, is_Some (assets db !! ph_asset_id ph)) new)
  ∧ MarketService.trace w `prefix_of` MarketService.trace w'.
Proof.
  intros w' db db'.
  destruct (start_price_updates_prices_only feeds w) as [Hpo Htr].
  fold w' in Hpo, Htr. fold db db' in Hpo.
  pose proof Hpo as (Hu & Hp & Ht & _ & Hh).
  split; [done|]. split; [done|]. split; [done|]. split; [|split; [|done]].
  - apply set_eq. intros aid. rewrite !elem_of_dom.
    by apply prices_only_is_Some.
  - intros aid a' Ha'.
    destruct (prices_only_static db db' aid a' Hpo Ha') as (a & Ha & Hs).
    exists a. split; [done|]. unfold static_columns in Hs.
    by injection Hs as -> -> -> ->.
Qed.

End MarketFrame.

Section MarketCycleShape.
Context {float : Type} (decimal_of_str : float → Decimal.t).
Context (get_prices : list string → option (gmap string float)).

Lemma requested_symbols_valid (db : Store) :
  Forall (λ s, (∃ a, a ∈ AssetRepository.get_all_active db
                     ∧ binance_symbol a.2 = s)
               ∧ s ≠ "" ∧ Forall upper_or_digit (list_ascii_of_string s))
    (filter feed_symbol_valid (AssetRepository.get_ticker_to_binance_map db).*2).
Proof.
  apply Forall_forall. intros s Hs.
  apply list_elem_of_filter in Hs as [Hvalid Hs].
  apply list_elem_of_fmap in Hs as (item & -> & Hitem).
  apply ticker_map_elem in Hitem as (a & Ha & _ & Hsym).
  split; [by exists a|]. by apply feed_symbol_valid_chars.
Qed.

(** X8. The shape of one synchronisation cycle.  Whatever the store and
    the feed, the events of a cycle are one of: nothing; a single feed
    call; a feed call followed by a commit; a feed call, a commit and one
    "market_update" broadcast with a non-empty batch.  The feed is asked
    once at most, for a non-empty list of feed symbols of active assets,
    each made of capital letters and digits only.  Without a commit the
    store is unchanged, and so it is when nothing was persisted; nothing
    is broadcast before the commit, and every broadcast entry carries the
    ticker of an active asset. *)
Theorem update_prices_trace (w : MarketService.World float) :
  let w' := MarketService._update_prices decimal_of_str get_prices w in
  let db := MarketService.db w in
  ∃ events,
    MarketService.trace w' = MarketService.trace w ++ events
    ∧ ((events = [] ∧ MarketService.db w' = db)
       ∨ ∃ syms,
           syms ≠ []
           ∧ Forall (λ s, (∃ a, a ∈ AssetRepository.get_all_active db
                                ∧ binance_symbol a.2 = s)
                          ∧ s ≠ ""
                          ∧ Forall upper_or_digit (list_ascii_of_string s))
               syms
           ∧ ((events = [MarketService.FeedCall syms]
               ∧ MarketService.db w' = db)
              ∨ (events = [MarketService.FeedCall syms; MarketService.Commit]
                 ∧ MarketService.db w' = db)
              ∨ ∃ data,
                  data ≠ []
                  ∧ events
                    = [MarketService.FeedCall syms; MarketService.Commit;
                       MarketService.Broadcast
                         (MarketService.Message.mk float "market_update" data)]
                  ∧ Forall (λ u : string * float,
                              ∃ a, a ∈ AssetRepository.get_all_active db
                                   ∧ ticker a.2 = u.1) data)).
Proof.
  intros w' db. subst w' db.
  pose proof (requested_symbols_valid (MarketService.db w)) as Hvalid.
  destruct (update_prices_inv decimal_of_str get_prices
              (λ ups st,
                 (ups = [] → st = MarketService.db w)
                 ∧ Forall (λ u : string * float,
                             ∃ a, a ∈ AssetRepository.get_all_active
                                        (MarketService.db w)
                                  ∧ ticker a.2 = u.1) ups) w)
    as [(Hdb & [Htr | (Hne & Htr)]) | (ups & Hne & (Hnil & Hups) & Htr)].
  - intros prices ups st t sym aid p _ Hitem _ _ [_ Hups]. split.
    + intros Heq. by destruct ups.
    + apply Forall_app. split; [done|]. apply Forall_singleton.
      apply ticker_map_elem in Hitem as (a & Ha & Ht & _). by exists a.
  - split; [done|constructor].
  - exists []. rewrite app_nil_r. split; [done|]. by left.
  - eexists. split; [exact Htr|]. right. eexists. split; [exact Hne|].
    split; [exact Hvalid|]. by left.
  - eexists. split; [exact Htr|]. right. eexists. split; [exact Hne|].
    split; [exact Hvalid|]. right. destruct ups as [|u ups].
    + left. split; [done|]. by apply Hnil.
    + right. exists (u :: ups). split; [done|]. split; [done|]. exact Hups.
Qed.


End MarketCycleShape.

Section MarketConstraints.
Context {float : Type} (decimal_of_str : float → Decimal.t).

(** X10. The price loop keeps the constraints of the schema and the
    account invariant.  After any number of cycles, whatever the feed
    answers: the foreign keys still hold (every new price-history row
    belongs to an existing asset), tickers and feed symbols are still
    unique, and no balance or holding has become negative. *)
Theorem start_price_updates_preserves_constraints
    (feeds : list (list string → option (gmap string float)))
    (w : MarketService.World float) :
  let db := MarketService.db w in
  let db' := MarketService.db
               (MarketService.start_price_updates decimal_of_str feeds w) in
  (referential_integrity db → referential_integrity db')
  ∧ (unique_tickers db → unique_tickers db')
  ∧ (unique_symbols db → unique_symbols db')
  ∧ (store_inv db → store_inv db').
Proof.
  intros db db'.
  destruct (start_price_updates_prices_only decimal_of_str feeds w) as [Hpo _].
  fold db db' in Hpo. split; [|split; [|split]].
  - by apply prices_only_refs.
  - apply (prices_only_unique ticker db db'); [|done].
    unfold static_columns. intros a b Heq. congruence.
  - apply (prices_only_unique binance_symbol db db'); [|done].
    unfold static_columns. intros a b Heq. congruence.
  - destruct Hpo as (Hu & Hp & _). unfold store_inv. by rewrite Hu, Hp.
Qed.

Lemma update_prices_nonneg
    (get_prices : list string → option (gmap string float))
    (w : MarketService.World float) :
  (∀ syms prices sym p,
     get_prices syms = Some prices → prices !! sym = Some p →
     Decimal.nonneg (decimal_of_str p)) →
  prices_nonneg (MarketService.db w) →
  prices_nonneg
    (MarketService.db (MarketService._update_prices decimal_of_str get_prices w)).
Proof.
  intros Hfeed Hnn.
  destruct (update_prices_inv decimal_of_str get_prices
              (λ _ st, prices_nonneg st) w)
    as [(-> & _) | (ups & _ & HP & _)]; [| |done..].
  - intros prices ups st t sym aid p Hprices _ Hp _ Hst.
    unfold prices_nonneg. cbn [set_price_history set_assets assets].
    intros i a Hi. destruct (decide (aid = i)) as [->|Hne].
    + rewrite lookup_alter_eq in Hi.
      destruct (assets st !! i) as [a0|]; [|done]. injection Hi as <-.
      cbn. by apply (Hfeed _ prices sym p Hprices).
    + rewrite lookup_alter_ne in Hi by done. by apply (Hst i).
  - done.
Qed.

(** X11. A feed without negative prices leaves no negative price.  If
    every price that the feed returns converts to a non-negative Decimal,
    then after any number of cycles every asset's current price is
    non-negative, provided it was before: the precondition under which
    the trade engine keeps balances non-negative is maintained by the
    price loop. *)
Theorem start_price_updates_prices_nonneg
    (feeds : list (list string → option (gmap string float)))
    (w : MarketService.World float) :
  (∀ get_prices syms prices sym p,
     get_prices ∈ feeds → get_prices syms = Some prices →
     prices !! sym = Some p → Decimal.nonneg (decimal_of_str p)) →
  prices_nonneg (MarketService.db w) →
  prices_nonneg
    (MarketService.db (MarketService.start_price_updates decimal_of_str feeds w)).
Proof.
  unfold MarketService.start_price_updates. revert w.
  induction feeds as [|get_prices feeds IH]; intros w Hfeeds Hnn; cbn; [done|].
  apply IH.
  - intros g syms prices sym p Hg. apply Hfeeds. by apply list_elem_of_further.
  - apply update_prices_nonneg; [|done].
    intros syms prices sym p. apply Hfeeds. apply list_elem_of_here.
Qed.

End MarketConstraints.

Lemma start_price_updates_preserves_constraints_witness :
  let db' := MarketService.db
               (MarketService.start_price_updates (λ d, d)
                  [feed_btc; feed_down; feed_eth]
                  (MarketService.mkWorld st_history [])) in
  referential_integrity db' ∧ unique_tickers db' ∧ unique_symbols db'
  ∧ store_inv db'.
Proof.
  intros db'.
  destruct (start_price_updates_preserves_constraints (λ d, d)
              [feed_btc; feed_down; feed_eth]
              (MarketService.mkWorld st_history []))
    as (Href & Htick & Hsym & Hinv).
  split; [apply Href; compute_done|].
  split; [apply Htick; compute_done|].
  split; [apply Hsym; compute_done|].
  apply Hinv. compute_done.
Defined.

Lemma start_price_updates_prices_nonneg_witness :
  prices_nonneg
    (MarketService.db
       (MarketService.start_price_updates (λ d, d) [feed_btc; feed_down]
          (MarketService.mkWorld st_history []))).
Proof.
  apply (start_price_updates_prices_nonneg (λ d, d) [feed_btc; feed_down]
           (MarketService.mkWorld st_history [])).
  - intros g syms prices sym p Hg Hfeed Hp.
    apply elem_of_cons in Hg as [->|Hg].
    + injection Hfeed as <-. apply lookup_singleton_Some in Hp as [_ <-].
      by vm_compute.
    + apply list_elem_of_singleton in Hg as ->. discriminate.
  - compute_done.
Defined.

(** * Further properties of the connection manager *)

Section Connections.
Import ConnectionManager.
Context {Message : Type}.

Lemma remove_first_perm (x : WebSocket) (l : list WebSocket) :
  x ∈ l → x :: remove_first x l ≡ₚ l.
Proof.
  induction l as [|y l IH]; intros Hx; [by inversion Hx|].
  cbn. destruct (decide (x = y)) as [->|Hne]; [done|].
  apply elem_of_cons in Hx as [->|Hx]; [done|].
  rewrite Permutation_swap. by rewrite IH.
Qed.

Lemma remove_first_snoc (x : WebSocket) (l : list WebSocket) :
  x ∉ l → remove_first x (l ++ [x]) = l.
Proof.
  induction l as [|y l IH]; intros Hx; cbn.
  - by rewrite decide_True.
  - apply not_elem_of_cons in Hx as [Hne Hx].
    rewrite decide_False by done. by rewrite IH.
Qed.

Lemma remove_first_others (x : WebSocket) (l : list WebSocket) :
  filter (λ c, c ≠ x) (remove_first x l) = filter (λ c, c ≠ x) l.
Proof.
  induction l as [|y l IH]; [done|]. cbn [remove_first].
  destruct (decide (x = y)) as [->|Hne].
  - rewrite filter_cons. by rewrite decide_False by (intros H; by apply H).
  - rewrite !filter_cons. destruct (decide (y ≠ x)); by rewrite IH.
Qed.

(** X12. Registering and unregistering a client.  [connect] registers the
    socket at the end of the list when the handshake succeeds, and
    registers nothing when it raises.  [disconnect] removes one
    registration of the socket and nothing else: the other clients keep
    their places, and unregistering a socket that is not registered
    changes nothing.  A [connect] followed by a [disconnect] of the same
    socket leaves the registrations as they were (literally so when the
    socket was not registered before). *)
Theorem connect_disconnect_round_trip (accept : WebSocket → result unit)
    (websocket : WebSocket) (m : t (Message := Message)) :
  let run := connect accept websocket m in
  match run.1 with
  | Raise e => accept websocket = Raise e ∧ run.2 = m
  | Ok _ =>
      active_connections run.2 = active_connections m ++ [websocket]
      ∧ active_connections (disconnect websocket run.2)
        ≡ₚ active_connections m
      ∧ (websocket ∉ active_connections m → disconnect websocket run.2 = m)
  end
  ∧ (websocket ∉ active_connections m → disconnect websocket m = m)
  ∧ (websocket ∈ active_connections m →
     websocket :: active_connections (disconnect websocket m)
     ≡ₚ active_connections m)
  ∧ filter (λ c, c ≠ websocket) (active_connections (disconnect websocket m))
    = filter (λ c, c ≠ websocket) (active_connections m)
  ∧ delivered (disconnect websocket m) = delivered m
  ∧ attempted (disconnect websocket m) = attempted m.
Proof.
  intros run. subst run. split; [|split; [|split; [|split; [|split]]]].
  - unfold connect. destruct (accept websocket) as [u|e]; cbn [fst snd];
      [|done].
    split; [done|].
    assert (Hin : websocket ∈ active_connections m ++ [websocket])
      by (apply elem_of_app; right; apply list_elem_of_here).
    unfold disconnect. cbn [active_connections delivered attempted].
    rewrite decide_True by done. cbn [active_connections]. split.
    + apply (Permutation_cons_inv (a := websocket)).
      rewrite remove_first_perm by done.
      by rewrite <- Permutation_cons_append.
    + intros Hnot. rewrite remove_first_snoc by done. by destruct m.
  - intros Hnot. unfold disconnect. by rewrite decide_False.
  - intros Hin. unfold disconnect. rewrite decide_True by done.
    cbn [active_connections]. by apply remove_first_perm.
  - unfold disconnect. destruct (decide _); [|done].
    cbn [active_connections]. apply remove_first_others.
  - unfold disconnect. by destruct (decide _).
  - unfold disconnect. by destruct (decide _).
Qed.

(** X13. A broadcast leaves a list it does not shrink again.  After one
    [broadcast] that has returned (no send was cancelled), a second
    broadcast of the same message to peers that behave as before returns
    as well, removes no client, calls [send_json] once for each remaining
    client and delivers to all of them. *)
Theorem broadcast_steady_state
    (send_json : WebSocket → Message → result unit) (message : Message)
    (m : t) :
  (broadcast send_json message m).1 = Ok tt →
  let m1 := (broadcast send_json message m).2 in
  let m2 := (broadcast send_json message m1).2 in
  (broadcast send_json message m1).1 = Ok tt
  ∧ active_connections m2 = active_connections m1
  ∧ delivered m2
    = delivered m1 ++ ((λ c, (c, message)) <$> active_connections m1)
  ∧ attempted m2
    = attempted m1 ++ ((λ c, (c, message)) <$> active_connections m1).
Proof.
  intros Hret m1 m2. subst m2 m1. unfold broadcast in *.
  pose proof (broadcast_loop_returns send_json message _ _ Hret) as Hcan.
  rewrite (broadcast_loop_spec send_json message [] (active_connections m)
             [] m Hcan) by (by rewrite app_nil_r).
  cbn [snd active_connections app]. rewrite app_nil_r.
  set (l := filter (λ c, delivers send_json message c = true)
              (active_connections m)).
  assert (Hcan' : ∀ c, c ∈ l → cancels send_json message c = false).
  { intros c Hc. apply Hcan. by apply list_elem_of_filter in Hc as [_ Hc]. }
  rewrite (broadcast_loop_spec send_json message [] l [] _ Hcan')
    by (by rewrite app_nil_r).
  cbn [fst snd active_connections delivered attempted app].
  assert (Hl : filter (λ c, delivers send_json message c = true) l = l).
  { subst l. rewrite list_filter_filter. apply list_filter_iff.
    intros c. tauto. }
  by rewrite app_nil_r, Hl.
Qed.

End Connections.

(** Three subscribers of which the second is gone: the first broadcast
    returns and removes it, the second one serves the two that are left. *)
Lemma broadcast_steady_state_witness :
  let m := ConnectionManager.mk [1; 2; 3]%nat [] [] in
  let m1 := (ConnectionManager.broadcast send_json_2_fails "tick" m).2 in
  let m2 := (ConnectionManager.broadcast send_json_2_fails "tick" m1).2 in
  (ConnectionManager.broadcast send_json_2_fails "tick" m).1 = Ok tt
  ∧ ConnectionManager.active_connections m1 = [1; 3]%nat
  ∧ (ConnectionManager.broadcast send_json_2_fails "tick" m1).1 = Ok tt
  ∧ ConnectionManager.active_connections m2 = [1; 3]%nat
  ∧ ConnectionManager.delivered m2
    = [(1%nat, "tick"); (3%nat, "tick"); (1%nat, "tick"); (3%nat, "tick")].
Proof.
  intros m m1 m2.
  assert (Hret : (ConnectionManager.broadcast send_json_2_fails "tick" m).1
                 = Ok tt) by reflexivity.
  destruct (broadcast_steady_state send_json_2_fails "tick" m Hret)
    as (Hrun & Hact & Hdel & _).
  split; [exact Hret|]. split; [reflexivity|]. split; [exact Hrun|].
  split; [subst m2 m1; by rewrite Hact|].
  subst m2 m1. by rewrite Hdel.
Defined.

(** * Asset administration (AssetService) *)

Ltac run_asset :=
  cbv [mbind mret AssetService.MA_bind AssetService.MA_ret AssetService.lift
       AssetService.raise_http AssetService.refresh AssetService.get_by_id
       AssetRepository.get_by_id M_bind M_ret read write raise commit] in *;
  cbn [pending committed open_session asset_id fst snd] in *.

(** No asset operation touches a user row, so its commit stores what is
    pending. *)
Ltac flushed := rewrite ?flush_same in * by reflexivity.

Lemma toggle_twice (a : Asset) :
  set_is_active (negb (is_active (set_is_active (negb (is_active a)) a)))
    (set_is_active (negb (is_active a)) a) = a.
Proof. destruct a as [t n s p []]; reflexivity. Qed.

Lemma set_assets_id (f : gmap Z Asset → gmap Z Asset) (db : Store) :
  f (assets db) = assets db → set_assets f db = db.
Proof. intros Hf. destruct db. unfold set_assets. cbn in *. by rewrite Hf. Qed.

Lemma toggle_run (db : Store) (aid : Z) (a : Asset) :
  assets db !! aid = Some a →
  AssetService.toggle_active aid (open_session db)
  = (AssetService.Return (aid, set_is_active (negb (is_active a)) a),
     mkSession
       (set_assets <[aid := set_is_active (negb (is_active a)) a]> db)
       (set_assets <[aid := set_is_active (negb (is_active a)) a]> db)).
Proof.
  intros Ha. unfold AssetService.toggle_active. run_asset.
  rewrite Ha. cbn.
  assert (Halter : alter (λ a, set_is_active (negb (is_active a)) a) aid
                     (assets db)
                   = <[aid := set_is_active (negb (is_active a)) a]>
                       (assets db)).
  { apply map_eq. intros i. destruct (decide (aid = i)) as [<-|Hne].
    - by rewrite lookup_alter_eq, lookup_insert_eq, Ha.
    - by rewrite lookup_alter_ne, lookup_insert_ne. }
  flushed. unfold set_assets. cbn [assets]. rewrite ?Halter.
  by rewrite lookup_insert_eq.
Qed.

Lemma toggle_missing (db : Store) (aid : Z) :
  assets db !! aid = None →
  AssetService.toggle_active aid (open_session db)
  = (AssetService.RaiseHTTP 404 (AssetService.AssetIdNotFound aid),
     open_session db).
Proof.
  intros Ha. unfold AssetService.toggle_active. run_asset. by rewrite Ha.
Qed.

(** X14. [toggle_active] flips one flag, and flips it back.  For an
    unknown id the call raises 404 and leaves the session as it was.  For
    a known id it commits a store in which only the [is_active] column of
    that asset has changed, to its negation, and returns the refreshed
    asset; users, holdings, the ledger, the price history and every other
    asset are untouched.  A second call restores the original store
    exactly and returns the original asset. *)
Theorem toggle_active_involution (db : Store) (aid : Z) :
  let run := AssetService.toggle_active aid (open_session db) in
  match assets db !! aid with
  | None => run = (AssetService.RaiseHTTP 404 (AssetService.AssetIdNotFound aid),
                   open_session db)
  | Some a =>
      let a' := set_is_active (negb (is_active a)) a in
      let db1 := set_assets <[aid := a']> db in
      run = (AssetService.Return (aid, a'), mkSession db1 db1)
      ∧ AssetService.toggle_active aid (open_session db1)
        = (AssetService.Return (aid, a), mkSession db db)
  end.
Proof.
  intros run. subst run. destruct (assets db !! aid) as [a|] eqn:Ha.
  - cbv zeta. split; [by apply toggle_run|].
    rewrite (toggle_run _ aid (set_is_active (negb (is_active a)) a))
      by (cbn; by rewrite lookup_insert_eq).
    rewrite toggle_twice.
    assert (Hback : set_assets <[aid := a]>
                      (set_assets
                         <[aid := set_is_active (negb (is_active a)) a]> db)
                    = db).
    { destruct db as [us As ps ts hs]. unfold set_assets. cbn in *.
      f_equal. rewrite insert_insert_eq. by apply insert_id. }
    by rewrite Hback.
  - by apply toggle_missing.
Qed.

(** ** [delete]: the cascade *)

Lemma delete_run (db : Store) (aid : Z) (a : Asset) :
  assets db !! aid = Some a →
  AssetService.delete aid (open_session db)
  = (AssetService.Return tt,
     mkSession (delete_store aid db) (delete_store aid db)).
Proof.
  intros Ha. unfold AssetService.delete,
    PortfolioRepository.delete_by_asset_id,
    TransactionRepository.delete_by_asset_id,
    PriceHistoryRepository.delete_by_asset_id, AssetRepository.delete.
  run_asset. rewrite Ha. cbn [fmap option_fmap option_map asset_id fst].
  by flushed.
Qed.

Lemma delete_missing (db : Store) (aid : Z) :
  assets db !! aid = None →
  AssetService.delete aid (open_session db)
  = (AssetService.RaiseHTTP 404 (AssetService.AssetIdNotFound aid),
     open_session db).
Proof. intros Ha. unfold AssetService.delete. run_asset. by rewrite Ha. Qed.

Lemma delete_store_inv (db : Store) (aid : Z) :
  store_inv db → store_inv (delete_store aid db).
Proof.
  intros [Hbal Hqty]. split; [done|].
  intros k q Hk. apply map_lookup_filter_Some in Hk as [Hk _].
  by apply (Hqty k).
Qed.

Lemma delete_store_refs (db : Store) (aid : Z) :
  referential_integrity db → referential_integrity (delete_store aid db).
Proof.
  intros (Hp & Ht & Hh). unfold referential_integrity, delete_store.
  cbn [users assets portfolios transactions price_history].
  split; [|split].
  - intros k q Hk. apply map_lookup_filter_Some in Hk as [Hk Hne].
    cbn in Hne. rewrite lookup_delete_ne by done. by apply (Hp k q).
  - apply Forall_forall. intros tx Htx.
    apply list_elem_of_filter in Htx as [Hne Htx].
    rewrite lookup_delete_ne by done.
    by apply (proj1 (Forall_forall _ _) Ht).
  - apply Forall_forall. intros ph Hph.
    apply list_elem_of_filter in Hph as [Hne Hph].
    rewrite lookup_delete_ne by done.
    by apply (proj1 (Forall_forall _ _) Hh).
Qed.

Lemma delete_store_unique (f : Asset → string) (db : Store) (aid : Z) :
  NoDup ((λ a : Z * Asset, f a.2) <$> AssetRepository.get_all db) →
  NoDup ((λ a : Z * Asset, f a.2)
         <$> AssetRepository.get_all (delete_store aid db)).
Proof.
  unfold AssetRepository.get_all, delete_store. cbn [assets]. intros Hnd.
  apply unique_by_lookup. intros i j a b Hi Hj.
  apply lookup_delete_Some in Hi as [_ Hi], Hj as [_ Hj].
  by apply (proj1 (unique_by_lookup f (assets db)) Hnd i j a b).
Qed.

(** X15. Deleting an asset takes everything that refers to it along, and
    nothing else.  For an unknown id [delete] raises 404 and leaves the
    session as it was.  For a known id it commits a store from which the
    asset, every holding of it, every ledger entry for it and its price
    history are gone, so that no row is left pointing at the deleted
    asset: the foreign keys of the schema keep holding.  Holdings, ledger
    entries and price-history rows of other assets are kept, in order;
    the users and their balances are untouched (the deleted holdings are
    not paid out); unique tickers and feed symbols and the account
    invariant are preserved. *)
Theorem delete_cascade (db : Store) (aid : Z) :
  let run := AssetService.delete aid (open_session db) in
  match assets db !! aid with
  | None => run = (AssetService.RaiseHTTP 404 (AssetService.AssetIdNotFound aid),
                   open_session db)
  | Some a =>
      let db' := delete_store aid db in
      run = (AssetService.Return tt, mkSession db' db')
      ∧ assets db' !! aid = None
      ∧ (∀ i, i ≠ aid → assets db' !! i = assets db !! i)
      ∧ (∀ k, portfolios db' !! k
              = if decide (k.2 = aid) then None else portfolios db !! k)
      ∧ transactions db' = filter (λ tx, tx_asset_id tx ≠ aid) (transactions db)
      ∧ price_history db'
        = filter (λ ph, ph_asset_id ph ≠ aid) (price_history db)
      ∧ users db' = users db
      ∧ (referential_integrity db → referential_integrity db')
      ∧ (unique_tickers db → unique_tickers db')
      ∧ (unique_symbols db → unique_symbols db')
      ∧ (store_inv db → store_inv db')
  end.
Proof.
  intros run. subst run. destruct (assets db !! aid) as [a|] eqn:Ha.
  - cbv zeta. split; [by apply (delete_run db aid a)|].
    split; [apply lookup_delete_eq|].
    split; [intros i Hne; by apply lookup_delete_ne|].
    split.
    { intros k. unfold delete_store. cbn [portfolios].
      destruct (decide (k.2 = aid)) as [Heq|Hne].
      - apply map_lookup_filter_None. right. intros q _ Hq. by apply Hq.
      - destruct (portfolios db !! k) as [q|] eqn:Hk.
        + by apply map_lookup_filter_Some.
        + apply map_lookup_filter_None. by left. }
    split; [done|]. split; [done|]. split; [done|].
    split; [apply delete_store_refs|].
    split; [apply (delete_store_unique ticker)|].
    split; [apply (delete_store_unique binance_symbol)|].
    apply delete_store_inv.
  - by apply delete_missing.
Qed.

(** ** [create] *)

Lemma get_by_binance_symbol_absent (s : Session) (symbol : string) :
  (∀ a, a ∈ AssetRepository.get_all (pending s) → binance_symbol a.2 ≠ symbol) →
  AssetRepository.get_by_binance_symbol symbol s = (Ok None, s).
Proof.
  intros H. unfold AssetRepository.get_by_binance_symbol. run_session.
  by rewrite (filter_key_absent (λ a : Z * Asset, binance_symbol a.2) symbol).
Qed.


Lemma insert_store_unique (f : Asset → string) (db : Store) (new_id : Z)
    (a : Asset) :
  (∀ b, b ∈ AssetRepository.get_all db → f b.2 ≠ f a) →
  NoDup ((λ a : Z * Asset, f a.2) <$> AssetRepository.get_all db) →
  NoDup ((λ a : Z * Asset, f a.2)
         <$> AssetRepository.get_all (set_assets <[new_id := a]> db)).
Proof.
  unfold AssetRepository.get_all. cbn [set_assets assets]. intros Hfresh Hnd.
  apply unique_by_lookup. intros i j b c Hi Hj Heq.
  apply lookup_insert_Some in Hi as [[<- <-]|[Hni Hi]];
    apply lookup_insert_Some in Hj as [[<- <-]|[Hnj Hj]].
  - done.
  - exfalso. apply (Hfresh (j, c)); [by apply elem_of_map_to_list|done].
  - exfalso. apply (Hfresh (i, b)); [by apply elem_of_map_to_list|done].
  - by apply (proj1 (unique_by_lookup f (assets db)) Hnd i j b c).
Qed.

Lemma insert_store_refs (db : Store) (new_id : Z) (a : Asset) :
  referential_integrity db →
  referential_integrity (set_assets <[new_id := a]> db).
Proof.
  intros (Hp & Ht & Hh). unfold referential_integrity.
  cbn [set_assets users assets portfolios transactions price_history].
  assert (Hsome : ∀ i, is_Some (assets db !! i) →
                       is_Some (<[new_id := a]> (assets db) !! i)).
  { intros i Hi. apply lookup_insert_is_Some.
    destruct (decide (new_id = i)); [by left|by right]. }
  split; [|split].
  - intros k q Hk. destruct (Hp k q Hk). split; [done|by apply Hsome].
  - eapply Forall_impl; [exact Ht|]. intros tx [? ?]. split; [done|].
    by apply Hsome.
  - eapply Forall_impl; [exact Hh|]. intros ph. apply Hsome.
Qed.

Section CreateAsset.
Context {float : Type} (decimal_of_str : float → Decimal.t).
Context (binance_client : option (list string → option (gmap string float))).

Lemma truthy_fetch_Some (symbol : string) (price : Decimal.t) :
  AssetService.truthy
    (AssetService._fetch_initial_price decimal_of_str binance_client symbol)
  = Some price →
  Decimal.coef price ≠ 0
  ∧ ∃ get_prices prices p,
      binance_client = Some get_prices ∧ get_prices [symbol] = Some prices
      ∧ prices !! symbol = Some p ∧ price = decimal_of_str p.
Proof.
  unfold AssetService.truthy, AssetService._fetch_initial_price,
    BinanceClient.get_single_price.
  destruct binance_client as [get_prices|]; [|done].
  destruct (get_prices [symbol]) as [prices|] eqn:Hfeed; [|done].
  destruct (prices !! symbol) as [p|] eqn:Hp; [|done].
  destruct (Decimal.coef (decimal_of_str p) =? 0) eqn:Hz; [done|].
  intros H. injection H as <-. split; [by apply Z.eqb_neq|].
  by exists get_prices, prices, p.
Qed.

(** The end of [create] and [update]: flush, commit, refresh. *)
Lemma flush_commit_refresh (db st : Store) (aid : Z) (a a0 : Asset) :
  users st = users db →
  assets st !! aid = Some a →
  (∀ b, b ∈ AssetRepository.get_all st →
        b.1 = aid
        ∨ (ticker b.2 ≠ ticker a ∧ binance_symbol b.2 ≠ binance_symbol a)) →
  (AssetService.flush_asset aid ≫= λ _,
     AssetService.lift commit ≫= λ _, AssetService.refresh aid a0)
    (mkSession db st)
  = (AssetService.Return (aid, a), mkSession st st).
Proof.
  intros Hus Ha Hok. unfold AssetService.flush_asset. run_asset. rewrite Ha.
  rewrite decide_True by (by apply Forall_forall).
  cbn. rewrite (flush_same db st Hus). by rewrite Ha.
Qed.

(** [create] when neither the ticker nor the feed symbol is taken. *)
Lemma create_fresh_run (db : Store) (new_id : Z) (data : AssetCreate.t) :
  let t := normalise (AssetCreate.ticker data) in
  let symbol := normalise (AssetCreate.binance_symbol data) in
  let price := default (Decimal.of_Z 0)
                 (AssetService.truthy
                    (AssetService._fetch_initial_price decimal_of_str
                       binance_client symbol)) in
  let a := mkAsset t (AssetCreate.name data) symbol price true in
  let db' := set_assets <[new_id := a]> db in
  (∀ a, a ∈ AssetRepository.get_all db →
        ticker a.2 ≠ t ∧ binance_symbol a.2 ≠ symbol) →
  AssetService.create decimal_of_str binance_client new_id data
    (open_session db)
  = (AssetService.Return (new_id, a), mkSession db' db').
Proof.
  intros t symbol price a db' Hnot. unfold normalise in t, symbol.
  pose proof (get_by_ticker_absent (open_session db) t
                (λ a Ha, proj1 (Hnot a Ha))) as Hrun.
  pose proof (get_by_binance_symbol_absent (open_session db) symbol
                (λ a Ha, proj2 (Hnot a Ha))) as Hrun'.
  assert (Hok : ∀ b, b ∈ AssetRepository.get_all db' →
            b.1 = new_id
            ∨ (ticker b.2 ≠ ticker a
               ∧ binance_symbol b.2 ≠ binance_symbol a)).
  { intros [i b] Hb. apply elem_of_map_to_list in Hb.
    unfold db' in Hb. cbn [set_assets assets] in Hb.
    apply lookup_insert_Some in Hb as [[<- <-]|[Hne Hb]]; [by left|].
    right. apply (Hnot (i, b)). by apply elem_of_map_to_list. }
  assert (Hlook : assets db' !! new_id = Some a)
    by apply lookup_insert_eq.
  unfold AssetService.create, AssetRepository.create. fold t. fold symbol.
  run_asset. rewrite Hrun, Hrun'. cbn [fst snd].
  destruct (AssetService.truthy _) as [p|] eqn:Hp;
    cbn [pending committed open_session].
  - assert (Hst : set_assets (alter (set_current_price p) new_id)
                    (set_assets
                       <[new_id := mkAsset t (AssetCreate.name data) symbol
                                     (Decimal.of_Z 0) true]> db)
                  = db').
    { subst db' a price. cbn [default].
      destruct db as [us As ps ts hs].
      unfold set_assets. cbn. f_equal. apply map_eq. intros i.
      destruct (decide (new_id = i)) as [<-|Hne].
      - by rewrite lookup_alter_eq, !lookup_insert_eq.
      - by rewrite lookup_alter_ne, !lookup_insert_ne. }
    rewrite Hst.
    exact (flush_commit_refresh db db' new_id a _ eq_refl Hlook Hok).
  - exact (flush_commit_refresh db db' new_id a _ eq_refl Hlook Hok).
Qed.



End CreateAsset.


(** ** Normalisation of tickers and feed symbols *)

Lemma upper_char_idem (c : ascii) : upper_char (upper_char c) = upper_char c.
Proof. destruct c as [[] [] [] [] [] [] [] []]; reflexivity. Qed.

Lemma upper_char_not_lower (c : ascii) : is_lower_char (upper_char c) = false.
Proof. destruct c as [[] [] [] [] [] [] [] []]; reflexivity. Qed.

Lemma lstrip_clean (l : list ascii) : starts_clean (lstrip_chars l).
Proof.
  induction l as [|c l IH]; [done|]. cbn.
  by destruct (is_space_char c) eqn:Hc.
Qed.

Lemma lstrip_id (l : list ascii) : starts_clean l → lstrip_chars l = l.
Proof. destruct l as [|c l]; [done|]. cbn. by intros ->. Qed.

Lemma lstrip_app (l1 l2 : list ascii) :
  lstrip_chars (l1 ++ l2)
  = if forallb is_space_char l1 then lstrip_chars l2
    else lstrip_chars l1 ++ l2.
Proof.
  induction l1 as [|c l1 IH]; [done|]. cbn.
  by destruct (is_space_char c).
Qed.

Lemma rstrip_clean (l : list ascii) :
  starts_clean l → starts_clean (reverse (lstrip_chars (reverse l))).
Proof.
  destruct l as [|c l]; [done|]. intros Hc. cbn [starts_clean] in Hc.
  rewrite reverse_cons, lstrip_app. cbn [lstrip_chars]. rewrite Hc.
  destruct (forallb is_space_char (reverse l)); [done|].
  by rewrite reverse_app.
Qed.

Lemma lstrip_Forall (P : ascii → Prop) (l : list ascii) :
  Forall P l → Forall P (lstrip_chars l).
Proof.
  induction 1 as [|c l Hc Hl IH]; [done|]. cbn.
  destruct (is_space_char c); [done|by constructor].
Qed.

Lemma strip_chars_idem (l : list ascii) :
  let stripped := reverse (lstrip_chars (reverse (lstrip_chars l))) in
  reverse (lstrip_chars (reverse (lstrip_chars stripped))) = stripped
  ∧ starts_clean stripped ∧ starts_clean (reverse stripped).
Proof.
  intros stripped. subst stripped.
  pose proof (lstrip_clean l) as Ha.
  pose proof (lstrip_clean (reverse (lstrip_chars l))) as Hb.
  pose proof (rstrip_clean _ Ha) as Hc.
  split; [|split; [done|by rewrite reverse_involutive]].
  rewrite (lstrip_id _ Hc), reverse_involutive. by rewrite (lstrip_id _ Hb).
Qed.

Lemma fmap_fixed {A : Type} (f : A → A) (l : list A) :
  Forall (λ x, f x = x) l → f <$> l = l.
Proof. induction 1 as [|x l Hx Hl IH]; [done|]. cbn. by rewrite Hx, IH. Qed.

Lemma strip_chars_Forall (P : ascii → Prop) (l : list ascii) :
  Forall P l → Forall P (reverse (lstrip_chars (reverse (lstrip_chars l)))).
Proof.
  intros H. apply Forall_reverse, lstrip_Forall, Forall_reverse.
  by apply lstrip_Forall.
Qed.

(** X17. Normalised tickers and feed symbols are canonical.  The
    normalisation of [create] and [update] ([s.upper().strip()]) is
    idempotent, and its result is a fixed point of both [upper] and
    [strip]: it holds no lower-case letter and neither starts nor ends
    with white space.  A ticker that differs from a stored one by case or
    surrounding white space only is therefore the same ticker to
    [create]. *)
Theorem normalise_canonical (s : string) :
  let chars := list_ascii_of_string (normalise s) in
  normalise (normalise s) = normalise s
  ∧ upper (normalise s) = normalise s
  ∧ strip (normalise s) = normalise s
  ∧ Forall (λ c, is_lower_char c = false) chars
  ∧ starts_clean chars ∧ starts_clean (reverse chars).
Proof.
  intros chars. subst chars. unfold normalise.
  set (l := upper_char <$> list_ascii_of_string s).
  assert (Hchars : list_ascii_of_string (strip (upper s))
                   = reverse (lstrip_chars (reverse (lstrip_chars l)))).
  { unfold strip, upper. by rewrite !list_ascii_of_string_of_list_ascii. }
  assert (Hfix : Forall (λ c, upper_char c = c) l).
  { subst l. apply Forall_fmap, Forall_forall. intros c _.
    apply upper_char_idem. }
  assert (Hlow : Forall (λ c, is_lower_char c = false) l).
  { subst l. apply Forall_fmap, Forall_forall. intros c _.
    apply upper_char_not_lower. }
  destruct (strip_chars_idem l) as (Hidem & Hhead & Hlast).
  assert (Hupper : upper (strip (upper s)) = strip (upper s)).
  { unfold upper at 1. rewrite Hchars.
    rewrite (fmap_fixed upper_char) by (by apply strip_chars_Forall).
    by rewrite <- Hchars, string_of_list_ascii_of_string. }
  assert (Hstrip : strip (strip (upper s)) = strip (upper s)).
  { unfold strip at 1. rewrite Hchars, Hidem.
    by rewrite <- Hchars, string_of_list_ascii_of_string. }
  split; [by rewrite Hupper|]. split; [done|]. split; [done|].
  rewrite Hchars. split; [by apply strip_chars_Forall|done].
Qed.

(** ** [update] *)

Lemma alter_store (db : Store) (aid : Z) (a : Asset) (f : Asset → Asset) :
  assets db !! aid = Some a →
  set_assets (alter f aid) db = set_assets <[aid := f a]> db.
Proof.
  intros Ha. unfold set_assets. f_equal. apply map_eq. intros i.
  destruct (decide (aid = i)) as [<-|Hne].
  - by rewrite lookup_alter_eq, lookup_insert_eq, Ha.
  - by rewrite lookup_alter_ne, lookup_insert_ne.
Qed.

Lemma alter_insert_store (db : Store) (aid : Z) (x : Asset)
    (f : Asset → Asset) :
  set_assets (alter f aid) (set_assets <[aid := x]> db)
  = set_assets <[aid := f x]> db.
Proof.
  rewrite (alter_store _ aid x) by apply lookup_insert_eq.
  unfold set_assets. cbn. f_equal. apply insert_insert_eq.
Qed.

Lemma insert_same_store (db : Store) (aid : Z) (a : Asset) :
  assets db !! aid = Some a → set_assets <[aid := a]> db = db.
Proof. intros Ha. apply set_assets_id. by apply insert_id. Qed.

Lemma flush_fails (db st : Store) (aid : Z) (a a0 : Asset) :
  assets st !! aid = Some a →
  ¬ Forall (λ b : Z * Asset,
              b.1 = aid
              ∨ (ticker b.2 ≠ ticker a ∧ binance_symbol b.2 ≠ binance_symbol a))
      (AssetRepository.get_all st) →
  (AssetService.flush_asset aid ≫= λ _,
     AssetService.lift commit ≫= λ _, AssetService.refresh aid a0)
    (mkSession db st)
  = (AssetService.RaiseIntegrityError, mkSession db st).
Proof.
  intros Ha Hbad. unfold AssetService.flush_asset. run_asset. rewrite Ha.
  by rewrite decide_False.
Qed.

Section UpdateAsset.
Context {float : Type} (decimal_of_str : float → Decimal.t).
Context (binance_client : option (list string → option (gmap string float))).

Lemma update_run (db : Store) (aid : Z) (a : Asset) (data : AssetUpdate.t) :
  assets db !! aid = Some a →
  let a' := updated_asset
              (AssetService._fetch_initial_price decimal_of_str binance_client)
              data a in
  let db' := set_assets <[aid := a']> db in
  AssetService.update decimal_of_str binance_client aid data (open_session db)
  = match AssetUpdate.binance_symbol data with
    | Some _ =>
        if decide (Forall (λ b : Z * Asset,
                             b.1 = aid
                             ∨ (ticker b.2 ≠ ticker a'
                                ∧ binance_symbol b.2 ≠ binance_symbol a'))
                     (AssetRepository.get_all db'))
        then (AssetService.Return (aid, a'), mkSession db' db')
        else (AssetService.RaiseIntegrityError, mkSession db db')
    | None => (AssetService.Return (aid, a'), mkSession db' db')
    end.
Proof.
  intros Ha a' db'. subst db' a'.
  unfold AssetService.update, updated_asset, normalise.
  destruct data as [n s b]. cbn [AssetUpdate.name AssetUpdate.binance_symbol
                                AssetUpdate.is_active].
  run_asset. rewrite Ha.
  cbn [fmap option_fmap option_map fst snd pending committed open_session].
  destruct n as [n|], s as [s|], b as [b|];
    try (destruct (AssetService.truthy _) as [p|] eqn:Hp);
    cbn [fst snd pending committed];
    rewrite ?(alter_store db aid a _ Ha), ?alter_insert_store,
      ?(insert_same_store db aid a Ha);
    try (destruct (decide _) as [Hok|Hbad];
         [refine (flush_commit_refresh db _ aid _ a _ _ _);
          [reflexivity|apply lookup_insert_eq
          |exact (proj1 (Forall_forall _ _) Hok)]
         |refine (flush_fails db _ aid _ a _ Hbad); apply lookup_insert_eq]).
  all: flushed; cbn [set_assets assets pending open_session];
    by rewrite ?lookup_insert_eq, ?Ha.
Qed.

Lemma updated_asset_columns (initial_price : string → option Decimal.t)
    (data : AssetUpdate.t) (a : Asset) :
  let a' := updated_asset initial_price data a in
  ticker a' = ticker a
  ∧ name a' = default (name a) (AssetUpdate.name data)
  ∧ binance_symbol a'
    = default (binance_symbol a) (normalise <$> AssetUpdate.binance_symbol data)
  ∧ is_active a' = default (is_active a) (AssetUpdate.is_active data)
  ∧ (AssetUpdate.binance_symbol data = None →
     current_price a' = current_price a).
Proof.
  unfold updated_asset. destruct data as [[n|] [s|] [b|]]; cbn;
    try (destruct (AssetService.truthy _)); cbn; by repeat split.
Qed.

Lemma replace_store_unique (f : Asset → string) (db : Store) (aid : Z)
    (a' : Asset) :
  (∀ other b, other ≠ aid → assets db !! other = Some b → f b ≠ f a') →
  NoDup ((λ a : Z * Asset, f a.2) <$> AssetRepository.get_all db) →
  NoDup ((λ a : Z * Asset, f a.2)
         <$> AssetRepository.get_all (set_assets <[aid := a']> db)).
Proof.
  unfold AssetRepository.get_all. cbn [set_assets assets]. intros Hfresh Hnd.
  apply unique_by_lookup. intros i j b c Hi Hj Heq.
  apply lookup_insert_Some in Hi as [[<- <-]|[Hni Hi]];
    apply lookup_insert_Some in Hj as [[<- <-]|[Hnj Hj]].
  - done.
  - exfalso. by apply (Hfresh j c).
  - exfalso. by apply (Hfresh i b).
  - by apply (proj1 (unique_by_lookup f (assets db)) Hnd i j b c).
Qed.


End UpdateAsset.


(** * The invariants of the whole system *)

Lemma get_wallet_returns {float : Type} (to_float : Decimal.t → float)
    (db : Store) (uid : Z) :
  referential_integrity db → is_Some (users db !! uid) →
  ∃ wallet,
    TradeService.get_wallet to_float uid (open_session db)
    = (Ok wallet, open_session db).
Proof.
  intros (_ & Ht & _) [user Hu].
  destruct (TradeService.replay (λ aid, assets db !! aid)
              (sort_by timestamp (ledger_of uid db)) ∅) as [m|e] eqn:Hm.
  - eexists. by apply (get_wallet_run to_float db uid user m).
  - exfalso. apply replay_raise in Hm as (_ & tx & Hin & Hnone).
    rewrite sort_by_perm in Hin. unfold ledger_of in Hin.
    apply list_elem_of_filter in Hin as [_ Hin].
    destruct (proj1 (Forall_forall _ _) Ht tx Hin) as [_ [a Ha]]. congruence.
Qed.

Lemma same_assets_inv (db db' : Store) :
  assets db' = assets db →
  (unique_tickers db → unique_tickers db')
  ∧ (unique_symbols db → unique_symbols db')
  ∧ (prices_nonneg db → prices_nonneg db').
Proof.
  intros Heq. unfold unique_tickers, unique_symbols, prices_nonneg,
    AssetRepository.get_all. by rewrite Heq.
Qed.

(** Replacing the row of an asset by one with the same ticker. *)
Lemma replace_row_inv (db : Store) (aid : Z) (a a' : Asset) :
  assets db !! aid = Some a → ticker a' = ticker a →
  (∀ other b, other ≠ aid → assets db !! other = Some b →
              binance_symbol b ≠ binance_symbol a') →
  Decimal.nonneg (current_price a') →
  system_inv db → system_inv (set_assets <[aid := a']> db).
Proof.
  intros Ha Hticker Hsym Hprice (Href & Hut & Hus & Hinv & Hnn).
  split; [by apply insert_store_refs|]. split; [|split; [|split]].
  - apply (replace_store_unique ticker); [|done].
    intros other b Hne Hb Heq. apply Hne.
    apply (proj1 (unique_by_lookup ticker (assets db)) Hut other aid b a);
      [done..|congruence].
  - by apply (replace_store_unique binance_symbol).
  - done.
  - unfold prices_nonneg. cbn [set_assets assets].
    by apply map_Forall_insert_2.
Qed.

Section System.
Context {float : Type} (to_float : Decimal.t → float).
Context (decimal_of_str : float → Decimal.t).

Lemma fetched_price_nonneg
    (binance_client : option (list string → option (gmap string float)))
    (symbol : string) :
  (∀ get_prices, binance_client = Some get_prices →
                 feed_nonneg decimal_of_str get_prices) →
  Decimal.nonneg
    (default (Decimal.of_Z 0)
       (AssetService.truthy
          (AssetService._fetch_initial_price decimal_of_str binance_client
             symbol))).
Proof.
  intros Hfeed. destruct (AssetService.truthy _) as [p|] eqn:Hp; [|done].
  apply truthy_fetch_Some in Hp as (_ & g & prices & fp & -> & Hg & Hfp & ->).
  cbn. by apply (Hfeed g eq_refl [symbol] prices symbol).
Qed.

Lemma updated_asset_price
    (binance_client : option (list string → option (gmap string float)))
    (data : AssetUpdate.t) (a : Asset) :
  (∀ get_prices, binance_client = Some get_prices →
                 feed_nonneg decimal_of_str get_prices) →
  Decimal.nonneg (current_price a) →
  Decimal.nonneg
    (current_price
       (updated_asset
          (AssetService._fetch_initial_price decimal_of_str binance_client)
          data a)).
Proof.
  intros Hfeed Ha. unfold updated_asset.
  destruct data as [[n|] [s|] [b|]]; cbn; try done;
    pose proof (fetched_price_nonneg binance_client (normalise s) Hfeed) as Hp;
    destruct (AssetService.truthy _); cbn in *; done.
Qed.

Lemma create_committed
    (binance_client : option (list string → option (gmap string float)))
    (db : Store) (new_id : Z) (data : AssetCreate.t) :
  let t := normalise (AssetCreate.ticker data) in
  let symbol := normalise (AssetCreate.binance_symbol data) in
  let db' := committed
               (AssetService.create decimal_of_str binance_client new_id data
                  (open_session db)).2 in
  db' = db
  ∨ ((∀ a, a ∈ AssetRepository.get_all db →
           ticker a.2 ≠ t ∧ binance_symbol a.2 ≠ symbol)
     ∧ db' = set_assets
               <[new_id := mkAsset t (AssetCreate.name data) symbol
                             (default (Decimal.of_Z 0)
                                (AssetService.truthy
                                   (AssetService._fetch_initial_price
                                      decimal_of_str binance_client symbol)))
                             true]> db).
Proof.
  intros t symbol db'. subst db'.
  destruct (filter (λ a : Z * Asset, ticker a.2 = t)
              (AssetRepository.get_all db)) as [|r rows] eqn:Hf1.
  - destruct (filter (λ a : Z * Asset, binance_symbol a.2 = symbol)
                (AssetRepository.get_all db)) as [|r rows] eqn:Hf2.
    + right.
      assert (Hnot : ∀ a, a ∈ AssetRepository.get_all db →
                ticker a.2 ≠ t ∧ binance_symbol a.2 ≠ symbol).
      { intros a Ha. split; intros Heq.
        - assert (Hin : a ∈ filter (λ a : Z * Asset, ticker a.2 = t)
                          (AssetRepository.get_all db))
            by (by apply list_elem_of_filter).
          rewrite Hf1 in Hin. by inversion Hin.
        - assert (Hin : a ∈ filter (λ a : Z * Asset, binance_symbol a.2 = symbol)
                          (AssetRepository.get_all db))
            by (by apply list_elem_of_filter).
          rewrite Hf2 in Hin. by inversion Hin. }
      split; [done|].
      by rewrite (create_fresh_run decimal_of_str binance_client db new_id
                    data Hnot).
    + left. unfold AssetService.create, AssetRepository.get_by_ticker,
        AssetRepository.get_by_binance_symbol.
      unfold normalise in t, symbol. fold t. fold symbol.
      run_asset. rewrite Hf1. cbn. rewrite Hf2. by destruct rows.
  - left. unfold AssetService.create, AssetRepository.get_by_ticker.
    unfold normalise in t. fold t.
    run_asset. rewrite Hf1. by destruct rows.
Qed.

Lemma update_missing
    (binance_client : option (list string → option (gmap string float)))
    (db : Store) (aid : Z) (data : AssetUpdate.t) :
  assets db !! aid = None →
  AssetService.update decimal_of_str binance_client aid data (open_session db)
  = (AssetService.RaiseHTTP 404 (AssetService.AssetIdNotFound aid),
     open_session db).
Proof. intros Ha. unfold AssetService.update. run_asset. by rewrite Ha. Qed.

(** Every admissible request keeps the invariants and the set of users. *)
Lemma serve_inv (r : Request float) (db : Store) :
  system_inv db → admissible decimal_of_str r db →
  system_inv (serve to_float decimal_of_str r db)
  ∧ dom (users (serve to_float decimal_of_str r db)) = dom (users db).
Proof.
  intros Hsys Hadm. pose proof Hsys as (Href & Hut & Hus & Hinv & Hnn).
  destruct r as [now uid [t amt] trade_type | uid | get_prices
                | client new_id data | client aid data | aid | aid];
    cbn [serve admissible TradeRequest.amount] in *.
  - destruct (TradeService.execute_trade now uid (TradeRequest.mk t amt)
                trade_type (open_session db)) as [r s1] eqn:Hrun.
    cbn [snd].
    destruct (execute_trade_cases _ _ _ _ _ _ _ _ Hrun)
      as [-> | [(user & aid & asset & Hu & Ha & Hb & ->)
               | (user & aid & asset & q & Hu & Ha & Hq & Hb & ->)]];
      cbn [committed open_session]; [done| |].
    + destruct (same_assets_inv db (buy_store now uid aid asset amt db) eq_refl)
        as (Ht' & Hs' & Hn').
      split; [|by apply dom_alter_L].
      split; [by apply (buy_store_refs db now uid aid user)|].
      split; [by apply Ht'|]. split; [by apply Hs'|].
      split; [by apply (buy_store_inv db now uid aid user)|by apply Hn'].
    + destruct (same_assets_inv db (sell_store now uid aid asset amt db) eq_refl)
        as (Ht' & Hs' & Hn').
      split; [|by apply dom_alter_L].
      split; [by apply (sell_store_refs db now uid aid user)|].
      split; [by apply Ht'|]. split; [by apply Hs'|].
      split; [|by apply Hn'].
      apply (sell_store_inv db now uid aid asset amt q); try done.
      by apply (Hnn aid).
  - destruct (TradeService.reset_account to_float uid (open_session db))
      as [r s1] eqn:Hrun.
    cbn [snd].
    destruct (reset_account_cases to_float _ _ _ _ Hrun) as [-> | ->];
      cbn [committed open_session]; [done|].
    destruct (same_assets_inv db (reset_store uid db) eq_refl)
      as (Ht' & Hs' & Hn').
    split; [|by apply dom_alter_L].
    split; [by apply reset_store_refs|].
    split; [by apply Ht'|]. split; [by apply Hs'|].
    split; [by apply reset_store_inv|by apply Hn'].
  - destruct (update_prices_prices_only decimal_of_str get_prices
                (MarketService.mkWorld db [])) as [Hpo _].
    cbn [MarketService.db] in Hpo.
    pose proof Hpo as (Hu' & Hp' & _).
    split; [|by rewrite Hu'].
    split; [by apply (prices_only_refs db)|].
    split.
    { apply (prices_only_unique ticker db); [|done..].
      unfold static_columns. intros a b Heq. congruence. }
    split.
    { apply (prices_only_unique binance_symbol db); [|done..].
      unfold static_columns. intros a b Heq. congruence. }
    split; [unfold store_inv; by rewrite Hu', Hp'|].
    by apply (update_prices_nonneg decimal_of_str get_prices
                (MarketService.mkWorld db [])).
  - destruct Hadm as [Hfresh Hfeed].
    destruct (create_committed client db new_id data) as [-> | [Hnot ->]];
      [done|].
    split; [|done].
    split; [by apply insert_store_refs|].
    split; [apply (insert_store_unique ticker); [|done];
            intros b Hb; by apply Hnot|].
    split; [apply (insert_store_unique binance_symbol); [|done];
            intros b Hb; by apply Hnot|].
    split; [done|].
    unfold prices_nonneg. cbn [set_assets assets].
    apply map_Forall_insert_2; [|done]. cbn.
    by apply fetched_price_nonneg.
  - destruct (assets db !! aid) as [a|] eqn:Ha.
    2:{ by rewrite (update_missing client db aid data Ha). }
    rewrite (update_run decimal_of_str client db aid a data Ha).
    destruct (updated_asset_columns
                (AssetService._fetch_initial_price decimal_of_str client)
                data a) as (Hticker & _ & Hsymbol & _ & _).
    pose proof (updated_asset_price client data a Hadm (Hnn aid a Ha))
      as Hprice.
    destruct (AssetUpdate.binance_symbol data) as [s|] eqn:Hs.
    + destruct (decide _) as [Hok|Hbad]; cbn [snd committed]; [|done].
      split; [|done].
      apply (replace_row_inv db aid a); try done.
      intros other b Hne Hb.
      destruct (proj1 (Forall_forall _ _) Hok (other, b)) as [Heq|[_ Hdiff]];
        [|done|done].
      apply elem_of_map_to_list. cbn [set_assets assets].
      by rewrite lookup_insert_ne.
    + cbn [snd committed]. split; [|done].
      apply (replace_row_inv db aid a); try done.
      intros other b Hne Hb Heq. apply Hne. cbn in Hsymbol.
      apply (proj1 (unique_by_lookup binance_symbol (assets db)) Hus
               other aid b a); [done..|congruence].
  - destruct (assets db !! aid) as [a|] eqn:Ha.
    2:{ by rewrite (toggle_missing db aid Ha). }
    rewrite (toggle_run db aid a Ha). cbn [snd committed].
    split; [|done].
    apply (replace_row_inv db aid a); try done.
    + intros other b Hne Hb Heq. apply Hne.
      apply (proj1 (unique_by_lookup binance_symbol (assets db)) Hus
               other aid b a); [done..|by destruct a].
    + destruct a; cbn. by apply (Hnn aid _ Ha).
  - destruct (assets db !! aid) as [a|] eqn:Ha.
    2:{ by rewrite (delete_missing db aid Ha). }
    rewrite (delete_run db aid a Ha). cbn [snd committed].
    split; [|done].
    split; [by apply delete_store_refs|].
    split; [by apply (delete_store_unique ticker)|].
    split; [by apply (delete_store_unique binance_symbol)|].
    split; [by apply delete_store_inv|].
    unfold prices_nonneg, delete_store. cbn [assets].
    intros i b Hb. apply lookup_delete_Some in Hb as [_ Hb].
    by apply (Hnn i).
Qed.

(** X20. No sequence of requests breaks the system.  Start from a store
    that satisfies the constraints of the schema (foreign keys, unique
    tickers and feed symbols) with no negative balance, holding or price,
    and serve any sequence of trades, account resets, price cycles and
    asset creations, updates, activations and deletions, each on a session
    of its own, where trade amounts are positive, new assets get unused
    ids and the feed returns no negative price.  Then the store reached
    still satisfies all of these; the users are the same; and [get_wallet]
    answers for every one of them without raising. *)
Theorem system_invariant (rs : list (Request float)) (db : Store) :
  system_inv db → admissible_run to_float decimal_of_str rs db →
  let db' := serve_all to_float decimal_of_str rs db in
  system_inv db'
  ∧ dom (users db') = dom (users db)
  ∧ ∀ uid, is_Some (users db !! uid) →
      ∃ wallet,
        TradeService.get_wallet to_float uid (open_session db')
        = (Ok wallet, open_session db').
Proof.
  intros Hsys Hadm db'. subst db'.
  assert (H : system_inv (serve_all to_float decimal_of_str rs db)
              ∧ dom (users (serve_all to_float decimal_of_str rs db))
                = dom (users db)).
  { unfold serve_all. revert db Hsys Hadm.
    induction rs as [|r rs IH]; intros db Hsys Hadm; [done|].
    destruct Hadm as [Hr Hrs].
    destruct (serve_inv r db Hsys Hr) as [Hsys1 Hdom1].
    destruct (IH _ Hsys1 Hrs) as [Hsys2 Hdom2].
    cbn [foldl]. split; [done|]. by rewrite Hdom2. }
  destruct H as [Hsys' Hdom]. split; [done|]. split; [done|].
  intros uid Huid. apply get_wallet_returns; [apply Hsys'|].
  apply elem_of_dom. rewrite Hdom. by apply elem_of_dom.
Qed.

End System.

Lemma system_invariant_witness :
  let rs := [Trade 9 1 (TradeRequest.mk "BTC" (D 2 0)) "BUY";
             PriceCycle feed_btc;
             CreateAsset None 9 (AssetCreate.mk " sol " "Solana" "solusdt");
             DeleteAsset 8;
             ToggleActive 7;
             Trade 10 2 (TradeRequest.mk "BTC" (D 1 0)) "SELL";
             ResetAccount 1] in
  let db' := serve_all (λ d : Decimal.t, d) (λ d : Decimal.t, d) rs st_history in
  system_inv db'
  ∧ dom (users db') = dom (users st_history)
  ∧ ∀ uid, is_Some (users st_history !! uid) →
      ∃ wallet,
        TradeService.get_wallet (λ d : Decimal.t, d) uid (open_session db')
        = (Ok wallet, open_session db').
Proof.
  intros rs db'.
  apply (system_invariant (λ d : Decimal.t, d) (λ d : Decimal.t, d) rs
           st_history).
  - compute_done.
  - cbn [admissible_run admissible rs TradeRequest.amount].
    split; [by vm_compute|]. split.
    { intros syms prices sym p Hfeed Hp. injection Hfeed as <-.
      apply lookup_singleton_Some in Hp as [_ <-]. by vm_compute. }
    split; [split; [by vm_compute|discriminate]|].
    split; [exact I|]. split; [exact I|]. split; [by vm_compute|].
    split; exact I.
Defined.
